(** * atomix/cache-storage: the Cluster reconciler

    A shallow embedding of [pkg/controller/reconciler.go] and the properties
    of its readiness propagation ([reconcileStatus]), of the cluster
    configuration builder ([newClusterConfig]) and of the get-or-create
    steps for the ConfigMap, the Deployment and the Service.

    Go's [int32] is a [Z] kept in the signed 32-bit range by [wrap32];
    Go maps are [gmap]s; the Kubernetes client is a store of objects with a
    schedule of injected failures and a trace of the calls it received. *)

From Stdlib Require Import ZArith Lia.
From stdpp Require Import base gmap strings list fin_maps pretty.

Local Open Scope Z_scope.

(** ** 32-bit signed integers *)

Module Int32.

Definition min_int : Z := -2147483648.
Definition max_int : Z := 2147483647.

(** Two's complement wrap-around of an arithmetic result. *)
Definition wrap32 (z : Z) : Z := (z + 2147483648) mod 4294967296 - 2147483648.

Definition add (a b : Z) : Z := wrap32 (a + b).
Definition sub (a b : Z) : Z := wrap32 (a - b).
Definition mul (a b : Z) : Z := wrap32 (a * b).

Definition in_range (z : Z) : Prop := min_int <= z <= max_int.

End Int32.

(** ** Results of running a function of the program *)

Inductive outcome (A : Type) : Type :=
| Return (a : A)          (* the call returns [a] *)
| Panic (msg : string)    (* a run-time panic unwinds the call *)
| OutOfFuel.              (* the step budget of the model is used up *)
Arguments Return {A} a.
Arguments Panic {A} msg.
Arguments OutOfFuel {A}.

(** ** The [for] loop over partition ordinals

    [for partitionID := lo; partitionID <= hi; partitionID++ { body }]
    on an [int32] counter.  The body either returns an error out of the
    enclosing function ([Some e]) or falls through to the increment. *)

Fixpoint forLoop {St E : Type} (fuel : nat) (body : Z -> St -> option E * St)
    (partitionID hi : Z) (s : St) : outcome (option E * St) :=
  match fuel with
  | O => OutOfFuel
  | S fuel' =>
      if partitionID <=? hi then
        match body partitionID s with
        | (Some e, s') => Return (Some e, s')
        | (None, s') => forLoop fuel' body (Int32.add partitionID 1) hi s'
        end
      else Return (None, s)
  end.

(** The loop bounds, as both loops of the file write them.  The partition
    count and the shard identifier are [int32] ([clusterID := int32(id)],
    and Go multiplies operands of one type only), so are the bounds and the
    counter. *)
Definition firstPartition (partitions clusterID : Z) : Z :=
  Int32.add (Int32.mul partitions (Int32.sub clusterID 1)) 1.

Definition lastPartition (partitions clusterID : Z) : Z :=
  Int32.mul partitions clusterID.

(** The ordinals the loop visits: the loop run with a body that only
    appends its counter. *)
Definition collect (partitionID : Z) (acc : list Z) : option Empty_set * list Z :=
  (None, acc ++ [partitionID]).

Definition ownedOrdinals (fuel : nat) (partitions clusterID : Z) : outcome (list Z) :=
  match forLoop fuel collect (firstPartition partitions clusterID)
                (lastPartition partitions clusterID) [] with
  | Return (_, l) => Return l
  | Panic m => Panic m
  | OutOfFuel => OutOfFuel
  end.

(** ** Errors *)

(** The two failures of [strconv.ParseInt]. *)
Inductive NumErr : Type := ErrSyntax | ErrRange.

Inductive error : Type :=
| StatusNotFound              (* API status error, reason NotFound *)
| StatusAlreadyExists         (* API status error, reason AlreadyExists *)
| ClientFailure (code : nat)  (* any other failure of a client call *)
| EmptyResourceName           (* the request for an object without a name cannot be built *)
| MissingClusterAnnotation    (* errors.New("missing cluster annotation") *)
| NumError (num : string) (err : NumErr)  (* *strconv.NumError *)
| MarshalFailure (code : nat)             (* jsonpb marshalling *)
| OwnerReferenceFailure (code : nat).     (* controllerutil.SetControllerReference *)

(** [k8serrors.IsNotFound] *)
Definition IsNotFound (e : error) : bool :=
  match e with StatusNotFound => true | _ => false end.

(** Modelled from the spec: the three error kinds of its error handling
    design, and the kind of each error value. *)
Inductive ErrorKind : Type := NotFound | ConfigurationError | TransientStoreError.

Definition kindOf (e : error) : ErrorKind :=
  match e with
  | StatusNotFound => NotFound
  | MissingClusterAnnotation | NumError _ _ => ConfigurationError
  | _ => TransientStoreError
  end.

(** ** Kubernetes objects *)

Record OwnerReference : Type := { OwnerName : string; Controller : bool }.

Record ObjectMeta : Type := {
  Namespace : string;
  Name : string;
  Annotations : gmap string string;
  OwnerReferences : list OwnerReference;
}.

(** [types.NamespacedName]: namespace and name. *)
Abbreviation NamespacedName := (string * string)%type.

Record ClusterSpec : Type := { Partitions : Z }.
Record ClusterStatus : Type := { ReadyPartitions : Z }.
Record Cluster : Type := {
  ClusterMeta : ObjectMeta;
  Spec : ClusterSpec;
  Status : ClusterStatus;
}.

Record PartitionStatus : Type := { Ready : bool }.
Record Partition : Type := {
  PartitionMeta : ObjectMeta;
  PStatus : PartitionStatus;
}.

Record DeploymentStatus : Type := { Replicas : Z; ReadyReplicas : Z }.
Record Deployment : Type := {
  DeploymentMeta : ObjectMeta;
  DStatus : DeploymentStatus;
}.

Record ConfigMap : Type := {
  ConfigMapMeta : ObjectMeta;
  Data : gmap string string;
}.

Record Service : Type := { ServiceMeta : ObjectMeta }.

(** [v1beta1.CacheStorage]: passed around, never read. *)
Record CacheStorage : Type := { StorageMeta : ObjectMeta }.

(** The zero value of [metav1.ObjectMeta] and of [v1beta2.Partition]. *)
Definition zeroMeta : ObjectMeta :=
  {| Namespace := EmptyString; Name := EmptyString;
     Annotations := ∅; OwnerReferences := [] |}.

Definition zeroPartition : Partition :=
  {| PartitionMeta := zeroMeta; PStatus := {| Ready := false |} |}.

Definition namedMeta (namespace name : string) : ObjectMeta :=
  {| Namespace := namespace; Name := name;
     Annotations := ∅; OwnerReferences := [] |}.

Definition metaKey (m : ObjectMeta) : NamespacedName := (Namespace m, Name m).

(** ** The cluster configuration of the Atomix API *)

Module api.
Record MemberConfig : Type := {
  ID : string; Host : string; ProtocolPort : Z; APIPort : Z }.
Record DatabaseId : Type := { Name : string; Namespace : string }.
Record ClusterId : Type := { ClusterID : Z; DatabaseID : DatabaseId }.
Record PartitionId : Type := { Partition : Z; Cluster : ClusterId }.
Record ClusterConfig : Type := {
  Members : list MemberConfig;
  Partitions : list PartitionId;
}.
End api.

(** ** The client and the API server behind it *)

Inductive Call : Type :=
| GetConfigMap (n : NamespacedName)
| GetDeployment (n : NamespacedName)
| GetService (n : NamespacedName)
| GetPartition (n : NamespacedName)
| CreateConfigMap (cm : ConfigMap)
| CreateDeployment (dep : Deployment)
| CreateService (service : Service)
| UpdatePartitionStatus (partition : Partition)
| UpdateClusterStatus (cluster : Cluster).

Definition isWrite (c : Call) : bool :=
  match c with
  | GetConfigMap _ | GetDeployment _ | GetService _ | GetPartition _ => false
  | _ => true
  end.

Definition isClusterUpdate (c : Call) : bool :=
  match c with UpdateClusterStatus _ => true | _ => false end.

(** The objects the API server holds, by kind and by namespaced name; of a
    Partition and of a Cluster the store keeps the status subresource, the
    only part the reconciler reads or writes through the client.  [faults]
    is the schedule of failures: each request that reaches the server takes
    the head, and [Some code] makes that request fail.  [calls] is the
    trace of client calls, the latest first. *)
Record World : Type := {
  configMaps : gmap NamespacedName ConfigMap;
  deployments : gmap NamespacedName Deployment;
  services : gmap NamespacedName Service;
  partitions : gmap NamespacedName PartitionStatus;
  clusters : gmap NamespacedName ClusterStatus;
  faults : list (option nat);
  calls : list Call;
}.

Definition setConfigMaps (m : gmap NamespacedName ConfigMap) (w : World) : World :=
  {| configMaps := m; deployments := deployments w; services := services w;
     partitions := partitions w; clusters := clusters w;
     faults := faults w; calls := calls w |}.

Definition setDeployments (m : gmap NamespacedName Deployment) (w : World) : World :=
  {| configMaps := configMaps w; deployments := m; services := services w;
     partitions := partitions w; clusters := clusters w;
     faults := faults w; calls := calls w |}.

Definition setServices (m : gmap NamespacedName Service) (w : World) : World :=
  {| configMaps := configMaps w; deployments := deployments w; services := m;
     partitions := partitions w; clusters := clusters w;
     faults := faults w; calls := calls w |}.

Definition setPartitions (m : gmap NamespacedName PartitionStatus) (w : World) : World :=
  {| configMaps := configMaps w; deployments := deployments w; services := services w;
     partitions := m; clusters := clusters w;
     faults := faults w; calls := calls w |}.

Definition setClusters (m : gmap NamespacedName ClusterStatus) (w : World) : World :=
  {| configMaps := configMaps w; deployments := deployments w; services := services w;
     partitions := partitions w; clusters := m;
     faults := faults w; calls := calls w |}.

Definition setFaults (fs : list (option nat)) (w : World) : World :=
  {| configMaps := configMaps w; deployments := deployments w; services := services w;
     partitions := partitions w; clusters := clusters w;
     faults := fs; calls := calls w |}.

Definition record (c : Call) (w : World) : World :=
  {| configMaps := configMaps w; deployments := deployments w; services := services w;
     partitions := partitions w; clusters := clusters w;
     faults := faults w; calls := c :: calls w |}.

(** A request reaches the server: it takes the next entry of the failure
    schedule. *)
Definition request (w : World) : option error * World :=
  match faults w with
  | [] => (None, w)
  | f :: fs => (ClientFailure <$> f, setFaults fs w)
  end.

(** [client.Get] of an object of some kind held in [store]. *)
Definition get {A : Type} (c : Call) (store : World -> gmap NamespacedName A)
    (n : NamespacedName) (w : World) : (error + A) * World :=
  let '(f, w1) := request (record c w) in
  match f with
  | Some e => (inl e, w1)
  | None =>
      match store w1 !! n with
      | Some o => (inr o, w1)
      | None => (inl StatusNotFound, w1)
      end
  end.

Definition getConfigMap (n : NamespacedName) : World -> (error + ConfigMap) * World :=
  get (GetConfigMap n) configMaps n.

Definition getDeployment (n : NamespacedName) : World -> (error + Deployment) * World :=
  get (GetDeployment n) deployments n.

Definition getService (n : NamespacedName) : World -> (error + Service) * World :=
  get (GetService n) services n.

(** A Partition read from the server carries the name it is stored under. *)
Definition getPartition (n : NamespacedName) (w : World) : (error + Partition) * World :=
  match get (GetPartition n) partitions n w with
  | (inr st, w1) =>
      (inr {| PartitionMeta := namedMeta n.1 n.2; PStatus := st |}, w1)
  | (inl e, w1) => (inl e, w1)
  end.

(** [client.Create]: an object needs a name, and the name must be free. *)
Definition create {A : Type} (c : Call) (store : World -> gmap NamespacedName A)
    (setStore : gmap NamespacedName A -> World -> World)
    (m : ObjectMeta) (o : A) (w : World) : option error * World :=
  let w0 := record c w in
  if decide (Name m = EmptyString) then (Some EmptyResourceName, w0)
  else
    let '(f, w1) := request w0 in
    match f with
    | Some e => (Some e, w1)
    | None =>
        match store w1 !! metaKey m with
        | Some _ => (Some StatusAlreadyExists, w1)
        | None => (None, setStore (<[metaKey m := o]> (store w1)) w1)
        end
    end.

Definition createConfigMap (cm : ConfigMap) : World -> option error * World :=
  create (CreateConfigMap cm) configMaps setConfigMaps (ConfigMapMeta cm) cm.

Definition createDeployment (dep : Deployment) : World -> option error * World :=
  create (CreateDeployment dep) deployments setDeployments (DeploymentMeta dep) dep.

Definition createService (service : Service) : World -> option error * World :=
  create (CreateService service) services setServices (ServiceMeta service) service.

(** [client.Status().Update]: the object must have a name and must exist;
    its status replaces the stored one. *)
Definition updateStatus {A : Type} (c : Call) (store : World -> gmap NamespacedName A)
    (setStore : gmap NamespacedName A -> World -> World)
    (m : ObjectMeta) (st : A) (w : World) : option error * World :=
  let w0 := record c w in
  if decide (Name m = EmptyString) then (Some EmptyResourceName, w0)
  else
    let '(f, w1) := request w0 in
    match f with
    | Some e => (Some e, w1)
    | None =>
        match store w1 !! metaKey m with
        | None => (Some StatusNotFound, w1)
        | Some _ => (None, setStore (<[metaKey m := st]> (store w1)) w1)
        end
    end.

Definition updatePartitionStatus (partition : Partition) : World -> option error * World :=
  updateStatus (UpdatePartitionStatus partition) partitions setPartitions
               (PartitionMeta partition) (PStatus partition).

Definition updateClusterStatus (cluster : Cluster) : World -> option error * World :=
  updateStatus (UpdateClusterStatus cluster) clusters setClusters
               (ClusterMeta cluster) (Status cluster).

(** ** Functions of other packages the reconciler calls *)

Class Externals : Type := {
  (** [strconv.ParseInt(s, base, bitSize)] *)
  ParseInt : string -> Z -> Z -> NumErr + Z;
  (** [k8s.GetPartitionNamespacedName(cluster, partitionID)] *)
  GetPartitionNamespacedName : Cluster -> Z -> NamespacedName;
  (** [jsonpb.Marshaler{}.MarshalToString(config)] *)
  MarshalToString : api.ClusterConfig -> error + string;
  (** [controllerutil.SetControllerReference(cluster, object, scheme)],
      on the metadata of the object *)
  SetControllerReference : Cluster -> ObjectMeta -> error + ObjectMeta;
}.

(** ** The reconciler *)

Definition clusterConfigFile : string := "cluster.json".
Definition port : Z := 5678.

Definition clusterAnnotation : string := "cloud.atomix.io/cluster".
Definition databaseAnnotation : string := "cloud.atomix.io/database".

Definition setReady (b : bool) (partition : Partition) : Partition :=
  {| PartitionMeta := PartitionMeta partition; PStatus := {| Ready := b |} |}.

Definition setReadyPartitions (n : Z) (cluster : Cluster) : Cluster :=
  {| ClusterMeta := ClusterMeta cluster; Spec := Spec cluster;
     Status := {| ReadyPartitions := n |} |}.

Section Reconciler.
Context `{Externals}.

(** Modelled from the spec: [k8s.GetClusterIDFromClusterAnnotations], of
    the kubernetes-controller package, is not part of these sources.  The
    spec has it resolve the numeric shard identifier from the Cluster's
    annotations and fail with a configuration error when the annotation
    is absent or not numeric; the annotation and the parsing are those of
    [newClusterConfig]. *)
Definition GetClusterIDFromClusterAnnotations (cluster : Cluster) : error + Z :=
  match Annotations (ClusterMeta cluster) !! clusterAnnotation with
  | None => inl MissingClusterAnnotation
  | Some idstr =>
      match ParseInt idstr 0 32 with
      | inl e => inl (NumError idstr e)
      | inr id => inr (Int32.wrap32 id)
      end
  end.

(** The body of the configuration loop: one [api.PartitionId] appended. *)
Definition appendPartition (cluster : Cluster) (database : string) (clusterID : Z)
    (partitionID : Z) (partitions : list api.PartitionId)
    : option Empty_set * list api.PartitionId :=
  let partition :=
    {| api.Partition := partitionID;
       api.Cluster :=
         {| api.ClusterID := Int32.wrap32 clusterID;
            api.DatabaseID :=
              {| api.Name := database;
                 api.Namespace := Namespace (ClusterMeta cluster) |} |} |} in
  (None, partitions ++ [partition]).

Definition newClusterConfig (fuel : nat) (cluster : Cluster)
    : outcome (error + api.ClusterConfig) :=
  let database :=
    default EmptyString (Annotations (ClusterMeta cluster) !! databaseAnnotation) in
  match Annotations (ClusterMeta cluster) !! clusterAnnotation with
  | None => Return (inl MissingClusterAnnotation)
  | Some clusterIDstr =>
      match ParseInt clusterIDstr 0 32 with
      | inl e => Return (inl (NumError clusterIDstr e))
      | inr id =>
          let clusterID := Int32.wrap32 id in
          let members :=
            [ {| api.ID := Name (ClusterMeta cluster);
                 api.Host := Namespace (ClusterMeta cluster) +:+ "." +:+
                             Name (ClusterMeta cluster) +:+ ".svc.cluster.local";
                 api.ProtocolPort := port;
                 api.APIPort := port |} ] in
          if Partitions (Spec cluster) <? 0 then
            Panic "makeslice: cap out of range"
          else
            match forLoop fuel (appendPartition cluster database clusterID)
                    (firstPartition (Partitions (Spec cluster)) clusterID)
                    (lastPartition (Partitions (Spec cluster)) clusterID) [] with
            | Return (_, partitions) =>
                Return (inr {| api.Members := members; api.Partitions := partitions |})
            | Panic m => Panic m
            | OutOfFuel => OutOfFuel
            end
      end
  end.

Definition addConfigMap (fuel : nat) (cluster : Cluster) (storage : CacheStorage)
    (w : World) : outcome (option error * World) :=
  match newClusterConfig fuel cluster with
  | OutOfFuel => OutOfFuel
  | Panic m => Panic m
  | Return (inl e) => Return (Some e, w)
  | Return (inr config) =>
      match MarshalToString config with
      | inl e => Return (Some e, w)
      | inr data =>
          let meta := namedMeta (Namespace (ClusterMeta cluster))
                                (Name (ClusterMeta cluster)) in
          match SetControllerReference cluster meta with
          | inl e => Return (Some e, w)
          | inr meta' =>
              Return (createConfigMap
                        {| ConfigMapMeta := meta';
                           Data := {[ clusterConfigFile := data ]} |} w)
          end
      end
  end.

Definition reconcileConfigMap (fuel : nat) (cluster : Cluster) (storage : CacheStorage)
    (w : World) : outcome (option error * World) :=
  let name := (Namespace (ClusterMeta cluster), Name (ClusterMeta cluster)) in
  match getConfigMap name w with
  | (inl e, w1) =>
      if IsNotFound e then addConfigMap fuel cluster storage w1
      else Return (Some e, w1)
  | (inr _, w1) => Return (None, w1)
  end.

Definition addDeployment (cluster : Cluster) (storage : CacheStorage)
    (w : World) : option error * World :=
  let meta := namedMeta (Namespace (ClusterMeta cluster))
                        (Name (ClusterMeta cluster)) in
  match SetControllerReference cluster meta with
  | inl e => (Some e, w)
  | inr meta' =>
      createDeployment
        {| DeploymentMeta := meta';
           DStatus := {| Replicas := 0; ReadyReplicas := 0 |} |} w
  end.

Definition reconcileDeployment (cluster : Cluster) (storage : CacheStorage)
    (w : World) : option error * World :=
  let name := (Namespace (ClusterMeta cluster), Name (ClusterMeta cluster)) in
  match getDeployment name w with
  | (inl e, w1) =>
      if IsNotFound e then addDeployment cluster storage w1 else (Some e, w1)
  | (inr _, w1) => (None, w1)
  end.

Definition addService (cluster : Cluster) (storage : CacheStorage)
    (w : World) : option error * World :=
  let meta := namedMeta (Namespace (ClusterMeta cluster))
                        (Name (ClusterMeta cluster)) in
  match SetControllerReference cluster meta with
  | inl e => (Some e, w)
  | inr meta' => createService {| ServiceMeta := meta' |} w
  end.

Definition reconcileService (cluster : Cluster) (storage : CacheStorage)
    (w : World) : option error * World :=
  let name := (Namespace (ClusterMeta cluster), Name (ClusterMeta cluster)) in
  match getService name w with
  | (inl e, w1) =>
      if IsNotFound e then addService cluster storage w1 else (Some e, w1)
  | (inr _, w1) => (None, w1)
  end.

(** The body of the readiness loop.  A failed [Get] leaves [partition]
    at its zero value; only an error other than not-found returns. *)
Definition statusLoopBody (cluster : Cluster) (partitionID : Z) (w : World)
    : option error * World :=
  let '(r, w1) := getPartition (GetPartitionNamespacedName cluster partitionID) w in
  let '(partition, err) :=
    match r with
    | inr p => (p, None)
    | inl e => (zeroPartition, Some e)
    end in
  if match err with Some e => negb (IsNotFound e) | None => false end then
    (err, w1)
  else if negb (Ready (PStatus partition)) then
    updatePartitionStatus (setReady true partition) w1
  else (None, w1).

(** The guard of the readiness pass. *)
Definition trigger (cluster : Cluster) (dep : Deployment) : bool :=
  (ReadyPartitions (Status cluster) <? Partitions (Spec cluster))
  && (ReadyReplicas (DStatus dep) =? Replicas (DStatus dep)).

Definition readinessLoop (fuel : nat) (cluster : Cluster) (clusterID : Z) (w : World)
    : outcome (option error * World) :=
  forLoop fuel (statusLoopBody cluster)
    (firstPartition (Partitions (Spec cluster)) clusterID)
    (lastPartition (Partitions (Spec cluster)) clusterID) w.

(** [reconcileStatus] returns its error, the Cluster object it was handed
    (it assigns the status through the pointer) and the world. *)
Definition reconcileStatus (fuel : nat) (cluster : Cluster) (storage : CacheStorage)
    (w : World) : outcome (option error * Cluster * World) :=
  let name := (Namespace (ClusterMeta cluster), Name (ClusterMeta cluster)) in
  match getDeployment name w with
  | (inl e, w1) =>
      if IsNotFound e then Return (None, cluster, w1)
      else Return (Some e, cluster, w1)
  | (inr dep, w1) =>
      if trigger cluster dep then
        match GetClusterIDFromClusterAnnotations cluster with
        | inl e => Return (Some e, cluster, w1)
        | inr clusterID =>
            match readinessLoop fuel cluster clusterID w1 with
            | Return (Some e, w2) => Return (Some e, cluster, w2)
            | Return (None, w2) =>
                let cluster' :=
                  setReadyPartitions (Partitions (Spec cluster)) cluster in
                let '(err, w3) := updateClusterStatus cluster' w2 in
                Return (err, cluster', w3)
            | Panic m => Panic m
            | OutOfFuel => OutOfFuel
            end
        end
      else Return (None, cluster, w1)
  end.

End Reconciler.

(** ** A concrete setting for the examples *)

Module Fixture.

Fixpoint digits (s : string) (acc : Z) : option Z :=
  match s with
  | EmptyString => Some acc
  | String a s' =>
      let d := Z.of_N (Ascii.N_of_ascii a) - 48 in
      if (0 <=? d) && (d <=? 9) then digits s' (10 * acc + d) else None
  end.

(** [strconv.ParseInt] on unsigned decimal numerals, all the examples
    use. *)
Definition parseDecimal (s : string) (base bitSize : Z) : NumErr + Z :=
  match s with
  | EmptyString => inl ErrSyntax
  | _ =>
      match digits s 0 with
      | None => inl ErrSyntax
      | Some z => if z <? 2 ^ (bitSize - 1) then inr z else inl ErrRange
      end
  end.

(** Partition [n] of cluster [c] is named [c-n]. *)
Definition partitionName (cluster : Cluster) (partitionID : Z) : NamespacedName :=
  (Namespace (ClusterMeta cluster),
   Name (ClusterMeta cluster) +:+ "-" +:+ pretty partitionID).

Definition ownedBy (cluster : Cluster) (m : ObjectMeta) : error + ObjectMeta :=
  inr {| Namespace := Namespace m; Name := Name m; Annotations := Annotations m;
         OwnerReferences :=
           [ {| OwnerName := Name (ClusterMeta cluster); Controller := true |} ] |}.

#[export] Instance externals : Externals :=
  {| ParseInt := parseDecimal;
     GetPartitionNamespacedName := partitionName;
     MarshalToString := fun _ => inr "{}"%string;
     SetControllerReference := ownedBy |}.

Definition storage : CacheStorage := {| StorageMeta := namedMeta "default" "cache" |}.

(** A Cluster [default/raft] of [p] partitions, [ready] of them reported
    ready, with the given annotations. *)
Definition cluster (p ready : Z) (annotations : gmap string string) : Cluster :=
  {| ClusterMeta :=
       {| Namespace := "default"; Name := "raft";
          Annotations := annotations; OwnerReferences := [] |};
     Spec := {| Partitions := p |};
     Status := {| ReadyPartitions := ready |} |}.

Definition shard (id : string) : gmap string string := {[ clusterAnnotation := id ]}.

Definition deployment (replicas readyReplicas : Z) : Deployment :=
  {| DeploymentMeta := namedMeta "default" "raft";
     DStatus := {| Replicas := replicas; ReadyReplicas := readyReplicas |} |}.

(** A server that holds the Cluster's status, its Deployment and the
    given Partitions. *)
Definition world (c : Cluster) (dep : Deployment)
    (ps : list (Z * bool)) (fs : list (option nat)) : World :=
  {| configMaps := ∅;
     deployments := {[ ("default", "raft") := dep ]};
     services := ∅;
     partitions :=
       list_to_map ((fun p => (partitionName c p.1, {| Ready := p.2 |})) <$> ps);
     clusters := {[ ("default", "raft") := Status c ]};
     faults := fs;
     calls := [] |}.

Definition name : NamespacedName := ("default", "raft").

(** Shard 2 of three partitions per shard: ordinals 4, 5 and 6. *)
Definition c32 : Cluster := cluster 3 0 (shard "2").

Definition wFresh : World :=
  world c32 (deployment 1 1) [(4, false); (5, false); (6, false)] [].

Definition wReady : World :=
  world c32 (deployment 1 1) [(4, true); (5, true); (6, true)] [].

(** The fifth request, the status update of partition 5, fails. *)
Definition wFail : World :=
  world c32 (deployment 1 1) [(4, false); (5, false); (6, false)]
        [None; None; None; None; Some 7%nat].

(** One of two replicas is ready. *)
Definition wRolling : World :=
  world c32 (deployment 2 1) [(4, false); (5, false); (6, false)] [].

(** A Cluster without annotations. *)
Definition cNoShard : Cluster := cluster 3 0 ∅.
Definition wNoShard : World := world cNoShard (deployment 1 1) [] [].
Definition wNoShardRolling : World := world cNoShard (deployment 2 1) [] [].

(** Shard 1 of one partition; its Partition has not been created. *)
Definition c11 : Cluster := cluster 1 0 (shard "1").
Definition wMissing : World := world c11 (deployment 1 1) [] [].

(** A server on which the ConfigMap, the Deployment and the Service of
    the Cluster exist, the ConfigMap with outdated data. *)
Definition wExisting : World :=
  {| configMaps :=
       {[ name := {| ConfigMapMeta := namedMeta "default" "raft";
                     Data := {[ clusterConfigFile := "stale"%string ]} |} ]};
     deployments := {[ name := deployment 1 1 ]};
     services := {[ name := {| ServiceMeta := namedMeta "default" "raft" |} ]};
     partitions := ∅;
     clusters := {[ name := Status c32 ]};
     faults := [];
     calls := [] |}.

Definition finalWorld (w0 : World) {A : Type} (o : outcome (A * World)) : World :=
  match o with
  | Return (_, w) => w
  | _ => w0
  end.

End Fixture.

(** ** Vocabulary of the statements *)

(** The objects on the server are the same in both worlds. *)
Definition sameObjects (w w' : World) : Prop :=
  configMaps w' = configMaps w /\ deployments w' = deployments w /\
  services w' = services w /\ partitions w' = partitions w /\
  clusters w' = clusters w.

(** The write calls (create, status update) the client has received. *)
Definition writes (w : World) : list Call := List.filter isWrite (calls w).

(** Between [w] and [w'] no write was issued and no object changed. *)
Definition noWrite (w w' : World) : Prop :=
  sameObjects w w' /\ writes w' = writes w.

Definition readyIn (w : World) (n : NamespacedName) : Prop :=
  partitions w !! n = Some {| Ready := true |}.

(** The [api.PartitionId] the configuration loop builds for an ordinal. *)
Definition partitionOf (cluster : Cluster) (database : string) (clusterID : Z)
    (partitionID : Z) : api.PartitionId :=
  {| api.Partition := partitionID;
     api.Cluster :=
       {| api.ClusterID := Int32.wrap32 clusterID;
          api.DatabaseID :=
            {| api.Name := database;
               api.Namespace := Namespace (ClusterMeta cluster) |} |} |}.

(** Call [c] was received between [w] and [w1] and changed no object. *)
Definition logged (c : Call) (w w1 : World) : Prop :=
  configMaps w1 = configMaps w /\ deployments w1 = deployments w /\
  services w1 = services w /\ partitions w1 = partitions w /\
  clusters w1 = clusters w /\ calls w1 = c :: calls w /\
  (faults w = [] -> faults w1 = []).

(** Why a read of the object named [n] failed with [e]. *)
Definition getFailure {A : Type} (store : gmap NamespacedName A)
    (n : NamespacedName) (fs : list (option nat)) (e : error) : Prop :=
  (e = StatusNotFound /\ store !! n = None) \/
  ((exists code, e = ClientFailure code) /\ fs <> []).

(** Why a status update of the object with metadata [m] failed with [e]. *)
Definition updateFailure {A : Type} (store : gmap NamespacedName A)
    (m : ObjectMeta) (fs : list (option nat)) (e : error) : Prop :=
  (e = EmptyResourceName /\ Name m = EmptyString) \/
  ((exists code, e = ClientFailure code) /\ fs <> []) \/
  (e = StatusNotFound /\ store !! metaKey m = None).

(** What one step of the readiness loop may do to the world: Partitions
    are neither created nor deleted and a ready one stays ready, nothing
    else changes, and no Cluster status update is issued. *)
Definition loopStep (w w' : World) : Prop :=
  configMaps w' = configMaps w /\ deployments w' = deployments w /\
  services w' = services w /\ clusters w' = clusters w /\
  (forall n, is_Some (partitions w' !! n) <-> is_Some (partitions w !! n)) /\
  (forall n, readyIn w n -> readyIn w' n) /\
  exists new, calls w' = new ++ calls w /\
              Forall (fun c => isClusterUpdate c = false) new.

(** A run of the loop from counter [i] in state [s]: the ordinals whose
    body was run, in order, the error that ended the run if any, and the
    final state. *)
Inductive loopRun {St E : Type} (body : Z -> St -> option E * St) (hi : Z)
  : Z -> St -> list Z -> option E -> St -> Prop :=
| loopRun_exit i s :
    hi < i -> loopRun body hi i s [] None s
| loopRun_fail i s e s' :
    i <= hi -> body i s = (Some e, s') ->
    loopRun body hi i s [i] (Some e) s'
| loopRun_next i s s' l r s'' :
    i <= hi -> body i s = (None, s') ->
    loopRun body hi (Int32.add i 1) s' l r s'' ->
    loopRun body hi i s (i :: l) r s''.

(** ** The entry point

    [Reconcile] reads the Cluster the request names and the storage the
    Cluster refers to, and then runs the four steps in order.  The server
    holds a Cluster in two parts: its status, in [clusters], and the rest,
    in [clusterObjects], together with the reference [Spec.Storage], which
    only [Reconcile] reads.  The two reads of [Reconcile] take their turn
    in the failure schedule; the trace of the world lists the calls of the
    steps. *)

Record ClusterObject : Type := {
  StoredMeta : ObjectMeta;
  StoredSpec : ClusterSpec;
  SpecStorage : NamespacedName;   (* cluster.Spec.Storage: namespace, name *)
}.

Record Server : Type := {
  world : World;
  clusterObjects : gmap NamespacedName ClusterObject;
  storages : gmap NamespacedName CacheStorage;
}.

Definition setWorld (w : World) (s : Server) : Server :=
  {| world := w; clusterObjects := clusterObjects s; storages := storages s |}.

(** [reconcile.Result] *)
Record Result : Type := { Requeue : bool }.

(** The Cluster read from the server carries the name it is stored under
    and its current status. *)
Definition getCluster (n : NamespacedName) (s : Server)
    : (error + Cluster * NamespacedName) * Server :=
  let '(f, w1) := request (world s) in
  match f with
  | Some e => (inl e, setWorld w1 s)
  | None =>
      match clusterObjects s !! n, clusters w1 !! n with
      | Some o, Some st =>
          (inr ({| ClusterMeta :=
                     {| Namespace := n.1; Name := n.2;
                        Annotations := Annotations (StoredMeta o);
                        OwnerReferences := OwnerReferences (StoredMeta o) |};
                   Spec := StoredSpec o;
                   Status := st |},
                SpecStorage o),
           setWorld w1 s)
      | _, _ => (inl StatusNotFound, setWorld w1 s)
      end
  end.

Definition getStorage (n : NamespacedName) (s : Server)
    : (error + CacheStorage) * Server :=
  let '(f, w1) := request (world s) in
  match f with
  | Some e => (inl e, setWorld w1 s)
  | None =>
      match storages s !! n with
      | Some o => (inr o, setWorld w1 s)
      | None => (inl StatusNotFound, setWorld w1 s)
      end
  end.

Section EntryPoint.
Context `{Externals}.

Definition Reconcile (fuel : nat) (req : NamespacedName) (s : Server)
    : outcome (Result * option error * Server) :=
  match getCluster req s with
  | (inl e, s1) =>
      if IsNotFound e then Return ({| Requeue := false |}, None, s1)
      else Return ({| Requeue := true |}, Some e, s1)
  | (inr (cluster, name), s1) =>
      match getStorage name s1 with
      | (inl e, s2) =>
          if IsNotFound e then Return ({| Requeue := false |}, None, s2)
          else Return ({| Requeue := true |}, Some e, s2)
      | (inr storage, s2) =>
          match reconcileConfigMap fuel cluster storage (world s2) with
          | OutOfFuel => OutOfFuel
          | Panic m => Panic m
          | Return (Some e, w3) =>
              Return ({| Requeue := false |}, Some e, setWorld w3 s2)
          | Return (None, w3) =>
              match reconcileDeployment cluster storage w3 with
              | (Some e, w4) =>
                  Return ({| Requeue := false |}, Some e, setWorld w4 s2)
              | (None, w4) =>
                  match reconcileService cluster storage w4 with
                  | (Some e, w5) =>
                      Return ({| Requeue := false |}, Some e, setWorld w5 s2)
                  | (None, w5) =>
                      match reconcileStatus fuel cluster storage w5 with
                      | OutOfFuel => OutOfFuel
                      | Panic m => Panic m
                      | Return (Some e, _, w6) =>
                          Return ({| Requeue := false |}, Some e, setWorld w6 s2)
                      | Return (None, _, w6) =>
                          Return ({| Requeue := false |}, None, setWorld w6 s2)
                      end
                  end
              end
          end
      end
  end.

End EntryPoint.

(** The four steps of [Reconcile], in its order: each runs only when the
    ones before returned without error. *)
Definition reconcileSteps `{Externals} (fuel : nat) (cluster : Cluster)
    (storage : CacheStorage) (w : World) : outcome (option error * World) :=
  match reconcileConfigMap fuel cluster storage w with
  | OutOfFuel => OutOfFuel
  | Panic m => Panic m
  | Return (Some e, w3) => Return (Some e, w3)
  | Return (None, w3) =>
      match reconcileDeployment cluster storage w3 with
      | (Some e, w4) => Return (Some e, w4)
      | (None, w4) =>
          match reconcileService cluster storage w4 with
          | (Some e, w5) => Return (Some e, w5)
          | (None, w5) =>
              match reconcileStatus fuel cluster storage w5 with
              | OutOfFuel => OutOfFuel
              | Panic m => Panic m
              | Return (e, _, w6) => Return (e, w6)
              end
          end
      end
  end.

(** ** More vocabulary *)

(** Why a create of the object with metadata [m] failed with [e]. *)
Definition createFailure {A : Type} (store : gmap NamespacedName A)
    (m : ObjectMeta) (fs : list (option nat)) (e : error) : Prop :=
  (e = EmptyResourceName /\ Name m = EmptyString) \/
  ((exists code, e = ClientFailure code) /\ fs <> []) \/
  (e = StatusAlreadyExists /\ is_Some (store !! metaKey m)).

(** Between [w] and [w'] the calls [new] were received, each of them
    allowed by [allowed]. *)
Definition traced (allowed : Call -> Prop) (w w' : World) : Prop :=
  exists new, calls w' = new ++ calls w /\ Forall allowed new.

(** The calls a readiness pass on [cluster] may issue: reads of the
    Deployment and of Partitions, status updates that set a Partition
    ready, and the status update that raises the Cluster's ReadyPartitions
    to Spec.Partitions. *)
Definition passCall (cluster : Cluster) (c : Call) : Prop :=
  match c with
  | GetDeployment _ | GetPartition _ => True
  | UpdatePartitionStatus p => Ready (PStatus p) = true
  | UpdateClusterStatus c' =>
      c' = setReadyPartitions (Partitions (Spec cluster)) cluster
  | _ => False
  end.

(** The readiness pass has nothing left to do for [cluster] on [w]: the
    guard is false for the Deployment the server holds, if any. *)
Definition settled `{Externals} (cluster : Cluster) (w : World) : Prop :=
  forall dep,
    deployments w !! (Namespace (ClusterMeta cluster), Name (ClusterMeta cluster))
      = Some dep ->
    trigger cluster dep = false.

(** The owner reference leaves the namespace and the name of the object
    alone, as [controllerutil.SetControllerReference] does. *)
Definition ownerKeepsName `{Externals} : Prop :=
  forall cluster m m',
    SetControllerReference cluster m = inr m' ->
    Namespace m' = Namespace m /\ Name m' = Name m.

(** A second setting: a server that holds the Cluster of the examples and
    its storage. *)
Module Scenario.

Definition stored (p : Z) (annotations : gmap string string) : ClusterObject :=
  {| StoredMeta :=
       {| Namespace := "default"; Name := "raft";
          Annotations := annotations; OwnerReferences := [] |};
     StoredSpec := {| Partitions := p |};
     SpecStorage := ("default", "cache")%string |}.

Definition server (o : ClusterObject) (w : World) : Server :=
  {| world := w;
     clusterObjects := {[ Fixture.name := o ]};
     storages := {[ ("default", "cache")%string := Fixture.storage ]} |}.

(** Nothing but the Cluster, its storage and its three Partitions. *)
Definition sFresh : Server :=
  server (stored 3 (Fixture.shard "2"))
    {| configMaps := ∅; deployments := ∅; services := ∅;
       partitions := partitions Fixture.wFresh;
       clusters := clusters Fixture.wFresh;
       faults := []; calls := [] |}.

(** No Cluster at all. *)
Definition sEmpty : Server :=
  {| world := {| configMaps := ∅; deployments := ∅; services := ∅;
                 partitions := ∅; clusters := ∅; faults := []; calls := [] |};
     clusterObjects := ∅; storages := ∅ |}.

(** The read of the Cluster fails. *)
Definition sDown : Server :=
  server (stored 3 (Fixture.shard "2"))
    {| configMaps := ∅; deployments := ∅; services := ∅;
       partitions := partitions Fixture.wFresh;
       clusters := clusters Fixture.wFresh;
       faults := [Some 503%nat]; calls := [] |}.

(** A Cluster with a negative partition count. *)
Definition cNegative : Cluster := Fixture.cluster (-1) 0 (Fixture.shard "1").

(** A server that holds nothing. *)
Definition wEmptyWorld : World :=
  {| configMaps := ∅; deployments := ∅; services := ∅;
     partitions := ∅; clusters := ∅; faults := []; calls := [] |}.

(** Shard 32768 of 65536 partitions per shard: the product of the two
    leaves the [int32] range.  One Partition of the shard's range is on
    the server, not ready. *)
Definition cWide : Cluster := Fixture.cluster 65536 0 (Fixture.shard "32768").
Definition wWide : World :=
  Fixture.world cWide (Fixture.deployment 1 1) [(2147418113, false)] [].

(** Shard 2147483647 of one partition: its one ordinal is the largest
    [int32].  The Partition of that ordinal is on the server, ready. *)
Definition cLast : Cluster := Fixture.cluster 1 0 (Fixture.shard "2147483647").
Definition wLast : World :=
  Fixture.world cLast (Fixture.deployment 1 1) [(2147483647, true)] [].

Definition resultOf {A B : Type} (d : A) (o : outcome (A * B)) : A :=
  match o with
  | Return (a, _) => a
  | _ => d
  end.

Definition serverOf {A : Type} (d : Server) (o : outcome (A * Server)) : Server :=
  match o with
  | Return (_, s) => s
  | _ => d
  end.

End Scenario.

(** * Properties *)

(** ** 32-bit arithmetic *)

Lemma wrap32_range z : Int32.in_range (Int32.wrap32 z).
Proof.
  unfold Int32.in_range, Int32.wrap32, Int32.min_int, Int32.max_int.
  pose proof (Z.mod_pos_bound (z + 2147483648) 4294967296 eq_refl). lia.
Qed.

Lemma wrap32_id z : Int32.in_range z -> Int32.wrap32 z = z.
Proof.
  unfold Int32.in_range, Int32.wrap32, Int32.min_int, Int32.max_int. intros Hz.
  rewrite Z.mod_small by lia. lia.
Qed.

Lemma firstPartition_exact p c :
  1 <= p -> 1 <= c -> p * c < Int32.max_int ->
  firstPartition p c = p * (c - 1) + 1.
Proof.
  intros Hp Hc Hpc. unfold firstPartition, Int32.add, Int32.mul, Int32.sub.
  assert (c <= p * c) by nia.
  assert (0 <= p * (c - 1) < p * c) by nia.
  unfold Int32.max_int in *.
  rewrite (wrap32_id (c - 1)) by (unfold Int32.in_range, Int32.min_int, Int32.max_int; lia).
  rewrite (wrap32_id (p * (c - 1))) by (unfold Int32.in_range, Int32.min_int, Int32.max_int; lia).
  apply wrap32_id. unfold Int32.in_range, Int32.min_int, Int32.max_int. lia.
Qed.

Lemma lastPartition_exact p c :
  1 <= p -> 1 <= c -> p * c < Int32.max_int ->
  lastPartition p c = p * c.
Proof.
  intros Hp Hc Hpc. unfold lastPartition, Int32.mul.
  apply wrap32_id. unfold Int32.in_range, Int32.min_int, Int32.max_int in *. nia.
Qed.

(** ** The loop *)

Section ForLoop.
Context {St E : Type}.
Variable body : Z -> St -> option E * St.

Lemma forLoop_fuel_mono fuel fuel' i hi s r :
  (fuel <= fuel')%nat ->
  forLoop fuel body i hi s = Return r ->
  forLoop fuel' body i hi s = Return r.
Proof.
  revert fuel' i s. induction fuel as [|n IH]; intros fuel' i s Hle Hrun; [discriminate|].
  destruct fuel' as [|m]; [lia|]. simpl in *.
  destruct (i <=? hi); [|exact Hrun].
  destruct (body i s) as [[e|] s']; [exact Hrun|].
  apply IH; [lia|exact Hrun].
Qed.


(** What the fuelled loop returns is a run of the loop. *)
Lemma forLoop_loopRun fuel i hi s r s' :
  forLoop fuel body i hi s = Return (r, s') ->
  exists l, loopRun body hi i s l r s' /\ (length l <= fuel)%nat /\
            (r = None -> (length l < fuel)%nat).
Proof.
  revert i s. induction fuel as [|n IH]; intros i s Hrun; [discriminate|].
  simpl in Hrun. destruct (Z.leb_spec i hi) as [Hle|Hgt].
  - destruct (body i s) as [[e|] s1] eqn:Hbody.
    + inversion Hrun; subst. exists [i].
      split; [by apply loopRun_fail|]. split; [simpl; lia|done].
    + destruct (IH _ _ Hrun) as (l & Hl & Hlen & Hnone).
      exists (i :: l). split; [by eapply loopRun_next|].
      split; [simpl; lia|]. intros Hr. specialize (Hnone Hr). simpl. lia.
  - inversion Hrun; subst. exists [].
    split; [by apply loopRun_exit|]. split; simpl; lia.
Qed.

(** A run of the loop is what the fuelled loop returns, given the fuel. *)
Lemma loopRun_forLoop hi i s l r s' :
  loopRun body hi i s l r s' ->
  forall fuel, (length l < fuel)%nat ->
  forLoop fuel body i hi s = Return (r, s').
Proof.
  induction 1 as [i s Hgt|i s e s' Hle Hbody|i s s' l r s'' Hle Hbody _ IH];
    intros fuel Hfuel; (destruct fuel as [|n]; [simpl in Hfuel; lia|]); simpl.
  - destruct (Z.leb_spec i hi); [lia|done].
  - destruct (Z.leb_spec i hi); [|lia]. by rewrite Hbody.
  - destruct (Z.leb_spec i hi); [|lia]. rewrite Hbody.
    apply IH. simpl in Hfuel. lia.
Qed.

(** A property every step keeps, and that composes, relates the two ends
    of a run. *)
Lemma loopRun_preserves (R : St -> St -> Prop) hi i s l r s' :
  (forall x, R x x) ->
  (forall x y z, R x y -> R y z -> R x z) ->
  (forall j x e y, body j x = (e, y) -> R x y) ->
  loopRun body hi i s l r s' -> R s s'.
Proof.
  intros Hrefl Htrans Hstep.
  induction 1 as [| |i s s' l r s'' _ Hbody _ IH]; eauto.
Qed.

End ForLoop.

(** Below the largest [int32] the counter passes the upper bound: the
    loop ends, whatever its body does. *)
Lemma forLoop_terminates {St E : Type} (body : Z -> St -> option E * St) (n : nat) :
  forall fuel i hi s,
  Int32.min_int <= i -> hi < Int32.max_int ->
  hi - i + 1 <= Z.of_nat n -> (n < fuel)%nat ->
  exists r, forLoop fuel body i hi s = Return r.
Proof.
  induction n as [|n IH]; intros fuel i hi s Hlo Hhi Hn Hfuel;
    (destruct fuel as [|f]; [lia|]); simpl.
  - destruct (Z.leb_spec i hi); [lia|by eexists].
  - destruct (Z.leb_spec i hi); [|by eexists].
    destruct (body i s) as [[e|] s']; [by eexists|].
    assert (Hstep : Int32.add i 1 = i + 1).
    { unfold Int32.add. apply wrap32_id.
      unfold Int32.in_range, Int32.min_int, Int32.max_int in *. lia. }
    rewrite Hstep. apply IH; lia.
Qed.

Lemma collect_loop_seq (n : nat) : forall fuel i hi acc,
  Int32.min_int <= i -> hi < Int32.max_int ->
  hi - i + 1 = Z.of_nat n -> (n < fuel)%nat ->
  forLoop fuel collect i hi acc = Return (None, acc ++ seqZ i (Z.of_nat n)).
Proof.
  induction n as [|n IH]; intros fuel i hi acc Hlo Hhi Hn Hfuel.
  - destruct fuel as [|f]; [lia|]. simpl.
    destruct (Z.leb_spec i hi); [lia|]. by rewrite app_nil_r.
  - destruct fuel as [|f]; [lia|]. simpl.
    destruct (Z.leb_spec i hi); [|lia].
    assert (Hstep : Int32.add i 1 = i + 1).
    { unfold Int32.add. apply wrap32_id.
      unfold Int32.in_range, Int32.min_int, Int32.max_int in *. lia. }
    rewrite Hstep.
    rewrite (IH f (i + 1) hi (acc ++ [i])); try lia.
    rewrite <- app_assoc. simpl. do 3 f_equal.
    rewrite (seqZ_cons i (Z.of_nat (S n))) by lia.
    do 2 f_equal; lia.
Qed.

Lemma ownedOrdinals_exact p c fuel :
  1 <= p -> 1 <= c -> p * c < Int32.max_int -> (Z.to_nat p < fuel)%nat ->
  ownedOrdinals fuel p c = Return (seqZ (p * (c - 1) + 1) p).
Proof.
  intros Hp Hc Hpc Hfuel. unfold ownedOrdinals.
  rewrite firstPartition_exact, lastPartition_exact by done.
  rewrite (collect_loop_seq (Z.to_nat p)); try lia.
  - simpl. by rewrite Z2Nat.id by lia.
  - unfold Int32.min_int. nia.
Qed.

(** With an upper bound at the largest [int32] the counter can never pass
    it: the loop does not end. *)
Lemma collect_loop_diverges fuel : forall i acc,
  forLoop fuel collect i Int32.max_int acc = OutOfFuel \/
  ~ Int32.in_range i.
Proof.
  induction fuel as [|n IH]; intros i acc; [by left|].
  destruct (decide (Int32.in_range i)) as [Hi|Hi]; [left|by right].
  simpl. destruct (Z.leb_spec i Int32.max_int) as [_|Hgt].
  - destruct (IH (Int32.add i 1) (acc ++ [i])) as [Hrun|Hout]; [done|].
    destruct Hout. apply wrap32_range.
  - destruct Hi. unfold Int32.max_int in *. lia.
Qed.

Lemma owned_range_diverges fuel : ownedOrdinals fuel 1 2147483647 = OutOfFuel.
Proof.
  unfold ownedOrdinals.
  change (lastPartition 1 2147483647) with Int32.max_int.
  change (firstPartition 1 2147483647) with Int32.max_int.
  destruct (collect_loop_diverges fuel Int32.max_int []) as [->|Hout]; [done|].
  destruct Hout. unfold Int32.in_range, Int32.min_int, Int32.max_int. lia.
Qed.

(** The ordinals of a run are consecutive from the first counter, and a
    run that ends without error covers the whole range. *)
Lemma loopRun_visits {St E : Type} (body : Z -> St -> option E * St) hi i s l r s' :
  loopRun body hi i s l r s' -> hi < Int32.max_int -> Int32.min_int <= i ->
  l `prefix_of` seqZ i (hi - i + 1) /\ (r = None -> l = seqZ i (hi - i + 1)).
Proof.
  induction 1 as [i s Hgt|i s e s' Hle Hbody|i s s' l r s'' Hle Hbody _ IH];
    intros Hhi Hlo.
  - rewrite seqZ_nil by lia. split; [done|done].
  - rewrite seqZ_cons by lia. split; [|done].
    by apply prefix_cons, prefix_nil.
  - assert (Hstep : Int32.add i 1 = i + 1).
    { unfold Int32.add. apply wrap32_id.
      unfold Int32.in_range, Int32.min_int, Int32.max_int in *. lia. }
    rewrite Hstep in IH. destruct IH as [Hpre Hall]; [done|lia|].
    rewrite seqZ_cons by lia.
    replace (Z.succ i) with (i + 1) by lia.
    replace (Z.pred (hi - i + 1)) with (hi - (i + 1) + 1) by lia.
    split; [by apply prefix_cons|]. intros Hr. by rewrite Hall.
Qed.

(** The ordinals of a run that ends without error are those the
    collecting loop gathers: they depend on the bounds only. *)
Lemma loopRun_collect {St E : Type} (body : Z -> St -> option E * St) hi i s l s' :
  loopRun body hi i s l None s' ->
  forall acc, loopRun collect hi i acc l None (acc ++ l).
Proof.
  remember None as r eqn:Hr.
  induction 1 as [i s Hgt|i s e s' Hle Hbody|i s s' l r s'' Hle Hbody _ IH];
    intros acc; subst.
  - rewrite app_nil_r. by apply loopRun_exit.
  - discriminate.
  - eapply loopRun_next; [done|reflexivity|].
    replace (acc ++ i :: l) with ((acc ++ [i]) ++ l) by by rewrite <- app_assoc.
    by apply IH.
Qed.

(** ** The client *)

Lemma request_inv w f w1 :
  request w = (f, w1) ->
  configMaps w1 = configMaps w /\ deployments w1 = deployments w /\
  services w1 = services w /\ partitions w1 = partitions w /\
  clusters w1 = clusters w /\ calls w1 = calls w /\
  (faults w = [] -> f = None).
Proof.
  unfold request. destruct (faults w) as [|x fs]; intros [= <- <-]; simpl; done.
Qed.

Lemma request_failure w f w1 e :
  request w = (f, w1) -> f = Some e -> exists code, e = ClientFailure code.
Proof.
  unfold request. destruct (faults w) as [|[code|] fs]; intros [= <- <-]; simpl;
    intros [= <-]. by exists code.
Qed.

Lemma request_faults w f w1 :
  request w = (f, w1) -> faults w = [] -> faults w1 = [].
Proof.
  unfold request. intros Hreq Hnil. rewrite Hnil in Hreq. by inversion Hreq; subst.
Qed.

Section Get.
Context {A : Type} (c : Call) (store : World -> gmap NamespacedName A).
Hypothesis store_record : forall c' w, store (record c' w) = store w.
Hypothesis store_request : forall w f w1, request w = (f, w1) -> store w1 = store w.

Lemma get_inv n w r w1 :
  get c store n w = (r, w1) ->
  logged c w w1 /\
  match r with
  | inr o => store w !! n = Some o
  | inl e => getFailure (store w) n (faults w) e
  end.
Proof.
  unfold get. destruct (request (record c w)) as [f w0] eqn:Hreq.
  pose proof (request_inv _ _ _ Hreq) as (H1 & H2 & H3 & H4 & H5 & H6 & H7).
  pose proof (store_request _ _ _ Hreq) as Hst. rewrite store_record in Hst.
  pose proof (request_faults _ _ _ Hreq) as Hfs.
  simpl in *.
  assert (Hw : forall w', w' = w0 -> logged c w w')
    by (intros w' ->; unfold logged; done).
  destruct f as [e|].
  - intros [= <- <-]. split; [by apply Hw|]. right.
    split; [by eapply request_failure|].
    intros Hnil. by specialize (H7 Hnil).
  - rewrite Hst. destruct (store w !! n) as [o|] eqn:Hlook;
      intros [= <- <-]; (split; [by apply Hw|]); [done|by left].
Qed.

End Get.

Ltac request_store :=
  let Hreq := fresh in
  intros ? ? ? Hreq; apply request_inv in Hreq; tauto.

Lemma getConfigMap_inv n w r w1 :
  getConfigMap n w = (r, w1) ->
  logged (GetConfigMap n) w w1 /\
  match r with
  | inr cm => configMaps w !! n = Some cm
  | inl e => getFailure (configMaps w) n (faults w) e
  end.
Proof. apply get_inv; [done|request_store]. Qed.

Lemma getDeployment_inv n w r w1 :
  getDeployment n w = (r, w1) ->
  logged (GetDeployment n) w w1 /\
  match r with
  | inr dep => deployments w !! n = Some dep
  | inl e => getFailure (deployments w) n (faults w) e
  end.
Proof. apply get_inv; [done|request_store]. Qed.

Lemma getService_inv n w r w1 :
  getService n w = (r, w1) ->
  logged (GetService n) w w1 /\
  match r with
  | inr service => services w !! n = Some service
  | inl e => getFailure (services w) n (faults w) e
  end.
Proof. apply get_inv; [done|request_store]. Qed.

Lemma getPartition_inv n w r w1 :
  getPartition n w = (r, w1) ->
  logged (GetPartition n) w w1 /\
  match r with
  | inr p => PartitionMeta p = namedMeta n.1 n.2 /\
             partitions w !! n = Some (PStatus p)
  | inl e => getFailure (partitions w) n (faults w) e
  end.
Proof.
  unfold getPartition.
  destruct (get (GetPartition n) partitions n w) as [[e|st] w0] eqn:Hget;
    apply get_inv in Hget; try done; try request_store;
    intros [= <- <-]; simpl; tauto.
Qed.

(** A successful read is a read of what is stored. *)
Lemma get_found {A : Type} (c : Call) (store : World -> gmap NamespacedName A) n w o :
  (forall c' w, store (record c' w) = store w) ->
  faults w = [] -> store w !! n = Some o ->
  get c store n w = (inr o, record c w).
Proof.
  intros Hrec Hfs Hlook. unfold get, request. simpl. rewrite Hfs.
  by rewrite Hrec, Hlook.
Qed.

Lemma getPartition_found n w st :
  faults w = [] -> partitions w !! n = Some st ->
  getPartition n w =
    (inr {| PartitionMeta := namedMeta n.1 n.2; PStatus := st |},
     record (GetPartition n) w).
Proof.
  intros Hfs Hlook. unfold getPartition.
  by rewrite (get_found _ partitions n w st).
Qed.

Lemma getPartition_missing n w :
  faults w = [] -> partitions w !! n = None ->
  getPartition n w = (inl StatusNotFound, record (GetPartition n) w).
Proof.
  intros Hfs Hlook. unfold getPartition, get, request, record. simpl.
  rewrite Hfs. simpl. by rewrite Hlook.
Qed.

Lemma updatePartitionStatus_inv p w e w' :
  updatePartitionStatus p w = (e, w') ->
  configMaps w' = configMaps w /\ deployments w' = deployments w /\
  services w' = services w /\ clusters w' = clusters w /\
  calls w' = UpdatePartitionStatus p :: calls w /\
  (faults w = [] -> faults w' = []) /\
  match e with
  | None => Name (PartitionMeta p) <> EmptyString /\
            is_Some (partitions w !! metaKey (PartitionMeta p)) /\
            partitions w' = <[metaKey (PartitionMeta p) := PStatus p]> (partitions w)
  | Some err => partitions w' = partitions w /\
                updateFailure (partitions w) (PartitionMeta p) (faults w) err
  end.
Proof.
  unfold updatePartitionStatus, updateStatus, updateFailure. case_decide as Hname.
  { intros [= <- <-]. simpl. tauto. }
  destruct (request _) as [f w0] eqn:Hreq.
  pose proof (request_inv _ _ _ Hreq) as (H1 & H2 & H3 & H4 & H5 & H6 & H7).
  pose proof (request_faults _ _ _ Hreq) as Hfs. simpl in *.
  destruct f as [err|].
  - intros [= <- <-]. do 6 (split; [done|]). split; [done|].
    right; left. split; [by eapply request_failure|].
    intros Hnil. by specialize (H7 Hnil).
  - rewrite H4.
    destruct (partitions w !! metaKey (PartitionMeta p)) as [st|] eqn:Hlook;
      intros [= <- <-]; simpl; rewrite ?H4; do 6 (split; [done|]).
    + split; [done|]. split; [by eexists|done].
    + split; [done|]. right; right. done.
Qed.

Lemma updateClusterStatus_inv c w e w' :
  updateClusterStatus c w = (e, w') ->
  configMaps w' = configMaps w /\ deployments w' = deployments w /\
  services w' = services w /\ partitions w' = partitions w /\
  calls w' = UpdateClusterStatus c :: calls w /\
  (faults w = [] -> faults w' = []) /\
  match e with
  | None => Name (ClusterMeta c) <> EmptyString /\
            is_Some (clusters w !! metaKey (ClusterMeta c)) /\
            clusters w' = <[metaKey (ClusterMeta c) := Status c]> (clusters w)
  | Some err => clusters w' = clusters w /\
                updateFailure (clusters w) (ClusterMeta c) (faults w) err
  end.
Proof.
  unfold updateClusterStatus, updateStatus, updateFailure. case_decide as Hname.
  { intros [= <- <-]. simpl. tauto. }
  destruct (request _) as [f w0] eqn:Hreq.
  pose proof (request_inv _ _ _ Hreq) as (H1 & H2 & H3 & H4 & H5 & H6 & H7).
  pose proof (request_faults _ _ _ Hreq) as Hfs. simpl in *.
  destruct f as [err|].
  - intros [= <- <-]. do 6 (split; [done|]). split; [done|].
    right; left. split; [by eapply request_failure|].
    intros Hnil. by specialize (H7 Hnil).
  - rewrite H5.
    destruct (clusters w !! metaKey (ClusterMeta c)) as [st|] eqn:Hlook;
      intros [= <- <-]; simpl; rewrite ?H5; do 6 (split; [done|]).
    + split; [done|]. split; [by eexists|done].
    + split; [done|]. right; right. done.
Qed.

(** ** One step of the readiness loop *)

Lemma loopStep_refl w : loopStep w w.
Proof.
  unfold loopStep. repeat (split; [done|]). exists []. by split.
Qed.

Lemma loopStep_trans w1 w2 w3 : loopStep w1 w2 -> loopStep w2 w3 -> loopStep w1 w3.
Proof.
  intros (A1 & A2 & A3 & A4 & A5 & A6 & new1 & A7 & A8)
         (B1 & B2 & B3 & B4 & B5 & B6 & new2 & B7 & B8).
  unfold loopStep. rewrite B1, B2, B3, B4. do 4 (split; [done|]).
  split; [intros n; by rewrite B5|]. split; [by auto|].
  exists (new2 ++ new1). rewrite B7, A7, app_assoc. split; [done|].
  by apply Forall_app.
Qed.

Lemma logged_loopStep c w w1 :
  logged c w w1 -> isClusterUpdate c = false -> loopStep w w1.
Proof.
  intros (H1 & H2 & H3 & H4 & H5 & H6 & _) Hc. unfold loopStep, readyIn.
  rewrite H4. do 4 (split; [done|]). split; [done|]. split; [done|].
  exists [c]. split; [done|]. by constructor.
Qed.

Lemma updatePartitionStatus_loopStep p w e w' :
  Ready (PStatus p) = true ->
  updatePartitionStatus p w = (e, w') -> loopStep w w'.
Proof.
  intros Hready Hupd. apply updatePartitionStatus_inv in Hupd
    as (H1 & H2 & H3 & H4 & H5 & _ & Hcase).
  unfold loopStep, readyIn. do 4 (split; [done|]).
  assert (Hparts :
    (forall n, is_Some (partitions w' !! n) <-> is_Some (partitions w !! n)) /\
    (forall n, partitions w !! n = Some {| Ready := true |} ->
               partitions w' !! n = Some {| Ready := true |})).
  { destruct e as [err|].
    - destruct Hcase as [-> _]. done.
    - destruct Hcase as (_ & Hsome & ->). split; intros n.
      + destruct (decide (metaKey (PartitionMeta p) = n)) as [<-|Hne].
        * rewrite lookup_insert_eq. split; [done|by eexists].
        * by rewrite lookup_insert_ne.
      + destruct (decide (metaKey (PartitionMeta p) = n)) as [<-|Hne].
        * rewrite lookup_insert_eq. intros _.
          destruct (PStatus p) as [b]. simpl in Hready. by subst.
        * by rewrite lookup_insert_ne. }
  destruct Hparts as [Hdom Hkeep]. split; [done|]. split; [done|].
  exists [UpdatePartitionStatus p]. split; [done|]. by constructor.
Qed.

Section LoopBody.
Context `{Externals}.

(** The loop body, case by case. *)
Lemma statusLoopBody_cases cluster partitionID w e w' :
  statusLoopBody cluster partitionID w = (e, w') ->
  exists r w1,
    getPartition (GetPartitionNamespacedName cluster partitionID) w = (r, w1) /\
    match r with
    | inl err =>
        if IsNotFound err
        then updatePartitionStatus (setReady true zeroPartition) w1 = (e, w')
        else e = Some err /\ w' = w1
    | inr p =>
        if Ready (PStatus p)
        then e = None /\ w' = w1
        else updatePartitionStatus (setReady true p) w1 = (e, w')
    end.
Proof.
  unfold statusLoopBody.
  destruct (getPartition _ w) as [r w1]. intros Hbody. exists r, w1.
  split; [done|]. destruct r as [err|p]; simpl in Hbody.
  - destruct (IsNotFound err); simpl in Hbody; [done|].
    by inversion Hbody.
  - destruct (Ready (PStatus p)); simpl in Hbody; [|done].
    by inversion Hbody.
Qed.

(** The update the body issues for a Partition that was not found cannot
    succeed: the object it sends has no name. *)
Lemma update_zero_fails w e w' :
  updatePartitionStatus (setReady true zeroPartition) w = (e, w') ->
  e = Some EmptyResourceName /\
  w' = record (UpdatePartitionStatus (setReady true zeroPartition)) w.
Proof.
  unfold updatePartitionStatus, updateStatus. simpl.
  by intros [= <- <-].
Qed.

Lemma statusLoopBody_loopStep cluster partitionID w e w' :
  statusLoopBody cluster partitionID w = (e, w') -> loopStep w w'.
Proof.
  intros Hbody. apply statusLoopBody_cases in Hbody as (r & w1 & Hget & Hcase).
  apply getPartition_inv in Hget as [Hlog _].
  apply logged_loopStep in Hlog; [|done].
  destruct r as [err|p].
  - destruct (IsNotFound err).
    + eapply loopStep_trans; [done|].
      eapply updatePartitionStatus_loopStep; [|exact Hcase]. done.
    + by destruct Hcase as [_ ->].
  - destruct (Ready (PStatus p)).
    + by destruct Hcase as [_ ->].
    + eapply loopStep_trans; [done|].
      eapply updatePartitionStatus_loopStep; [|exact Hcase]. done.
Qed.

(** When the body falls through to the next ordinal, the Partition of
    this one exists and is ready. *)
Lemma statusLoopBody_ready cluster partitionID w w' :
  statusLoopBody cluster partitionID w = (None, w') ->
  readyIn w' (GetPartitionNamespacedName cluster partitionID).
Proof.
  intros Hbody. apply statusLoopBody_cases in Hbody as (r & w1 & Hget & Hcase).
  apply getPartition_inv in Hget as [Hlog Hres].
  destruct Hlog as (_ & _ & _ & Hparts & _).
  destruct r as [err|p].
  - destruct (IsNotFound err).
    + by apply update_zero_fails in Hcase as [? _].
    + by destruct Hcase.
  - destruct Hres as [Hmeta Hlook]. unfold readyIn.
    destruct (Ready (PStatus p)) eqn:Hready.
    + destruct Hcase as [_ ->]. rewrite Hparts, Hlook.
      destruct (PStatus p) as [b]. simpl in Hready. by subst.
    + apply updatePartitionStatus_inv in Hcase
        as (_ & _ & _ & _ & _ & _ & _ & _ & ->).
      simpl. rewrite Hmeta. unfold metaKey. simpl.
      destruct (GetPartitionNamespacedName cluster partitionID) as [ns nm].
      simpl. by rewrite lookup_insert_eq.
Qed.

(** A run of the readiness loop is a chain of such steps. *)
Lemma readiness_run_loopStep cluster hi i w l r w' :
  loopRun (statusLoopBody cluster) hi i w l r w' -> loopStep w w'.
Proof.
  apply loopRun_preserves.
  - apply loopStep_refl.
  - apply loopStep_trans.
  - intros j x e y. apply statusLoopBody_loopStep.
Qed.

(** Every ordinal a run has passed has a ready Partition at the end of
    the run. *)
Lemma readiness_run_ready cluster hi i w l r w' :
  loopRun (statusLoopBody cluster) hi i w l r w' ->
  forall passed k, l = passed ++ [k] \/ (l = passed /\ r = None) ->
  forall j, j ∈ passed -> readyIn w' (GetPartitionNamespacedName cluster j).
Proof.
  induction 1 as [i s Hgt|i s e s' Hle Hbody|i s s' l r s'' Hle Hbody Hrun IH];
    intros passed k Hl j Hj.
  - destruct Hl as [Hl|[<- _]]; [by destruct passed|by apply elem_of_nil in Hj].
  - destruct Hl as [Hl|[_ ?]]; [|done].
    destruct passed as [|x [|y passed]]; simplify_eq/=.
    by apply elem_of_nil in Hj.
  - assert (Hhead : readyIn s'' (GetPartitionNamespacedName cluster i)).
    { apply readiness_run_loopStep in Hrun as (_ & _ & _ & _ & _ & Hkeep & _).
      apply Hkeep. by apply statusLoopBody_ready in Hbody. }
    destruct Hl as [Hl|[<- ->]].
    + destruct passed as [|x passed]; simplify_eq/=.
      * by apply elem_of_nil in Hj.
      * apply elem_of_cons in Hj as [->|Hj]; [done|].
        apply (IH passed k); [by left|done].
    + apply elem_of_cons in Hj as [->|Hj]; [done|].
      apply (IH l 0); [by right|done].
Qed.

End LoopBody.

(** ** The guard of the readiness pass *)

Lemma logged_noWrite c w w1 : logged c w w1 -> isWrite c = false -> noWrite w w1.
Proof.
  intros (H1 & H2 & H3 & H4 & H5 & H6 & _) Hc.
  unfold noWrite, sameObjects, writes. rewrite H6. simpl. by rewrite Hc.
Qed.

Section Guard.
Context `{Externals}.

(** When the Deployment cannot be read, or the guard is false, the pass
    returns at once. *)
Lemma reconcileStatus_not_triggered fuel cluster storage w r w1 :
  getDeployment (Namespace (ClusterMeta cluster), Name (ClusterMeta cluster)) w
    = (r, w1) ->
  match r with inr dep => trigger cluster dep = false | inl _ => True end ->
  reconcileStatus fuel cluster storage w =
    Return (match r with
            | inl e => if IsNotFound e then None else Some e
            | inr _ => None
            end, cluster, w1).
Proof.
  intros Hget Hguard. unfold reconcileStatus. rewrite Hget.
  destruct r as [e|dep]; [by destruct (IsNotFound e)|by rewrite Hguard].
Qed.

(** C4: when the Deployment's ReadyReplicas differs from its Replicas, or
    the Cluster's ReadyPartitions has reached Spec.Partitions, the
    readiness pass returns without a write: no object on the server
    changes, no create or status update is issued, and the Cluster
    object it was handed is as before. *)
Theorem readiness_guard_no_write fuel cluster storage w :
  (forall dep,
     deployments w !! (Namespace (ClusterMeta cluster), Name (ClusterMeta cluster))
       = Some dep ->
     ReadyReplicas (DStatus dep) <> Replicas (DStatus dep) \/
     Partitions (Spec cluster) <= ReadyPartitions (Status cluster)) ->
  exists e w',
    reconcileStatus fuel cluster storage w = Return (e, cluster, w') /\
    noWrite w w'.
Proof.
  intros Hguard.
  destruct (getDeployment (Namespace (ClusterMeta cluster),
                           Name (ClusterMeta cluster)) w) as [r w1] eqn:Hget.
  pose proof (getDeployment_inv _ _ _ _ Hget) as [Hlog Hres].
  eexists _, w1. split.
  - apply (reconcileStatus_not_triggered _ _ _ _ _ _ Hget).
    destruct r as [e|dep]; [done|].
    unfold trigger. destruct (Hguard dep Hres) as [Hne|Hge].
    + apply andb_false_iff. right. by apply Z.eqb_neq.
    + apply andb_false_iff. left. apply Z.ltb_ge. lia.
  - by apply (logged_noWrite _ _ _ Hlog).
Qed.

(** C7, as amended: on a Cluster whose shard annotation is absent or
    not numeric the readiness pass returns, whatever the fuel, and never
    writes.  It fails with a configuration error exactly when its guard
    holds (the Deployment is read, ReadyReplicas equals Replicas and
    ReadyPartitions is below Spec.Partitions), and the error is the one
    the resolution of the shard identifier gives.  When the Deployment is
    read and the guard is false, or the Deployment is not found, the
    annotation is not looked at and the pass returns without error; when
    the read of the Deployment fails otherwise, the pass returns that
    error, which is no configuration error.  The configuration builder
    fails on such a Cluster with a configuration error. *)
Theorem missing_shard_annotation_no_write fuel cluster storage w :
  (Annotations (ClusterMeta cluster) !! clusterAnnotation = None \/
   exists idstr err,
     Annotations (ClusterMeta cluster) !! clusterAnnotation = Some idstr /\
     ParseInt idstr 0 32 = inl err) ->
  (exists e w',
     reconcileStatus fuel cluster storage w = Return (e, cluster, w') /\
     noWrite w w') /\
  (forall dep w1,
     getDeployment (Namespace (ClusterMeta cluster), Name (ClusterMeta cluster)) w
       = (inr dep, w1) ->
     trigger cluster dep = true ->
     exists e,
       GetClusterIDFromClusterAnnotations cluster = inl e /\
       reconcileStatus fuel cluster storage w = Return (Some e, cluster, w1) /\
       kindOf e = ConfigurationError) /\
  (forall dep w1,
     getDeployment (Namespace (ClusterMeta cluster), Name (ClusterMeta cluster)) w
       = (inr dep, w1) ->
     trigger cluster dep = false ->
     reconcileStatus fuel cluster storage w = Return (None, cluster, w1)) /\
  (forall e w1,
     getDeployment (Namespace (ClusterMeta cluster), Name (ClusterMeta cluster)) w
       = (inl e, w1) ->
     reconcileStatus fuel cluster storage w =
       Return (if IsNotFound e then None else Some e, cluster, w1) /\
     kindOf e <> ConfigurationError) /\
  (exists e,
     newClusterConfig fuel cluster = Return (inl e) /\
     kindOf e = ConfigurationError).
Proof.
  intros Hann.
  assert (Hid : exists e, GetClusterIDFromClusterAnnotations cluster = inl e /\
                          kindOf e = ConfigurationError).
  { unfold GetClusterIDFromClusterAnnotations.
    destruct Hann as [->|(idstr & err & -> & ->)]; by eexists. }
  destruct Hid as (e0 & Hid & Hkind).
  assert (Htrig : forall dep w1,
    getDeployment (Namespace (ClusterMeta cluster), Name (ClusterMeta cluster)) w
      = (inr dep, w1) ->
    trigger cluster dep = true ->
    reconcileStatus fuel cluster storage w = Return (Some e0, cluster, w1)).
  { intros dep w1 Hget Hguard. unfold reconcileStatus.
    by rewrite Hget, Hguard, Hid. }
  split; [|split; [|split; [|split]]].
  - destruct (getDeployment (Namespace (ClusterMeta cluster),
                             Name (ClusterMeta cluster)) w) as [r w1] eqn:Hget.
    pose proof (getDeployment_inv _ _ _ _ Hget) as [Hlog _].
    apply logged_noWrite in Hlog; [|done].
    destruct r as [e|dep].
    + eexists _, w1. split; [|done].
      by apply (reconcileStatus_not_triggered _ _ _ _ _ _ Hget).
    + destruct (trigger cluster dep) eqn:Hguard.
      * exists (Some e0), w1. split; [by apply (Htrig dep)|done].
      * eexists _, w1. split; [|done].
        by apply (reconcileStatus_not_triggered _ _ _ _ _ _ Hget).
  - intros dep w1 Hget Hguard. exists e0.
    split; [done|]. split; [by apply (Htrig dep)|done].
  - intros dep w1 Hget Hguard.
    by apply (reconcileStatus_not_triggered _ _ _ _ _ _ Hget).
  - intros e w1 Hget. split.
    + by apply (reconcileStatus_not_triggered _ _ _ _ _ _ Hget).
    + apply getDeployment_inv in Hget as [_ [[-> _]|[[code ->] _]]]; done.
  - unfold newClusterConfig.
    destruct Hann as [->|(idstr & err & -> & ->)]; by eexists.
Qed.

(** C5: a second readiness pass on the state a successful first pass
    left (the Cluster object as the first pass returned it, the server
    as it is) performs no write, whatever failures the client meets; if
    it meets none, it returns without error. *)
Theorem readiness_pass_idempotent fuel cluster storage w cluster' w' :
  reconcileStatus fuel cluster storage w = Return (None, cluster', w') ->
  forall fuel2 fs, exists e w'',
    reconcileStatus fuel2 cluster' storage (setFaults fs w')
      = Return (e, cluster', w'') /\
    noWrite w' w'' /\
    (fs = [] -> e = None).
Proof.
  intros Hfirst fuel2 fs.
  set (name := (Namespace (ClusterMeta cluster), Name (ClusterMeta cluster))).
  assert (Hname : (Namespace (ClusterMeta cluster'), Name (ClusterMeta cluster'))
                  = name /\
                  (forall dep, deployments w' !! name = Some dep ->
                     trigger cluster' dep = false)).
  { unfold reconcileStatus in Hfirst. fold name in Hfirst.
    destruct (getDeployment name w) as [r w1] eqn:Hget.
    pose proof (getDeployment_inv _ _ _ _ Hget) as [Hlog Hres].
    destruct Hlog as (_ & Hdeps & _).
    destruct r as [e|dep].
    - destruct (IsNotFound e) eqn:Hnf; [|done].
      inversion Hfirst; subst. split; [done|]. intros dep.
      rewrite Hdeps. destruct Hres as [[_ ->]|[[code ->] _]]; done.
    - destruct (trigger cluster dep) eqn:Hguard.
      + destruct (GetClusterIDFromClusterAnnotations cluster); [done|].
        destruct (readinessLoop _ _ _ _) as [[[e|] w2]| |]; try done.
        destruct (updateClusterStatus _ w2) as [err w3].
        inversion Hfirst; subst. split; [done|]. intros dep' _.
        unfold trigger. simpl. by rewrite Z.ltb_irrefl.
      + inversion Hfirst; subst. split; [done|]. intros dep'.
        rewrite Hdeps, Hres. by intros [= <-]. }
  destruct Hname as [Hname Hguard].
  destruct (getDeployment name (setFaults fs w')) as [r w''] eqn:Hget.
  pose proof (getDeployment_inv _ _ _ _ Hget) as [Hlog Hres].
  apply logged_noWrite in Hlog; [|done]. simpl in Hres.
  eexists _, w''. split; [|split].
  - apply reconcileStatus_not_triggered with (r := r);
      [rewrite Hname; exact Hget|].
    destruct r as [e|dep]; [done|]. by apply Hguard.
  - exact Hlog.
  - intros ->. destruct r as [e|dep]; [|done].
    destruct Hres as [[-> _]|[_ Hfs]]; done.
Qed.

End Guard.

(** ** Get-or-create *)

Section GetOrCreate.
Context `{Externals}.

(** C10: each get-or-create step returns without error as soon as its
    Get succeeds: it issues no create and no update, and every object on
    the server, the one it has just read included, is left as it is. *)
Theorem get_or_create_keeps_existing fuel cluster storage w :
  let name := (Namespace (ClusterMeta cluster), Name (ClusterMeta cluster)) in
  (forall cm w1,
     getConfigMap name w = (inr cm, w1) ->
     reconcileConfigMap fuel cluster storage w = Return (None, w1) /\
     noWrite w w1 /\ configMaps w1 !! name = Some cm) /\
  (forall dep w1,
     getDeployment name w = (inr dep, w1) ->
     reconcileDeployment cluster storage w = (None, w1) /\
     noWrite w w1 /\ deployments w1 !! name = Some dep) /\
  (forall service w1,
     getService name w = (inr service, w1) ->
     reconcileService cluster storage w = (None, w1) /\
     noWrite w w1 /\ services w1 !! name = Some service).
Proof.
  intros name. split; [|split].
  - intros cm w1 Hget. unfold reconcileConfigMap. fold name. rewrite Hget.
    apply getConfigMap_inv in Hget as [Hlog Hres].
    split; [done|]. split; [by apply (logged_noWrite _ _ _ Hlog)|].
    destruct Hlog as (-> & _). done.
  - intros dep w1 Hget. unfold reconcileDeployment. fold name. rewrite Hget.
    apply getDeployment_inv in Hget as [Hlog Hres].
    split; [done|]. split; [by apply (logged_noWrite _ _ _ Hlog)|].
    destruct Hlog as (_ & -> & _). done.
  - intros service w1 Hget. unfold reconcileService. fold name. rewrite Hget.
    apply getService_inv in Hget as [Hlog Hres].
    split; [done|]. split; [by apply (logged_noWrite _ _ _ Hlog)|].
    destruct Hlog as (_ & _ & -> & _). done.
Qed.

End GetOrCreate.

(** ** The cluster configuration *)

Lemma append_loop_collect {B : Type} (f : Z -> B) fuel : forall i hi acc,
  forLoop fuel (fun j (bs : list B) => (@None Empty_set, bs ++ [f j])) i hi (f <$> acc) =
  match forLoop fuel collect i hi acc with
  | Return (_, l) => Return (None, f <$> l)
  | Panic m => Panic m
  | OutOfFuel => OutOfFuel
  end.
Proof.
  induction fuel as [|n IH]; intros i hi acc; simpl; [done|].
  destruct (i <=? hi); [|done].
  rewrite <- IH. by rewrite fmap_app.
Qed.

Section ClusterConfig.
Context `{Externals}.

Lemma appendPartition_partitionOf cluster database clusterID :
  appendPartition cluster database clusterID =
  fun j bs => (None, bs ++ [partitionOf cluster database clusterID j]).
Proof. reflexivity. Qed.

(** The partitions of the configuration are the ordinals the loop
    visits, each tagged with the shard and the database. *)
Lemma newClusterConfig_owned fuel cluster idstr id :
  Annotations (ClusterMeta cluster) !! clusterAnnotation = Some idstr ->
  ParseInt idstr 0 32 = inr id ->
  0 <= Partitions (Spec cluster) ->
  newClusterConfig fuel cluster =
  match ownedOrdinals fuel (Partitions (Spec cluster)) (Int32.wrap32 id) with
  | Return l =>
      Return (inr
        {| api.Members :=
             [ {| api.ID := Name (ClusterMeta cluster);
                  api.Host := Namespace (ClusterMeta cluster) +:+ "." +:+
                              Name (ClusterMeta cluster) +:+ ".svc.cluster.local";
                  api.ProtocolPort := port; api.APIPort := port |} ];
           api.Partitions :=
             partitionOf cluster
               (default EmptyString
                  (Annotations (ClusterMeta cluster) !! databaseAnnotation))
               (Int32.wrap32 id) <$> l |})
  | Panic m => Panic m
  | OutOfFuel => OutOfFuel
  end.
Proof.
  intros Hann Hparse Hp. unfold newClusterConfig, ownedOrdinals.
  rewrite Hann, Hparse.
  destruct (Z.ltb_spec (Partitions (Spec cluster)) 0) as [Hneg|_]; [lia|].
  change (@nil api.PartitionId) with
    (partitionOf cluster
       (default EmptyString (Annotations (ClusterMeta cluster) !! databaseAnnotation))
       (Int32.wrap32 id) <$> []).
  rewrite appendPartition_partitionOf.
  rewrite (append_loop_collect (partitionOf cluster _ (Int32.wrap32 id))).
  by destruct (forLoop fuel collect _ _ []) as [[r l]|m|].
Qed.

(** The loop of the builder ends when its upper bound is not the largest
    [int32], and has then visited the ordinals between its bounds. *)
Lemma ownedOrdinals_between fuel p c :
  lastPartition p c <> Int32.max_int ->
  (Z.to_nat (lastPartition p c - firstPartition p c + 1) < fuel)%nat ->
  ownedOrdinals fuel p c =
    Return (seqZ (firstPartition p c) (lastPartition p c - firstPartition p c + 1)).
Proof.
  intros Hne Hfuel.
  pose proof (wrap32_range (Int32.mul p (Int32.sub c 1) + 1)) as [Hlo _].
  pose proof (wrap32_range (p * c)) as [_ Hhi].
  fold (Int32.add (Int32.mul p (Int32.sub c 1)) 1) in Hlo.
  fold (firstPartition p c) in Hlo.
  fold (Int32.mul p c) in Hhi. fold (lastPartition p c) in Hhi.
  unfold ownedOrdinals.
  destruct (Z.le_gt_cases (firstPartition p c) (lastPartition p c + 1)) as [Hle|Hgt].
  - rewrite (collect_loop_seq
               (Z.to_nat (lastPartition p c - firstPartition p c + 1)));
      [|done|lia|lia|done].
    simpl. by rewrite Z2Nat.id by lia.
  - destruct fuel as [|f]; [lia|]. simpl.
    destruct (Z.leb_spec (firstPartition p c) (lastPartition p c)); [lia|].
    by rewrite seqZ_nil by lia.
Qed.

(** C9, as amended: building the cluster configuration returns an error
    exactly when the shard annotation is missing or not numeric, with or
    without a database annotation.  With a numeric shard annotation a
    configuration is built exactly when the partition count is not
    negative and the last ordinal of the shard, as the [int32] loop bound
    gives it, is not the largest [int32]; it then lists one partition per
    ordinal between the loop bounds, and on a Cluster without database
    annotation, which is not refused, every partition names the database
    by the empty string. *)
Theorem newClusterConfig_database_optional cluster :
  (forall fuel,
     (exists e, newClusterConfig fuel cluster = Return (inl e)) <->
     (Annotations (ClusterMeta cluster) !! clusterAnnotation = None \/
      exists idstr err,
        Annotations (ClusterMeta cluster) !! clusterAnnotation = Some idstr /\
        ParseInt idstr 0 32 = inl err)) /\
  (forall idstr id,
     Annotations (ClusterMeta cluster) !! clusterAnnotation = Some idstr ->
     ParseInt idstr 0 32 = inr id ->
     ((exists fuel config, newClusterConfig fuel cluster = Return (inr config)) <->
      (0 <= Partitions (Spec cluster) /\
       lastPartition (Partitions (Spec cluster)) (Int32.wrap32 id) <> Int32.max_int)) /\
     (0 <= Partitions (Spec cluster) ->
      lastPartition (Partitions (Spec cluster)) (Int32.wrap32 id) <> Int32.max_int ->
      forall fuel,
        (Z.to_nat (lastPartition (Partitions (Spec cluster)) (Int32.wrap32 id)
                   - firstPartition (Partitions (Spec cluster)) (Int32.wrap32 id) + 1)
         < fuel)%nat ->
        exists config,
          newClusterConfig fuel cluster = Return (inr config) /\
          api.Partition <$> api.Partitions config =
            seqZ (firstPartition (Partitions (Spec cluster)) (Int32.wrap32 id))
                 (lastPartition (Partitions (Spec cluster)) (Int32.wrap32 id)
                  - firstPartition (Partitions (Spec cluster)) (Int32.wrap32 id) + 1) /\
          (Annotations (ClusterMeta cluster) !! databaseAnnotation = None ->
           Forall (fun p => api.Name (api.DatabaseID (api.Cluster p)) = EmptyString)
                  (api.Partitions config)))).
Proof.
  split.
  - intros fuel. split.
    + intros [e Herr]. unfold newClusterConfig in Herr.
      destruct (Annotations (ClusterMeta cluster) !! clusterAnnotation)
        as [idstr|]; [|by left].
      right. exists idstr.
      destruct (ParseInt idstr 0 32) as [err|id]; [by exists err|].
      destruct (Partitions (Spec cluster) <? 0); [done|].
      by destruct (forLoop _ _ _ _ _) as [[r l]|m|].
    + unfold newClusterConfig.
      intros [->|(idstr & err & -> & ->)]; by eexists.
  - intros idstr id Hann Hparse.
    assert (Hbuilt : 0 <= Partitions (Spec cluster) ->
      lastPartition (Partitions (Spec cluster)) (Int32.wrap32 id) <> Int32.max_int ->
      forall fuel,
        (Z.to_nat (lastPartition (Partitions (Spec cluster)) (Int32.wrap32 id)
                   - firstPartition (Partitions (Spec cluster)) (Int32.wrap32 id) + 1)
         < fuel)%nat ->
        exists config,
          newClusterConfig fuel cluster = Return (inr config) /\
          api.Partition <$> api.Partitions config =
            seqZ (firstPartition (Partitions (Spec cluster)) (Int32.wrap32 id))
                 (lastPartition (Partitions (Spec cluster)) (Int32.wrap32 id)
                  - firstPartition (Partitions (Spec cluster)) (Int32.wrap32 id) + 1) /\
          (Annotations (ClusterMeta cluster) !! databaseAnnotation = None ->
           Forall (fun p => api.Name (api.DatabaseID (api.Cluster p)) = EmptyString)
                  (api.Partitions config))).
    { intros Hp Hne fuel Hfuel.
      rewrite (newClusterConfig_owned _ _ _ _ Hann Hparse Hp).
      rewrite ownedOrdinals_between by done.
      eexists. split; [done|]. simpl. split.
      - rewrite <- list_fmap_compose. by rewrite list_fmap_id.
      - intros ->. by apply Forall_fmap, Forall_true. }
    split; [|exact Hbuilt]. split.
    + intros (fuel & config & Hcfg).
      assert (Hp : 0 <= Partitions (Spec cluster)).
      { unfold newClusterConfig in Hcfg. rewrite Hann, Hparse in Hcfg.
        destruct (Z.ltb_spec (Partitions (Spec cluster)) 0); [done|lia]. }
      split; [done|]. intros Hmax.
      rewrite (newClusterConfig_owned _ _ _ _ Hann Hparse Hp) in Hcfg.
      unfold ownedOrdinals in Hcfg. rewrite Hmax in Hcfg.
      destruct (collect_loop_diverges fuel
                  (firstPartition (Partitions (Spec cluster)) (Int32.wrap32 id)) [])
        as [Hout|Hout].
      * by rewrite Hout in Hcfg.
      * destruct Hout. apply wrap32_range.
    + intros [Hp Hne].
      destruct (Hbuilt Hp Hne
                  (S (Z.to_nat
                        (lastPartition (Partitions (Spec cluster)) (Int32.wrap32 id)
                         - firstPartition (Partitions (Spec cluster)) (Int32.wrap32 id)
                         + 1)))) as (config & Hcfg & _); [lia|].
      by eexists _, config.
Qed.

End ClusterConfig.

(** ** The readiness loop *)

Lemma loopRun_collect_acc hi i acc l r acc' :
  loopRun collect hi i acc l r acc' -> acc' = acc ++ l /\ r = None.
Proof.
  induction 1 as [i s Hgt|i s e s' Hle Hbody|i s s' l r s'' Hle Hbody _ IH].
  - by rewrite app_nil_r.
  - destruct e.
  - inversion Hbody; subst. destruct IH as [-> ->].
    by rewrite <- app_assoc.
Qed.

Lemma ownedOrdinals_loopRun fuel p c l :
  ownedOrdinals fuel p c = Return l ->
  loopRun collect (lastPartition p c) (firstPartition p c) [] l None l /\
  (length l < fuel)%nat.
Proof.
  unfold ownedOrdinals.
  destruct (forLoop fuel collect _ _ []) as [[r l']| |] eqn:Hrun; try done.
  intros [= ->]. apply forLoop_loopRun in Hrun as (l0 & Hrun & _ & Hlen).
  pose proof (loopRun_collect_acc _ _ _ _ _ _ Hrun) as [Hl ->].
  simpl in Hl. subst l0. split; [done|by apply Hlen].
Qed.

Lemma loopRun_ownedOrdinals {St E : Type} (body : Z -> St -> option E * St)
    fuel p c s l s' :
  loopRun body (lastPartition p c) (firstPartition p c) s l None s' ->
  (length l < fuel)%nat ->
  ownedOrdinals fuel p c = Return l.
Proof.
  intros Hrun Hlen. unfold ownedOrdinals.
  apply loopRun_collect with (acc := []) in Hrun.
  by rewrite (loopRun_forLoop _ _ _ _ _ _ _ Hrun fuel Hlen).
Qed.

Section Readiness.
Context `{Externals}.


(** With every Partition of the run ready and no failure scheduled, the
    loop only reads. *)
Lemma readiness_run_all_ready cluster hi i acc l acc' :
  loopRun collect hi i acc l None acc' ->
  forall w, faults w = [] ->
  (forall j, j ∈ l -> readyIn w (GetPartitionNamespacedName cluster j)) ->
  exists w',
    loopRun (statusLoopBody cluster) hi i w l None w' /\
    faults w' = [] /\ noWrite w w' /\
    List.filter isClusterUpdate (calls w') = List.filter isClusterUpdate (calls w).
Proof.
  remember None as r eqn:Hr.
  induction 1 as [i s Hgt|i s e s' Hle Hbody|i s s' l r s'' Hle Hbody Hrun IH];
    intros w Hfs Hready; subst.
  - exists w. split; [by apply loopRun_exit|]. done.
  - done.
  - set (n := GetPartitionNamespacedName cluster i).
    assert (Hbody' : statusLoopBody cluster i w = (None, record (GetPartition n) w)).
    { unfold statusLoopBody. fold n.
      rewrite (getPartition_found n w {| Ready := true |}); [done|done|].
      apply Hready. by left. }
    destruct (IH eq_refl (record (GetPartition n) w)) as (w' & Hrun' & Hfs' & Hnw & Hcu).
    + done.
    + intros j Hj. unfold readyIn. simpl. apply Hready. by right.
    + exists w'. split; [by eapply loopRun_next|]. split; [done|].
      split; [|done]. destruct Hnw as [Hsame Hwr]. by split.
Qed.

(** What a readiness pass that returns has done. *)
Lemma reconcileStatus_inv fuel cluster storage w r cluster' w' :
  reconcileStatus fuel cluster storage w = Return (r, cluster', w') ->
  let name := (Namespace (ClusterMeta cluster), Name (ClusterMeta cluster)) in
  exists g w1,
    getDeployment name w = (g, w1) /\
    match g with
    | inl e => cluster' = cluster /\ w' = w1
    | inr dep =>
        if trigger cluster dep then
          match GetClusterIDFromClusterAnnotations cluster with
          | inl e => r = Some e /\ cluster' = cluster /\ w' = w1
          | inr clusterID =>
              (exists e, readinessLoop fuel cluster clusterID w1 = Return (Some e, w') /\
                         r = Some e /\ cluster' = cluster) \/
              (exists w2, readinessLoop fuel cluster clusterID w1 = Return (None, w2) /\
                          cluster' = setReadyPartitions (Partitions (Spec cluster)) cluster /\
                          updateClusterStatus cluster' w2 = (r, w'))
          end
        else r = None /\ cluster' = cluster /\ w' = w1
    end.
Proof.
  intros Hrun name. unfold reconcileStatus in Hrun. fold name in Hrun.
  destruct (getDeployment name w) as [g w1]. exists g, w1. split; [done|].
  destruct g as [e|dep].
  - destruct (IsNotFound e); by inversion Hrun.
  - destruct (trigger cluster dep); [|by inversion Hrun].
    destruct (GetClusterIDFromClusterAnnotations cluster) as [e|clusterID];
      [by inversion Hrun|].
    destruct (readinessLoop fuel cluster clusterID w1) as [[[e|] w2]| |];
      try done.
    + inversion Hrun; subst. left. by exists e.
    + destruct (updateClusterStatus _ w2) as [err w3] eqn:Hupd.
      inversion Hrun; subst. right. by exists w2.
Qed.

(** With the bounds inside the [int32] range and fuel for one step per
    partition, the readiness pass returns. *)
Lemma reconcileStatus_returns fuel cluster storage w :
  1 <= Partitions (Spec cluster) ->
  (forall clusterID,
     GetClusterIDFromClusterAnnotations cluster = inr clusterID ->
     1 <= clusterID /\ Partitions (Spec cluster) * clusterID < Int32.max_int) ->
  (Z.to_nat (Partitions (Spec cluster)) < fuel)%nat ->
  exists r cluster' w', reconcileStatus fuel cluster storage w = Return (r, cluster', w').
Proof.
  intros Hp Hid Hfuel. unfold reconcileStatus.
  destruct (getDeployment _ w) as [[e|dep] w1].
  - destruct (IsNotFound e); by eexists _, _, _.
  - destruct (trigger cluster dep); [|by eexists _, _, _].
    destruct (GetClusterIDFromClusterAnnotations cluster) as [e|clusterID];
      [by eexists _, _, _|].
    destruct (Hid clusterID eq_refl) as [Hc Hpc].
    unfold readinessLoop.
    destruct (forLoop_terminates (statusLoopBody cluster)
                (Z.to_nat (Partitions (Spec cluster))) fuel
                (firstPartition (Partitions (Spec cluster)) clusterID)
                (lastPartition (Partitions (Spec cluster)) clusterID) w1)
      as [[[e|] w2] ->].
    + rewrite firstPartition_exact by done. unfold Int32.min_int. nia.
    + by rewrite lastPartition_exact.
    + rewrite firstPartition_exact, lastPartition_exact by done. lia.
    + done.
    + by eexists _, _, _.
    + destruct (updateClusterStatus _ w2) as [err w3]. by eexists _, _, _.
Qed.

End Readiness.



Section Abort.
Context `{Externals}.


End Abort.

Section Monotone.
Context `{Externals}.

(** With the guard true, the shard resolved, no failure scheduled and
    the Partition of every ordinal the loop visits ready, the pass only
    reads the Partitions and then assigns and writes the Cluster status. *)
Lemma reconcileStatus_all_ready fuel cluster storage w dep clusterID l :
  faults w = [] ->
  deployments w !! (Namespace (ClusterMeta cluster), Name (ClusterMeta cluster))
    = Some dep ->
  trigger cluster dep = true ->
  GetClusterIDFromClusterAnnotations cluster = inr clusterID ->
  ownedOrdinals fuel (Partitions (Spec cluster)) clusterID = Return l ->
  (forall j, j ∈ l -> readyIn w (GetPartitionNamespacedName cluster j)) ->
  exists w2 err w3,
    noWrite w w2 /\ faults w2 = [] /\
    updateClusterStatus
      (setReadyPartitions (Partitions (Spec cluster)) cluster) w2 = (err, w3) /\
    reconcileStatus fuel cluster storage w =
      Return (err, setReadyPartitions (Partitions (Spec cluster)) cluster, w3).
Proof.
  intros Hfs Hdep Hguard Hid Howned Hready.
  set (name := (Namespace (ClusterMeta cluster), Name (ClusterMeta cluster))) in *.
  assert (Hget : getDeployment name w = (inr dep, record (GetDeployment name) w))
    by by apply get_found.
  apply ownedOrdinals_loopRun in Howned as [Hrun Hlen].
  destruct (readiness_run_all_ready cluster _ _ _ _ _ Hrun
              (record (GetDeployment name) w)) as (w2 & Hrun2 & Hfs2 & Hnw & _);
    [done|done|].
  destruct (updateClusterStatus
              (setReadyPartitions (Partitions (Spec cluster)) cluster) w2)
    as [err w3] eqn:Hupd.
  exists w2, err, w3. split; [|split; [done|split; [done|]]].
  - destruct Hnw as [Hsame Hwr]. by split.
  - unfold reconcileStatus. fold name. rewrite Hget, Hguard, Hid.
    unfold readinessLoop.
    rewrite (loopRun_forLoop _ _ _ _ _ _ _ Hrun2 fuel Hlen). by rewrite Hupd.
Qed.

(** If moreover the Cluster is on the server, the write of its status
    succeeds: the pass has written no Partition and has persisted
    ReadyPartitions = Spec.Partitions by its one write. *)
Lemma all_ready_advances fuel cluster storage w dep clusterID l :
  faults w = [] ->
  deployments w !! (Namespace (ClusterMeta cluster), Name (ClusterMeta cluster))
    = Some dep ->
  trigger cluster dep = true ->
  GetClusterIDFromClusterAnnotations cluster = inr clusterID ->
  ownedOrdinals fuel (Partitions (Spec cluster)) clusterID = Return l ->
  (forall j, j ∈ l -> readyIn w (GetPartitionNamespacedName cluster j)) ->
  Name (ClusterMeta cluster) <> EmptyString ->
  is_Some (clusters w !! metaKey (ClusterMeta cluster)) ->
  exists w',
    reconcileStatus fuel cluster storage w =
      Return (None, setReadyPartitions (Partitions (Spec cluster)) cluster, w') /\
    partitions w' = partitions w /\
    writes w' =
      UpdateClusterStatus (setReadyPartitions (Partitions (Spec cluster)) cluster)
      :: writes w /\
    clusters w' !! metaKey (ClusterMeta cluster) =
      Some {| ReadyPartitions := Partitions (Spec cluster) |}.
Proof.
  intros Hfs Hdep Hguard Hid Howned Hready Hname Hstored.
  destruct (reconcileStatus_all_ready fuel cluster storage w dep clusterID l)
    as (w2 & err & w3 & [Hsame Hwr] & Hfs2 & Hupd & Hpass); try done.
  destruct Hsame as (_ & _ & _ & Hparts & Hcl).
  pose proof (updateClusterStatus_inv _ _ _ _ Hupd)
    as (_ & _ & _ & Hparts3 & Hcalls & _ & Hres).
  destruct err as [err|].
  - destruct Hres as [_ [[_ Hempty]|[[_ Hfault]|[_ Hmissing]]]].
    + done.
    + done.
    + simpl in Hmissing. rewrite Hcl in Hmissing.
      rewrite Hmissing in Hstored. by destruct Hstored.
  - destruct Hres as (_ & _ & Hcl3). exists w3. split; [done|].
    split; [by rewrite Hparts3|]. split.
    + unfold writes in *. rewrite Hcalls. simpl. by rewrite Hwr.
    + rewrite Hcl3. simpl. by rewrite lookup_insert_eq.
Qed.

(** C6, as amended: whatever a readiness pass that returns has done,
    every Partition that was ready is still ready and no Partition
    appeared or disappeared; the Cluster's ReadyPartitions has not
    decreased, and the stored Cluster status is either untouched or raised
    to Spec.Partitions.  ReadyPartitions changes only by reaching
    Spec.Partitions.  For a partition count P and a shard identifier
    C >= 1 with P * C below the largest [int32], it reaches Spec.Partitions
    only if every Partition with an ordinal in [(P * (C-1)) + 1, P * C]
    exists and is ready; and with P >= 1, the guard true, no client
    failure and every such Partition ready, the pass returns, has written
    no Partition and has set ReadyPartitions to Spec.Partitions, which it
    has persisted, without error, when the Cluster is on the server.
    Within these bounds every pass returns. *)
Theorem readiness_monotone fuel cluster storage w :
  (forall r cluster' w',
     reconcileStatus fuel cluster storage w = Return (r, cluster', w') ->
     (forall n, readyIn w n -> readyIn w' n) /\
     (forall n, is_Some (partitions w' !! n) <-> is_Some (partitions w !! n)) /\
     ReadyPartitions (Status cluster) <= ReadyPartitions (Status cluster') /\
     (clusters w' = clusters w \/
      (ReadyPartitions (Status cluster) < Partitions (Spec cluster) /\
       clusters w' =
         <[metaKey (ClusterMeta cluster) :=
             {| ReadyPartitions := Partitions (Spec cluster) |}]> (clusters w))) /\
     (ReadyPartitions (Status cluster') <> ReadyPartitions (Status cluster) \/
      clusters w' <> clusters w ->
      ReadyPartitions (Status cluster') = Partitions (Spec cluster) /\
      exists clusterID,
        GetClusterIDFromClusterAnnotations cluster = inr clusterID /\
        (1 <= clusterID ->
         Partitions (Spec cluster) * clusterID < Int32.max_int ->
         forall j,
           Partitions (Spec cluster) * (clusterID - 1) + 1 <= j
             <= Partitions (Spec cluster) * clusterID ->
           readyIn w' (GetPartitionNamespacedName cluster j)))) /\
  (forall dep clusterID,
     faults w = [] ->
     deployments w !! (Namespace (ClusterMeta cluster), Name (ClusterMeta cluster))
       = Some dep ->
     trigger cluster dep = true ->
     GetClusterIDFromClusterAnnotations cluster = inr clusterID ->
     1 <= Partitions (Spec cluster) -> 1 <= clusterID ->
     Partitions (Spec cluster) * clusterID < Int32.max_int ->
     (Z.to_nat (Partitions (Spec cluster)) < fuel)%nat ->
     (forall j,
        Partitions (Spec cluster) * (clusterID - 1) + 1 <= j
          <= Partitions (Spec cluster) * clusterID ->
        readyIn w (GetPartitionNamespacedName cluster j)) ->
     exists r w',
       reconcileStatus fuel cluster storage w =
         Return (r, setReadyPartitions (Partitions (Spec cluster)) cluster, w') /\
       partitions w' = partitions w /\
       (Name (ClusterMeta cluster) <> EmptyString ->
        is_Some (clusters w !! metaKey (ClusterMeta cluster)) ->
        r = None /\
        clusters w' !! metaKey (ClusterMeta cluster) =
          Some {| ReadyPartitions := Partitions (Spec cluster) |})) /\
  (1 <= Partitions (Spec cluster) ->
   (forall clusterID,
      GetClusterIDFromClusterAnnotations cluster = inr clusterID ->
      1 <= clusterID /\ Partitions (Spec cluster) * clusterID < Int32.max_int) ->
   (Z.to_nat (Partitions (Spec cluster)) < fuel)%nat ->
   exists r cluster' w',
     reconcileStatus fuel cluster storage w = Return (r, cluster', w')).
Proof.
  split; [|split; [|by apply reconcileStatus_returns]].
  2:{ intros dep clusterID Hfs Hdep Hguard Hid Hp Hc Hpc Hfuel Hready.
      assert (Howned :
        ownedOrdinals fuel (Partitions (Spec cluster)) clusterID =
        Return (seqZ (Partitions (Spec cluster) * (clusterID - 1) + 1)
                     (Partitions (Spec cluster)))) by by apply ownedOrdinals_exact.
      assert (Hall : forall j,
        j ∈ seqZ (Partitions (Spec cluster) * (clusterID - 1) + 1)
                 (Partitions (Spec cluster)) ->
        readyIn w (GetPartitionNamespacedName cluster j)).
      { intros j Hj. apply Hready. apply elem_of_seqZ in Hj. lia. }
      destruct (reconcileStatus_all_ready fuel cluster storage w dep clusterID _
                  Hfs Hdep Hguard Hid Howned Hall)
        as (w2 & err & w3 & [Hsame _] & _ & Hupd & Hpass).
      exists err, w3. split; [done|]. split.
      - apply updateClusterStatus_inv in Hupd as (_ & _ & _ & Hparts & _).
        destruct Hsame as (_ & _ & _ & Hparts2 & _). by rewrite Hparts.
      - intros Hname Hstored.
        destruct (all_ready_advances fuel cluster storage w dep clusterID _
                    Hfs Hdep Hguard Hid Howned Hall Hname Hstored)
          as (w4 & Hpass4 & _ & _ & Hcl4).
        rewrite Hpass in Hpass4. by injection Hpass4 as -> ->. }
  intros r cluster' w' Hpass.
  apply reconcileStatus_inv in Hpass as (g & w1 & Hget & Hcase).
  apply getDeployment_inv in Hget as [Hlog _].
  pose proof (logged_loopStep _ _ _ Hlog eq_refl) as Hstart.
  assert (Hquiet : cluster' = cluster -> loopStep w w' ->
    (forall n, readyIn w n -> readyIn w' n) /\
    (forall n, is_Some (partitions w' !! n) <-> is_Some (partitions w !! n)) /\
    ReadyPartitions (Status cluster) <= ReadyPartitions (Status cluster') /\
    (clusters w' = clusters w \/
     (ReadyPartitions (Status cluster) < Partitions (Spec cluster) /\
      clusters w' =
        <[metaKey (ClusterMeta cluster) :=
            {| ReadyPartitions := Partitions (Spec cluster) |}]> (clusters w))) /\
    (ReadyPartitions (Status cluster') <> ReadyPartitions (Status cluster) \/
     clusters w' <> clusters w ->
     ReadyPartitions (Status cluster') = Partitions (Spec cluster) /\
     exists clusterID,
       GetClusterIDFromClusterAnnotations cluster = inr clusterID /\
       (1 <= clusterID ->
        Partitions (Spec cluster) * clusterID < Int32.max_int ->
        forall j,
          Partitions (Spec cluster) * (clusterID - 1) + 1 <= j
            <= Partitions (Spec cluster) * clusterID ->
          readyIn w' (GetPartitionNamespacedName cluster j)))).
  { intros -> (_ & _ & _ & Hcl & Hdom & Hkeep & _).
    split; [done|]. split; [done|]. split; [lia|]. split; [by left|].
    intros [Hne|Hne]; done. }
  destruct g as [e|dep].
  { destruct Hcase as [-> ->]. by apply Hquiet. }
  destruct (trigger cluster dep) eqn:Hguard.
  2:{ destruct Hcase as (_ & -> & ->). by apply Hquiet. }
  destruct (GetClusterIDFromClusterAnnotations cluster) as [e|clusterID] eqn:Hid.
  { destruct Hcase as (_ & -> & ->). by apply Hquiet. }
  destruct Hcase as [(e & Hloop & _ & ->)|(w2 & Hloop & -> & Hupd)].
  - unfold readinessLoop in Hloop. apply forLoop_loopRun in Hloop as (l & Hrun & _).
    apply readiness_run_loopStep in Hrun.
    apply Hquiet; [done|]. by eapply loopStep_trans.
  - unfold readinessLoop in Hloop.
    apply forLoop_loopRun in Hloop as (l & Hrun & _).
    pose proof (readiness_run_loopStep _ _ _ _ _ _ _ Hrun) as Hstep.
    pose proof (loopStep_trans _ _ _ Hstart Hstep)
      as (_ & _ & _ & Hcl & Hdom & Hkeep & _).
    assert (Hlt : ReadyPartitions (Status cluster) < Partitions (Spec cluster)).
    { unfold trigger in Hguard. apply andb_true_iff in Hguard as [Hlt _].
      by apply Z.ltb_lt in Hlt. }
    apply updateClusterStatus_inv in Hupd as (_ & _ & _ & Hparts & _ & _ & Hres).
    unfold readyIn. rewrite Hparts.
    split; [done|]. split; [done|]. split; [simpl; lia|].
    split.
    { destruct r as [err|].
      - destruct Hres as [-> _]. by left.
      - destruct Hres as (_ & _ & ->). right. by rewrite Hcl. }
    intros _. split; [done|].
    exists clusterID. split; [done|]. intros Hc Hpc j Hj.
    assert (Hp : 1 <= Partitions (Spec cluster)) by nia.
    rewrite firstPartition_exact, lastPartition_exact in Hrun by done.
    pose proof (loopRun_visits _ _ _ _ _ _ _ Hrun) as [_ Hall];
      [done|unfold Int32.min_int; nia|].
    apply (readiness_run_ready _ _ _ _ _ _ _ Hrun l 0); [by right|].
    rewrite (Hall eq_refl). apply elem_of_seqZ. lia.
Qed.

End Monotone.

(** ** A Partition that was not found *)

Section NotFound.
Context `{Externals}.

(** A Partition that is found and not ready is marked ready, and the new
    status is persisted. *)
Lemma statusLoopBody_marks_ready cluster partitionID w :
  faults w = [] ->
  (GetPartitionNamespacedName cluster partitionID).2 <> EmptyString ->
  partitions w !! GetPartitionNamespacedName cluster partitionID
    = Some {| Ready := false |} ->
  exists w',
    statusLoopBody cluster partitionID w = (None, w') /\
    partitions w' =
      <[GetPartitionNamespacedName cluster partitionID := {| Ready := true |}]>
        (partitions w).
Proof.
  intros Hfs Hname Hlook. unfold statusLoopBody.
  rewrite (getPartition_found _ w {| Ready := false |}) by done. simpl.
  destruct (GetPartitionNamespacedName cluster partitionID) as [ns nm] eqn:Hn.
  unfold updatePartitionStatus, updateStatus, request. simpl in *.
  case_decide; [done|]. rewrite Hfs. unfold metaKey. simpl. rewrite Hlook.
  eexists. split; reflexivity.
Qed.

(** A Partition that is not found is not skipped: the body goes on with
    the zero Partition, sets it ready and sends its status update, which
    is refused, and that error ends the pass. *)
Lemma statusLoopBody_not_found cluster partitionID w :
  faults w = [] ->
  partitions w !! GetPartitionNamespacedName cluster partitionID = None ->
  statusLoopBody cluster partitionID w =
    (Some EmptyResourceName,
     record (UpdatePartitionStatus (setReady true zeroPartition))
            (record (GetPartition (GetPartitionNamespacedName cluster partitionID)) w)).
Proof.
  intros Hfs Hlook. unfold statusLoopBody.
  by rewrite (getPartition_missing _ _ Hfs Hlook).
Qed.

End NotFound.

(** C2, on the code: with one partition per shard, shard 1, the
    Deployment fully ready and the Partition of ordinal 1 not created,
    the pass does not skip the ordinal.  It sends a status update for a
    Partition without name or namespace, set ready, and returns the error
    of that update; the Cluster status is left unwritten. *)
Theorem not_found_partition_is_written :
  partitions Fixture.wMissing !! ("default", "raft-1")%string = None /\
  reconcileStatus (H := Fixture.externals) 2 Fixture.c11 Fixture.storage
    Fixture.wMissing =
  Return (Some EmptyResourceName, Fixture.c11,
          record (UpdatePartitionStatus
                    {| PartitionMeta := zeroMeta; PStatus := {| Ready := true |} |})
            (record (GetPartition ("default", "raft-1")%string)
               (record (GetDeployment ("default", "raft")%string)
                  Fixture.wMissing))) /\
  writes
    (record (UpdatePartitionStatus
               {| PartitionMeta := zeroMeta; PStatus := {| Ready := true |} |})
       (record (GetPartition ("default", "raft-1")%string)
          (record (GetDeployment ("default", "raft")%string)
             Fixture.wMissing))) =
  [ UpdatePartitionStatus
      {| PartitionMeta := zeroMeta; PStatus := {| Ready := true |} |} ].
Proof.
  split; [by vm_compute|]. split; [vm_compute; reflexivity|reflexivity].
Qed.

(** C8, as amended: for a partition count P >= 1 and a shard
    identifier C >= 1 with P * C below the largest [int32], when the guard
    holds, no client call fails, the Cluster is on the server and every
    Partition with an ordinal in [(P * (C-1)) + 1, P * C] is already
    ready, the pass returns, writes no Partition and still assigns and
    persists ReadyPartitions = Spec.Partitions, by the one write of the
    pass.  With Spec.Partitions = 3 and shard 2 the owned ordinals are 4,
    5 and 6, and the pass that marks the three Partitions ready leaves
    ReadyPartitions at 3. *)
Theorem all_ready_still_persists :
  (forall (H : Externals) fuel cluster storage w dep clusterID,
     faults w = [] ->
     deployments w !! (Namespace (ClusterMeta cluster), Name (ClusterMeta cluster))
       = Some dep ->
     trigger cluster dep = true ->
     GetClusterIDFromClusterAnnotations cluster = inr clusterID ->
     1 <= Partitions (Spec cluster) -> 1 <= clusterID ->
     Partitions (Spec cluster) * clusterID < Int32.max_int ->
     (Z.to_nat (Partitions (Spec cluster)) < fuel)%nat ->
     (forall j,
        Partitions (Spec cluster) * (clusterID - 1) + 1 <= j
          <= Partitions (Spec cluster) * clusterID ->
        readyIn w (GetPartitionNamespacedName cluster j)) ->
     Name (ClusterMeta cluster) <> EmptyString ->
     is_Some (clusters w !! metaKey (ClusterMeta cluster)) ->
     exists w',
       reconcileStatus fuel cluster storage w =
         Return (None, setReadyPartitions (Partitions (Spec cluster)) cluster, w') /\
       partitions w' = partitions w /\
       writes w' =
         UpdateClusterStatus (setReadyPartitions (Partitions (Spec cluster)) cluster)
         :: writes w /\
       clusters w' !! metaKey (ClusterMeta cluster) =
         Some {| ReadyPartitions := Partitions (Spec cluster) |}) /\
  ownedOrdinals 4 3 2 = Return [4; 5; 6] /\
  exists cluster' w',
    reconcileStatus (H := Fixture.externals) 4 Fixture.c32 Fixture.storage
      Fixture.wFresh = Return (None, cluster', w') /\
    ReadyPartitions (Status cluster') = 3 /\
    clusters w' !! Fixture.name = Some {| ReadyPartitions := 3 |} /\
    readyIn w' ("default", "raft-4")%string /\
    readyIn w' ("default", "raft-5")%string /\
    readyIn w' ("default", "raft-6")%string.
Proof.
  split.
  { intros H fuel cluster storage w dep clusterID
      Hfs Hdep Hguard Hid Hp Hc Hpc Hfuel Hready Hname Hstored.
    apply (all_ready_advances fuel cluster storage w dep clusterID
             (seqZ (Partitions (Spec cluster) * (clusterID - 1) + 1)
                   (Partitions (Spec cluster)))); try done.
    - by apply ownedOrdinals_exact.
    - intros j Hj. apply Hready. apply elem_of_seqZ in Hj. lia. }
  split; [reflexivity|].
  exists (setReadyPartitions 3 Fixture.c32).
  exists (Fixture.finalWorld Fixture.wFresh
            (match reconcileStatus (H := Fixture.externals) 4 Fixture.c32
                     Fixture.storage Fixture.wFresh with
             | Return (e, c, w) => Return ((e, c), w)
             | Panic m => Panic m
             | OutOfFuel => OutOfFuel
             end)).
  do 5 (split; [vm_compute; reflexivity|]). vm_compute; reflexivity.
Qed.

(** * The statements at concrete inputs *)

Lemma all_ready_still_persists_witness :
  exists w',
    reconcileStatus (H := Fixture.externals) 4 Fixture.c32 Fixture.storage
      Fixture.wReady
      = Return (None, setReadyPartitions 3 Fixture.c32, w') /\
    partitions w' = partitions Fixture.wReady.
Proof.
  destruct (proj1 all_ready_still_persists Fixture.externals 4%nat Fixture.c32
              Fixture.storage Fixture.wReady (Fixture.deployment 1 1) 2)
    as (w' & Hpass & Hparts & _).
  - reflexivity.
  - vm_compute. reflexivity.
  - reflexivity.
  - reflexivity.
  - simpl. lia.
  - lia.
  - reflexivity.
  - simpl. lia.
  - intros j Hj. simpl in Hj. unfold readyIn.
    assert (Hcases : j = 4 \/ j = 5 \/ j = 6) by lia.
    destruct Hcases as [->|[->| ->]]; vm_compute; reflexivity.
  - discriminate.
  - vm_compute. eexists. reflexivity.
  - exists w'. split; [exact Hpass|exact Hparts].
Defined.

(** C8 as stated fails where the last owned ordinal is the largest
    [int32]: with one partition per shard and shard 2147483647 the guard
    holds and the one owned Partition is ready, yet the loop counter
    cannot pass its bound.  The pass goes on from the smallest [int32],
    issues a Partition status update and returns an error; the Cluster
    status is not persisted. *)
Lemma all_ready_overflow_counterexample :
  trigger Scenario.cLast (Fixture.deployment 1 1) = true /\
  (forall j, 1 * (2147483647 - 1) + 1 <= j <= 1 * 2147483647 ->
     readyIn Scenario.wLast (GetPartitionNamespacedName (Externals := Fixture.externals)
                               Scenario.cLast j)) /\
  exists w',
    reconcileStatus (H := Fixture.externals) 3 Scenario.cLast Fixture.storage
      Scenario.wLast = Return (Some EmptyResourceName, Scenario.cLast, w') /\
    clusters w' !! Fixture.name = Some {| ReadyPartitions := 0 |} /\
    writes w' = [ UpdatePartitionStatus (setReady true zeroPartition) ].
Proof.
  split; [reflexivity|]. split.
  { intros j Hj. assert (j = 2147483647) as -> by lia. vm_compute. reflexivity. }
  exists (Fixture.finalWorld Scenario.wLast
            (match reconcileStatus (H := Fixture.externals) 3 Scenario.cLast
                     Fixture.storage Scenario.wLast with
             | Return (e, c, w) => Return ((e, c), w)
             | Panic m => Panic m
             | OutOfFuel => OutOfFuel
             end)).
  split; [vm_compute; reflexivity|]. split; vm_compute; reflexivity.
Qed.

Lemma readiness_guard_no_write_witness :
  exists e w',
    reconcileStatus (H := Fixture.externals) 0 Fixture.c32 Fixture.storage
      Fixture.wRolling = Return (e, Fixture.c32, w') /\
    noWrite Fixture.wRolling w'.
Proof.
  apply readiness_guard_no_write. intros dep Hdep. left.
  vm_compute in Hdep. injection Hdep as <-. simpl. lia.
Defined.

Lemma readiness_pass_idempotent_witness :
  exists cluster' w' e w'',
    reconcileStatus (H := Fixture.externals) 4 Fixture.c32 Fixture.storage
      Fixture.wFresh = Return (None, cluster', w') /\
    reconcileStatus (H := Fixture.externals) 4 cluster' Fixture.storage
      (setFaults [] w') = Return (e, cluster', w'') /\
    noWrite w' w''.
Proof.
  set (w' := Fixture.finalWorld Fixture.wFresh
            (match reconcileStatus (H := Fixture.externals) 4 Fixture.c32
                     Fixture.storage Fixture.wFresh with
             | Return (e, c, w) => Return ((e, c), w)
             | Panic m => Panic m
             | OutOfFuel => OutOfFuel
             end)).
  assert (Hfirst : reconcileStatus (H := Fixture.externals) 4 Fixture.c32
                     Fixture.storage Fixture.wFresh
                   = Return (None, setReadyPartitions 3 Fixture.c32, w'))
    by (vm_compute; reflexivity).
  destruct (readiness_pass_idempotent 4 Fixture.c32 Fixture.storage Fixture.wFresh
              _ _ Hfirst 4%nat []) as (e & w'' & Hsecond & Hnw & _).
  exists (setReadyPartitions 3 Fixture.c32), w', e, w''.
  split; [exact Hfirst|]. split; [exact Hsecond|exact Hnw].
Defined.

Lemma readiness_monotone_witness :
  (exists r cluster' w',
     reconcileStatus (H := Fixture.externals) 4 Fixture.c32 Fixture.storage
       Fixture.wFresh = Return (r, cluster', w') /\
     ReadyPartitions (Status Fixture.c32) <= ReadyPartitions (Status cluster') /\
     (forall n, readyIn Fixture.wFresh n -> readyIn w' n) /\
     readyIn w' ("default", "raft-5")%string) /\
  (exists r w',
     reconcileStatus (H := Fixture.externals) 4 Fixture.c32 Fixture.storage
       Fixture.wReady = Return (r, setReadyPartitions 3 Fixture.c32, w') /\
     partitions w' = partitions Fixture.wReady /\
     r = None).
Proof.
  split.
  - set (w' := Fixture.finalWorld Fixture.wFresh
              (match reconcileStatus (H := Fixture.externals) 4 Fixture.c32
                       Fixture.storage Fixture.wFresh with
               | Return (e, c, w) => Return ((e, c), w)
               | Panic m => Panic m
               | OutOfFuel => OutOfFuel
               end)).
    assert (Hpass : reconcileStatus (H := Fixture.externals) 4 Fixture.c32
                      Fixture.storage Fixture.wFresh
                    = Return (None, setReadyPartitions 3 Fixture.c32, w'))
      by (vm_compute; reflexivity).
    destruct (proj1 (readiness_monotone 4 Fixture.c32 Fixture.storage Fixture.wFresh)
                _ _ _ Hpass) as (Hkeep & _ & Hle & _ & Hreach).
    destruct Hreach as [_ (clusterID & Hid & Hready)]; [left; simpl; lia|].
    vm_compute in Hid. injection Hid as <-.
    exists None, (setReadyPartitions 3 Fixture.c32), w'.
    split; [exact Hpass|]. split; [exact Hle|]. split; [exact Hkeep|].
    apply (Hready ltac:(lia) ltac:(reflexivity) 5). simpl. lia.
  - destruct (proj1 (proj2 (readiness_monotone (H := Fixture.externals) 4
                               Fixture.c32 Fixture.storage Fixture.wReady))
               (Fixture.deployment 1 1) 2) as (r & w' & Hpass & Hparts & Hstored).
    + reflexivity.
    + vm_compute. reflexivity.
    + reflexivity.
    + reflexivity.
    + simpl. lia.
    + lia.
    + reflexivity.
    + simpl. lia.
    + intros j Hj. simpl in Hj. unfold readyIn.
      assert (Hcases : j = 4 \/ j = 5 \/ j = 6) by lia.
      destruct Hcases as [->|[->| ->]]; vm_compute; reflexivity.
    + exists r, w'. split; [exact Hpass|]. split; [exact Hparts|].
      apply Hstored; [discriminate|vm_compute; eexists; reflexivity].
Defined.

(** C6 as stated fails where P * C leaves the [int32] range: with
    P = 65536 and shard 32768 the upper bound of the loop wraps to the
    smallest [int32] and no Partition is read.  The Partition of ordinal
    2147418113, the first of the shard's range, is not ready before or
    after the pass, and the pass has persisted ReadyPartitions = 65536. *)
Lemma readiness_monotone_overflow_counterexample :
  65536 * (32768 - 1) + 1 <= 2147418113 <= 65536 * 32768 /\
  GetPartitionNamespacedName (Externals := Fixture.externals) Scenario.cWide 2147418113
    = ("default", "raft-2147418113")%string /\
  partitions Scenario.wWide !! ("default", "raft-2147418113")%string
    = Some {| Ready := false |} /\
  exists w',
    reconcileStatus (H := Fixture.externals) 1 Scenario.cWide Fixture.storage
      Scenario.wWide
      = Return (None, setReadyPartitions 65536 Scenario.cWide, w') /\
    clusters w' !! Fixture.name = Some {| ReadyPartitions := 65536 |} /\
    partitions w' !! ("default", "raft-2147418113")%string
      = Some {| Ready := false |} /\
    calls w' = [ UpdateClusterStatus (setReadyPartitions 65536 Scenario.cWide);
                 GetDeployment Fixture.name ].
Proof.
  split; [lia|]. split; [vm_compute; reflexivity|].
  split; [vm_compute; reflexivity|].
  exists (Fixture.finalWorld Scenario.wWide
            (match reconcileStatus (H := Fixture.externals) 1 Scenario.cWide
                     Fixture.storage Scenario.wWide with
             | Return (e, c, w) => Return ((e, c), w)
             | Panic m => Panic m
             | OutOfFuel => OutOfFuel
             end)).
  split; [vm_compute; reflexivity|]. split; [vm_compute; reflexivity|].
  split; vm_compute; reflexivity.
Qed.


Lemma missing_shard_annotation_no_write_witness :
  Annotations (ClusterMeta Fixture.cNoShard) !! clusterAnnotation = None /\
  (exists e w',
     reconcileStatus (H := Fixture.externals) 0 Fixture.cNoShard Fixture.storage
       Fixture.wNoShard = Return (Some e, Fixture.cNoShard, w') /\
     kindOf e = ConfigurationError) /\
  reconcileStatus (H := Fixture.externals) 0 Fixture.cNoShard Fixture.storage
    Fixture.wNoShardRolling
    = Return (None, Fixture.cNoShard,
              (getDeployment Fixture.name Fixture.wNoShardRolling).2) /\
  reconcileStatus (H := Fixture.externals) 0 Fixture.cNoShard Fixture.storage
    (setFaults [Some 7%nat] Fixture.wNoShard)
    = Return (Some (ClientFailure 7), Fixture.cNoShard,
              (getDeployment Fixture.name
                 (setFaults [Some 7%nat] Fixture.wNoShard)).2).
Proof.
  assert (Hann : Annotations (ClusterMeta Fixture.cNoShard) !! clusterAnnotation = None)
    by reflexivity.
  split; [exact Hann|]. split; [|split].
  - destruct (missing_shard_annotation_no_write (H := Fixture.externals) 0
                Fixture.cNoShard Fixture.storage Fixture.wNoShard (or_introl Hann))
      as (_ & Hfail & _).
    destruct (Hfail (Fixture.deployment 1 1)
                (getDeployment Fixture.name Fixture.wNoShard).2)
      as (e & _ & Hpass & Hkind); [vm_compute; reflexivity|reflexivity|].
    by exists e, (getDeployment Fixture.name Fixture.wNoShard).2.
  - destruct (missing_shard_annotation_no_write (H := Fixture.externals) 0
                Fixture.cNoShard Fixture.storage Fixture.wNoShardRolling
                (or_introl Hann)) as (_ & _ & Hquiet & _).
    apply (Hquiet (Fixture.deployment 2 1)); [vm_compute; reflexivity|reflexivity].
  - destruct (missing_shard_annotation_no_write (H := Fixture.externals) 0
                Fixture.cNoShard Fixture.storage
                (setFaults [Some 7%nat] Fixture.wNoShard)
                (or_introl Hann)) as (_ & _ & _ & Hread & _).
    destruct (Hread (ClientFailure 7)
                (getDeployment Fixture.name
                   (setFaults [Some 7%nat] Fixture.wNoShard)).2) as [Hpass _];
      [vm_compute; reflexivity|exact Hpass].
Defined.

(** C7 as stated fails where the guard of the pass is false: with one of
    two replicas ready the pass returns without error although the
    Cluster has no shard annotation. *)
Lemma missing_shard_annotation_counterexample :
  Annotations (ClusterMeta Fixture.cNoShard) !! clusterAnnotation = None /\
  ReadyReplicas (DStatus (Fixture.deployment 2 1))
    <> Replicas (DStatus (Fixture.deployment 2 1)) /\
  reconcileStatus (H := Fixture.externals) 1 Fixture.cNoShard Fixture.storage
    Fixture.wNoShardRolling
  = Return (None, Fixture.cNoShard,
            record (GetDeployment Fixture.name) Fixture.wNoShardRolling).
Proof.
  split; [reflexivity|]. split; [simpl; lia|]. vm_compute. reflexivity.
Qed.

Lemma newClusterConfig_database_optional_witness :
  Annotations (ClusterMeta Fixture.c32) !! databaseAnnotation = None /\
  exists config,
    newClusterConfig (H := Fixture.externals) 4 Fixture.c32 = Return (inr config) /\
    api.Partition <$> api.Partitions config = [4; 5; 6] /\
    Forall (fun p => api.Name (api.DatabaseID (api.Cluster p)) = EmptyString)
           (api.Partitions config).
Proof.
  assert (Hdb : Annotations (ClusterMeta Fixture.c32) !! databaseAnnotation = None)
    by reflexivity.
  split; [exact Hdb|].
  destruct (newClusterConfig_database_optional (H := Fixture.externals)
              Fixture.c32) as [_ Hnumeric].
  destruct (Hnumeric "2"%string 2) as [_ Hbuild]; [reflexivity|reflexivity|].
  destruct (Hbuild ltac:(simpl; lia) ltac:(vm_compute; discriminate) 4%nat)
    as (config & Hcfg & Hords & Hnames); [vm_compute; lia|].
  exists config. split; [exact Hcfg|]. split; [exact Hords|exact (Hnames Hdb)].
Defined.

(** C9 as stated fails on a Cluster that carries the shard annotation and
    no database annotation: the configuration is built, and its partition
    names the database by the empty string. *)
Lemma newClusterConfig_no_database_counterexample :
  Annotations (ClusterMeta Fixture.c11) !! databaseAnnotation = None /\
  newClusterConfig (H := Fixture.externals) 2 Fixture.c11 =
  Return (inr
    {| api.Members :=
         [ {| api.ID := "raft"; api.Host := "default.raft.svc.cluster.local";
              api.ProtocolPort := 5678; api.APIPort := 5678 |} ];
       api.Partitions :=
         [ {| api.Partition := 1;
              api.Cluster :=
                {| api.ClusterID := 1;
                   api.DatabaseID :=
                     {| api.Name := EmptyString; api.Namespace := "default" |} |} |} ]
    |}).
Proof. split; reflexivity. Qed.

Lemma get_or_create_keeps_existing_witness :
  reconcileConfigMap (H := Fixture.externals) 0 Fixture.c32 Fixture.storage
    Fixture.wExisting
    = Return (None, record (GetConfigMap Fixture.name) Fixture.wExisting) /\
  reconcileDeployment (H := Fixture.externals) Fixture.c32 Fixture.storage
    Fixture.wExisting
    = (None, record (GetDeployment Fixture.name) Fixture.wExisting) /\
  reconcileService (H := Fixture.externals) Fixture.c32 Fixture.storage
    Fixture.wExisting
    = (None, record (GetService Fixture.name) Fixture.wExisting).
Proof.
  destruct (get_or_create_keeps_existing (H := Fixture.externals) 0 Fixture.c32
              Fixture.storage Fixture.wExisting) as (Hcm & Hdep & Hsvc).
  split; [|split].
  - eapply Hcm. vm_compute. reflexivity.
  - eapply Hdep. vm_compute. reflexivity.
  - eapply Hsvc. vm_compute. reflexivity.
Defined.

(** ** The ownership range *)

(** C1, as amended: for a partition count P >= 1 and a shard identifier
    C >= 1 whose product P * C stays below the largest [int32], the loop
    of the readiness pass and of the configuration builder visits exactly
    the contiguous range [(P * (C-1)) + 1, P * C]; the range has P elements
    and shares no ordinal with the range of another such shard identifier
    for the same P.  The configuration lists these ordinals, and a
    readiness loop that meets no error runs its body on each of them. *)
Theorem owned_range_contiguous_disjoint (p c : Z) (fuel : nat) :
  1 <= p -> 1 <= c -> p * c < Int32.max_int -> (Z.to_nat p < fuel)%nat ->
  ownedOrdinals fuel p c = Return (seqZ (p * (c - 1) + 1) p) /\
  length (seqZ (p * (c - 1) + 1) p) = Z.to_nat p /\
  (forall k, k ∈ seqZ (p * (c - 1) + 1) p <-> p * (c - 1) + 1 <= k <= p * c) /\
  (forall c', 1 <= c' -> c' <> c -> p * c' < Int32.max_int ->
     exists l', ownedOrdinals fuel p c' = Return l' /\
                forall k, k ∈ seqZ (p * (c - 1) + 1) p -> k ∉ l') /\
  (forall (H : Externals) cluster idstr id,
     Partitions (Spec cluster) = p ->
     Annotations (ClusterMeta cluster) !! clusterAnnotation = Some idstr ->
     ParseInt idstr 0 32 = inr id -> Int32.wrap32 id = c ->
     exists config,
       newClusterConfig fuel cluster = Return (inr config) /\
       api.Partition <$> api.Partitions config = seqZ (p * (c - 1) + 1) p) /\
  (forall (H : Externals) cluster w r w',
     Partitions (Spec cluster) = p ->
     readinessLoop fuel cluster c w = Return (r, w') ->
     exists l,
       loopRun (statusLoopBody cluster) (p * c) (p * (c - 1) + 1) w l r w' /\
       l `prefix_of` seqZ (p * (c - 1) + 1) p /\
       (r = None -> l = seqZ (p * (c - 1) + 1) p)).
Proof.
  intros Hp Hc Hpc Hfuel.
  split; [by apply ownedOrdinals_exact|].
  split; [apply length_seqZ|]. split; [|split; [|split]].
  - intros k. rewrite elem_of_seqZ. lia.
  - intros c' Hc' Hne Hpc'. exists (seqZ (p * (c' - 1) + 1) p).
    split; [by apply ownedOrdinals_exact|].
    intros k. rewrite !elem_of_seqZ. intros Hk Hk'.
    destruct (Z.lt_total c c') as [Hlt|[Heq|Hgt]]; [nia|done|nia].
  - intros H cluster idstr id <- Hann Hparse <-.
    rewrite (newClusterConfig_owned _ _ _ _ Hann Hparse) by lia.
    rewrite ownedOrdinals_exact by done.
    eexists. split; [done|]. simpl.
    rewrite <- list_fmap_compose. by rewrite list_fmap_id.
  - intros H cluster w r w' <- Hloop. unfold readinessLoop in Hloop.
    rewrite firstPartition_exact, lastPartition_exact in Hloop by done.
    apply forLoop_loopRun in Hloop as (l & Hrun & _).
    exists l. split; [done|].
    apply loopRun_visits in Hrun; [|done|unfold Int32.min_int; nia].
    by replace (Partitions (Spec cluster) * c
                - (Partitions (Spec cluster) * (c - 1) + 1) + 1)
      with (Partitions (Spec cluster)) in Hrun by lia.
Qed.

Lemma owned_range_contiguous_disjoint_witness :
  1 <= 3 /\ 1 <= 2 /\ 3 * 2 < Int32.max_int /\ (Z.to_nat 3 < 4)%nat /\
  ownedOrdinals 4 3 2 = Return [4; 5; 6].
Proof.
  assert (H1 : 1 <= 3) by lia. assert (H2 : 1 <= 2) by lia.
  assert (H3 : 3 * 2 < Int32.max_int) by reflexivity.
  assert (H4 : (Z.to_nat 3 < 4)%nat) by (simpl; lia).
  repeat (split; [assumption|]).
  exact (proj1 (owned_range_contiguous_disjoint 3 2 4 H1 H2 H3 H4)).
Defined.

(** C1 as stated fails where P * C leaves the [int32] range: with
    P = 65536 and C = 32768 the upper bound wraps to the smallest [int32],
    the loop visits no ordinal at all, and the configuration of such a
    Cluster lists no partition. *)
Lemma owned_range_overflow_counterexample :
  1 <= 65536 /\ 1 <= 32768 /\
  firstPartition 65536 32768 = 2147418113 /\
  lastPartition 65536 32768 = -2147483648 /\
  ownedOrdinals 1 65536 32768 = Return [] /\
  Z.of_nat (length ([] : list Z)) <> 65536 /\
  newClusterConfig (H := Fixture.externals) 1
    (Fixture.cluster 65536 0 (Fixture.shard "32768")) =
  Return (inr
    {| api.Members :=
         [ {| api.ID := "raft"; api.Host := "default.raft.svc.cluster.local";
              api.ProtocolPort := 5678; api.APIPort := 5678 |} ];
       api.Partitions := [] |}).
Proof.
  split; [lia|]. split; [lia|].
  split; [reflexivity|]. split; [reflexivity|]. split; [reflexivity|].
  split; [simpl; lia|]. vm_compute. reflexivity.
Qed.

(** * Further properties of the reconciler *)

(** ** The ordinals of a shard *)

Lemma firstPartition_range p c : Int32.in_range (firstPartition p c).
Proof. apply wrap32_range. Qed.

Lemma lastPartition_range p c : Int32.in_range (lastPartition p c).
Proof. apply wrap32_range. Qed.

(** Whenever the loop over the ordinals ends, its upper bound is below the
    largest [int32] and it has visited the whole range, in order. *)
Lemma ownedOrdinals_range fuel p c l :
  ownedOrdinals fuel p c = Return l ->
  lastPartition p c < Int32.max_int /\
  l = seqZ (firstPartition p c) (lastPartition p c - firstPartition p c + 1).
Proof.
  intros Howned. apply ownedOrdinals_loopRun in Howned as [Hrun Hlen].
  pose proof (firstPartition_range p c) as Hlo.
  pose proof (lastPartition_range p c) as Hhi.
  assert (Hbound : lastPartition p c < Int32.max_int).
  { destruct (decide (lastPartition p c = Int32.max_int)) as [Heq|Hne].
    - rewrite Heq in Hrun.
      pose proof (loopRun_forLoop _ _ _ _ _ _ _ Hrun (S (length l))) as Hret.
      destruct (collect_loop_diverges (S (length l)) (firstPartition p c) [])
        as [Hout|Hout]; [|done].
      rewrite Hret in Hout; [done|lia].
    - unfold Int32.in_range in Hhi. lia. }
  split; [done|].
  apply loopRun_visits in Hrun as [_ Hall]; [|done|].
  - by apply Hall.
  - by destruct Hlo.
Qed.

(** X1: with a partition count P >= 1 and shards whose ranges stay below
    the largest [int32], the shard that owns an ordinal k is determined by
    k: shard C owns k exactly when k >= 1 and C = (k - 1) / P + 1. *)
Theorem ordinal_owner (p c k : Z) (fuel : nat) :
  1 <= p -> 1 <= c -> p * c < Int32.max_int -> (Z.to_nat p < fuel)%nat ->
  ((exists l, ownedOrdinals fuel p c = Return l /\ k ∈ l) <->
   (1 <= k /\ c = (k - 1) / p + 1)).
Proof.
  intros Hp Hc Hpc Hfuel. rewrite ownedOrdinals_exact by done.
  split.
  - intros (l & [= <-] & Hk). apply elem_of_seqZ in Hk.
    split; [nia|].
    assert ((k - 1) / p = c - 1); [|lia].
    symmetry. apply (Z.div_unique (k - 1) p (c - 1) (k - 1 - p * (c - 1))); lia.
  - intros [Hk ->]. eexists. split; [done|]. apply elem_of_seqZ.
    pose proof (Z.div_mod (k - 1) p ltac:(lia)) as Hdm.
    pose proof (Z.mod_pos_bound (k - 1) p ltac:(lia)) as Hmod.
    replace ((k - 1) / p + 1 - 1) with ((k - 1) / p) by lia. lia.
Qed.

Lemma ordinal_owner_witness :
  exists l, ownedOrdinals 4 3 2 = Return l /\ 5 ∈ l.
Proof.
  apply (ordinal_owner 3 2 5 4); [lia|lia|reflexivity|simpl; lia|].
  split; [lia|reflexivity].
Defined.

(** ** The cluster configuration, in full *)

Section ConfigShape.
Context `{Externals}.

(** X2: whenever the builder returns a configuration, the shard
    annotation is numeric, the partition count is not negative, and the
    configuration is determined: one member, named after the Cluster and
    hosted at [namespace.name.svc.cluster.local] on port 5678, and one
    partition for each ordinal from the first to the last of the shard,
    consecutive and in order, each carrying the shard identifier, the
    Cluster's namespace and the database annotation (the empty string
    when there is none).  The bounds are those the loop computes, wrapped
    or not. *)
Theorem newClusterConfig_shape fuel cluster config :
  newClusterConfig fuel cluster = Return (inr config) ->
  exists idstr id,
    Annotations (ClusterMeta cluster) !! clusterAnnotation = Some idstr /\
    ParseInt idstr 0 32 = inr id /\
    0 <= Partitions (Spec cluster) /\
    lastPartition (Partitions (Spec cluster)) (Int32.wrap32 id) < Int32.max_int /\
    config =
      {| api.Members :=
           [ {| api.ID := Name (ClusterMeta cluster);
                api.Host := Namespace (ClusterMeta cluster) +:+ "." +:+
                            Name (ClusterMeta cluster) +:+ ".svc.cluster.local";
                api.ProtocolPort := 5678; api.APIPort := 5678 |} ];
         api.Partitions :=
           partitionOf cluster
             (default EmptyString
                (Annotations (ClusterMeta cluster) !! databaseAnnotation))
             (Int32.wrap32 id)
           <$> seqZ (firstPartition (Partitions (Spec cluster)) (Int32.wrap32 id))
                    (lastPartition (Partitions (Spec cluster)) (Int32.wrap32 id)
                     - firstPartition (Partitions (Spec cluster)) (Int32.wrap32 id)
                     + 1) |}.
Proof.
  intros Hcfg.
  destruct (Annotations (ClusterMeta cluster) !! clusterAnnotation) as [idstr|] eqn:Hann;
    [|unfold newClusterConfig in Hcfg; by rewrite Hann in Hcfg].
  destruct (ParseInt idstr 0 32) as [err|id] eqn:Hparse;
    [unfold newClusterConfig in Hcfg; by rewrite Hann, Hparse in Hcfg|].
  assert (Hp : 0 <= Partitions (Spec cluster)).
  { unfold newClusterConfig in Hcfg. rewrite Hann, Hparse in Hcfg.
    destruct (Z.ltb_spec (Partitions (Spec cluster)) 0); [done|lia]. }
  exists idstr, id. do 3 (split; [done|]).
  rewrite (newClusterConfig_owned _ _ _ _ Hann Hparse Hp) in Hcfg.
  destruct (ownedOrdinals fuel _ _) as [l| |] eqn:Howned; try done.
  apply ownedOrdinals_range in Howned as [Hbound ->].
  split; [done|]. by inversion Hcfg.
Qed.

(** X3: with a numeric shard annotation and a partition count that is not
    negative, the builder fails to end exactly when the last ordinal of
    the shard is the largest [int32], which the loop counter cannot pass;
    otherwise it returns a configuration, one loop turn per ordinal. *)
Theorem newClusterConfig_ends_unless_max cluster idstr id :
  Annotations (ClusterMeta cluster) !! clusterAnnotation = Some idstr ->
  ParseInt idstr 0 32 = inr id ->
  0 <= Partitions (Spec cluster) ->
  (lastPartition (Partitions (Spec cluster)) (Int32.wrap32 id) = Int32.max_int ->
   forall fuel, newClusterConfig fuel cluster = OutOfFuel) /\
  (lastPartition (Partitions (Spec cluster)) (Int32.wrap32 id) <> Int32.max_int ->
   forall fuel,
     (Z.to_nat (lastPartition (Partitions (Spec cluster)) (Int32.wrap32 id)
                - firstPartition (Partitions (Spec cluster)) (Int32.wrap32 id) + 1)
      < fuel)%nat ->
     exists config, newClusterConfig fuel cluster = Return (inr config)).
Proof.
  intros Hann Hparse Hp.
  pose proof (firstPartition_range (Partitions (Spec cluster)) (Int32.wrap32 id)) as Hlo.
  pose proof (lastPartition_range (Partitions (Spec cluster)) (Int32.wrap32 id)) as Hhi.
  split.
  - intros Hmax fuel. rewrite (newClusterConfig_owned _ _ _ _ Hann Hparse Hp).
    unfold ownedOrdinals. rewrite Hmax.
    by destruct (collect_loop_diverges fuel
                   (firstPartition (Partitions (Spec cluster)) (Int32.wrap32 id)) [])
      as [->|Hout].
  - intros Hne fuel Hfuel. rewrite (newClusterConfig_owned _ _ _ _ Hann Hparse Hp).
    unfold ownedOrdinals.
    destruct (forLoop_terminates collect
                (Z.to_nat (lastPartition (Partitions (Spec cluster)) (Int32.wrap32 id)
                           - firstPartition (Partitions (Spec cluster)) (Int32.wrap32 id)
                           + 1)) fuel
                (firstPartition (Partitions (Spec cluster)) (Int32.wrap32 id))
                (lastPartition (Partitions (Spec cluster)) (Int32.wrap32 id)) [])
      as [[r l] ->]; [by destruct Hlo| | |exact Hfuel|by eexists].
    + unfold Int32.in_range in Hhi. lia.
    + lia.
Qed.

(** X4: a negative partition count is not reported as an error.  With a
    numeric shard annotation the builder panics when it sizes the slice
    of partitions, and so does the step that has to create the ConfigMap;
    a Cluster whose shard annotation is missing or not numeric gets its
    error first. *)
Theorem negative_partition_count_panics cluster :
  Partitions (Spec cluster) < 0 ->
  (forall idstr id,
     Annotations (ClusterMeta cluster) !! clusterAnnotation = Some idstr ->
     ParseInt idstr 0 32 = inr id ->
     (forall fuel,
        newClusterConfig fuel cluster = Panic "makeslice: cap out of range") /\
     (forall fuel storage w,
        faults w = [] ->
        configMaps w !! (Namespace (ClusterMeta cluster), Name (ClusterMeta cluster))
          = None ->
        reconcileConfigMap fuel cluster storage w
          = Panic "makeslice: cap out of range")) /\
  (Annotations (ClusterMeta cluster) !! clusterAnnotation = None ->
   forall fuel, newClusterConfig fuel cluster = Return (inl MissingClusterAnnotation)).
Proof.
  intros Hneg. split.
  - intros idstr id Hann Hparse.
    assert (Hpanic : forall fuel,
      newClusterConfig fuel cluster = Panic "makeslice: cap out of range").
    { intros fuel. unfold newClusterConfig. rewrite Hann, Hparse.
      by destruct (Z.ltb_spec (Partitions (Spec cluster)) 0); [|lia]. }
    split; [done|]. intros fuel storage w Hfs Hlook.
    unfold reconcileConfigMap, getConfigMap, get, request, record. simpl.
    rewrite Hfs. simpl. rewrite Hlook. simpl.
    unfold addConfigMap. by rewrite Hpanic.
  - intros Hann fuel. unfold newClusterConfig. by rewrite Hann.
Qed.

End ConfigShape.

Lemma newClusterConfig_shape_witness :
  exists config,
    newClusterConfig (H := Fixture.externals) 4 Fixture.c32 = Return (inr config) /\
    api.Partition <$> api.Partitions config = [4; 5; 6].
Proof.
  set (config :=
    match newClusterConfig (H := Fixture.externals) 4 Fixture.c32 with
    | Return (inr c) => c
    | _ => {| api.Members := []; api.Partitions := [] |}
    end).
  assert (Hcfg : newClusterConfig (H := Fixture.externals) 4 Fixture.c32
                 = Return (inr config)) by (vm_compute; reflexivity).
  exists config. split; [exact Hcfg|].
  destruct (newClusterConfig_shape (H := Fixture.externals) 4 Fixture.c32 config Hcfg)
    as (idstr & id & Hann & Hparse & _ & _ & Hshape).
  rewrite Hshape. simpl. rewrite <- list_fmap_compose, list_fmap_id.
  vm_compute in Hann. injection Hann as <-.
  vm_compute in Hparse. injection Hparse as <-. reflexivity.
Defined.

Lemma newClusterConfig_ends_unless_max_witness :
  (forall fuel,
     newClusterConfig (H := Fixture.externals) fuel
       (Fixture.cluster 1 0 (Fixture.shard "2147483647")) = OutOfFuel) /\
  exists config,
    newClusterConfig (H := Fixture.externals) 4 Fixture.c32 = Return (inr config).
Proof.
  split.
  - refine (proj1 (newClusterConfig_ends_unless_max (H := Fixture.externals)
                     (Fixture.cluster 1 0 (Fixture.shard "2147483647"))
                     "2147483647" 2147483647 _ _ _) _);
      [vm_compute; reflexivity|vm_compute; reflexivity|simpl; lia|reflexivity].
  - refine (proj2 (newClusterConfig_ends_unless_max (H := Fixture.externals)
                     Fixture.c32 "2" 2 _ _ _) _ 4%nat _);
      [vm_compute; reflexivity|vm_compute; reflexivity|simpl; lia
      |vm_compute; discriminate|vm_compute; lia].
Defined.

Lemma negative_partition_count_panics_witness :
  Partitions (Spec Scenario.cNegative) < 0 /\
  reconcileConfigMap (H := Fixture.externals) 1 Scenario.cNegative Fixture.storage
    Scenario.wEmptyWorld = Panic "makeslice: cap out of range".
Proof.
  assert (Hneg : Partitions (Spec Scenario.cNegative) < 0) by (simpl; lia).
  split; [exact Hneg|].
  refine (proj2 (proj1 (negative_partition_count_panics (H := Fixture.externals)
                          Scenario.cNegative Hneg) "1"%string 1 _ _)
                1%nat Fixture.storage Scenario.wEmptyWorld _ _);
    vm_compute; reflexivity.
Defined.

(** ** Creating what is missing *)

Lemma createConfigMap_inv cm w e w' :
  createConfigMap cm w = (e, w') ->
  deployments w' = deployments w /\ services w' = services w /\
  partitions w' = partitions w /\ clusters w' = clusters w /\
  calls w' = CreateConfigMap cm :: calls w /\
  (faults w = [] -> faults w' = []) /\
  match e with
  | None => Name (ConfigMapMeta cm) <> EmptyString /\
            configMaps w !! metaKey (ConfigMapMeta cm) = None /\
            configMaps w' = <[metaKey (ConfigMapMeta cm) := cm]> (configMaps w)
  | Some err => configMaps w' = configMaps w /\
                createFailure (configMaps w) (ConfigMapMeta cm) (faults w) err
  end.
Proof.
  unfold createConfigMap, create, createFailure. case_decide as Hname.
  { intros [= <- <-]. simpl. tauto. }
  destruct (request _) as [f w0] eqn:Hreq.
  pose proof (request_inv _ _ _ Hreq) as (H1 & H2 & H3 & H4 & H5 & H6 & H7).
  pose proof (request_faults _ _ _ Hreq) as Hfs. simpl in *.
  destruct f as [err|].
  - intros [= <- <-]. do 6 (split; [done|]). split; [done|].
    right; left. split; [by eapply request_failure|].
    intros Hnil. by specialize (H7 Hnil).
  - replace (configMaps w0) with (configMaps w) by done.
    destruct (configMaps w !! metaKey (ConfigMapMeta cm)) as [o|] eqn:Hlook;
      intros [= <- <-]; simpl; do 6 (split; [done|]).
    + split; [done|]. right; right. split; [done|by eexists].
    + done.
Qed.

Lemma createDeployment_inv dep w e w' :
  createDeployment dep w = (e, w') ->
  configMaps w' = configMaps w /\ services w' = services w /\
  partitions w' = partitions w /\ clusters w' = clusters w /\
  calls w' = CreateDeployment dep :: calls w /\
  (faults w = [] -> faults w' = []) /\
  match e with
  | None => Name (DeploymentMeta dep) <> EmptyString /\
            deployments w !! metaKey (DeploymentMeta dep) = None /\
            deployments w' = <[metaKey (DeploymentMeta dep) := dep]> (deployments w)
  | Some err => deployments w' = deployments w /\
                createFailure (deployments w) (DeploymentMeta dep) (faults w) err
  end.
Proof.
  unfold createDeployment, create, createFailure. case_decide as Hname.
  { intros [= <- <-]. simpl. tauto. }
  destruct (request _) as [f w0] eqn:Hreq.
  pose proof (request_inv _ _ _ Hreq) as (H1 & H2 & H3 & H4 & H5 & H6 & H7).
  pose proof (request_faults _ _ _ Hreq) as Hfs. simpl in *.
  destruct f as [err|].
  - intros [= <- <-]. do 6 (split; [done|]). split; [done|].
    right; left. split; [by eapply request_failure|].
    intros Hnil. by specialize (H7 Hnil).
  - replace (deployments w0) with (deployments w) by done.
    destruct (deployments w !! metaKey (DeploymentMeta dep)) as [o|] eqn:Hlook;
      intros [= <- <-]; simpl; do 6 (split; [done|]).
    + split; [done|]. right; right. split; [done|by eexists].
    + done.
Qed.

Lemma createService_inv service w e w' :
  createService service w = (e, w') ->
  configMaps w' = configMaps w /\ deployments w' = deployments w /\
  partitions w' = partitions w /\ clusters w' = clusters w /\
  calls w' = CreateService service :: calls w /\
  (faults w = [] -> faults w' = []) /\
  match e with
  | None => Name (ServiceMeta service) <> EmptyString /\
            services w !! metaKey (ServiceMeta service) = None /\
            services w' = <[metaKey (ServiceMeta service) := service]> (services w)
  | Some err => services w' = services w /\
                createFailure (services w) (ServiceMeta service) (faults w) err
  end.
Proof.
  unfold createService, create, createFailure. case_decide as Hname.
  { intros [= <- <-]. simpl. tauto. }
  destruct (request _) as [f w0] eqn:Hreq.
  pose proof (request_inv _ _ _ Hreq) as (H1 & H2 & H3 & H4 & H5 & H6 & H7).
  pose proof (request_faults _ _ _ Hreq) as Hfs. simpl in *.
  destruct f as [err|].
  - intros [= <- <-]. do 6 (split; [done|]). split; [done|].
    right; left. split; [by eapply request_failure|].
    intros Hnil. by specialize (H7 Hnil).
  - replace (services w0) with (services w) by done.
    destruct (services w !! metaKey (ServiceMeta service)) as [o|] eqn:Hlook;
      intros [= <- <-]; simpl; do 6 (split; [done|]).
    + split; [done|]. right; right. split; [done|by eexists].
    + done.
Qed.

Lemma get_missing {A : Type} (c : Call) (store : World -> gmap NamespacedName A) n w :
  (forall c' w, store (record c' w) = store w) ->
  faults w = [] -> store w !! n = None ->
  get c store n w = (inl StatusNotFound, record c w).
Proof.
  intros Hrec Hfs Hlook. unfold get, request. simpl. rewrite Hfs.
  by rewrite Hrec, Hlook.
Qed.

Lemma create_fresh {A : Type} (c : Call) (store : World -> gmap NamespacedName A)
    (setStore : gmap NamespacedName A -> World -> World) m o w :
  (forall c' w, store (record c' w) = store w) ->
  faults w = [] -> Name m <> EmptyString -> store w !! metaKey m = None ->
  create c store setStore m o w =
    (None, setStore (<[metaKey m := o]> (store w)) (record c w)).
Proof.
  intros Hrec Hfs Hname Hlook. unfold create, request. simpl.
  case_decide; [done|]. rewrite Hfs. by rewrite Hrec, Hlook.
Qed.

Section Steps.
Context `{Externals}.

Lemma addConfigMap_inv fuel cluster storage w e w' :
  addConfigMap fuel cluster storage w = Return (e, w') ->
  (w' = w /\ e <> None) \/
  exists config data meta',
    newClusterConfig fuel cluster = Return (inr config) /\
    MarshalToString config = inr data /\
    SetControllerReference cluster
      (namedMeta (Namespace (ClusterMeta cluster)) (Name (ClusterMeta cluster)))
      = inr meta' /\
    createConfigMap
      {| ConfigMapMeta := meta'; Data := {[ clusterConfigFile := data ]} |} w
      = (e, w').
Proof.
  unfold addConfigMap.
  destruct (newClusterConfig fuel cluster) as [[err|config]| |]; try done.
  { intros [= <- <-]. by left. }
  destruct (MarshalToString config) as [err|data] eqn:Hdata.
  { intros [= <- <-]. by left. }
  destruct (SetControllerReference cluster _) as [err|meta'] eqn:Hown.
  { intros [= <- <-]. by left. }
  intros [= Hcreate]. right. exists config, data, meta'.
  do 3 (split; [done|]). by destruct (createConfigMap _ w).
Qed.

Lemma reconcileConfigMap_inv fuel cluster storage w e w' :
  reconcileConfigMap fuel cluster storage w = Return (e, w') ->
  exists g w1,
    getConfigMap (Namespace (ClusterMeta cluster), Name (ClusterMeta cluster)) w
      = (g, w1) /\
    match g with
    | inr _ => e = None /\ w' = w1
    | inl err =>
        if IsNotFound err
        then addConfigMap fuel cluster storage w1 = Return (e, w')
        else e = Some err /\ w' = w1
    end.
Proof.
  unfold reconcileConfigMap. destruct (getConfigMap _ w) as [[err|cm] w1].
  - intros Hstep. exists (inl err), w1. split; [done|].
    destruct (IsNotFound err); [done|]. by inversion Hstep.
  - intros [= <- <-]. by exists (inr cm), w1.
Qed.

Lemma reconcileDeployment_inv cluster storage w e w' :
  reconcileDeployment cluster storage w = (e, w') ->
  exists g w1,
    getDeployment (Namespace (ClusterMeta cluster), Name (ClusterMeta cluster)) w
      = (g, w1) /\
    match g with
    | inr _ => e = None /\ w' = w1
    | inl err =>
        if IsNotFound err
        then (w' = w1 /\ e <> None) \/
             exists meta',
               SetControllerReference cluster
                 (namedMeta (Namespace (ClusterMeta cluster))
                            (Name (ClusterMeta cluster))) = inr meta' /\
               createDeployment
                 {| DeploymentMeta := meta';
                    DStatus := {| Replicas := 0; ReadyReplicas := 0 |} |} w1
                 = (e, w')
        else e = Some err /\ w' = w1
    end.
Proof.
  unfold reconcileDeployment. destruct (getDeployment _ w) as [[err|dep] w1].
  - intros Hstep. exists (inl err), w1. split; [done|].
    destruct (IsNotFound err); [|by inversion Hstep].
    unfold addDeployment in Hstep.
    destruct (SetControllerReference cluster _) as [err'|meta'].
    + inversion Hstep; subst. by left.
    + right. by exists meta'.
  - intros [= <- <-]. by exists (inr dep), w1.
Qed.

Lemma reconcileService_inv cluster storage w e w' :
  reconcileService cluster storage w = (e, w') ->
  exists g w1,
    getService (Namespace (ClusterMeta cluster), Name (ClusterMeta cluster)) w
      = (g, w1) /\
    match g with
    | inr _ => e = None /\ w' = w1
    | inl err =>
        if IsNotFound err
        then (w' = w1 /\ e <> None) \/
             exists meta',
               SetControllerReference cluster
                 (namedMeta (Namespace (ClusterMeta cluster))
                            (Name (ClusterMeta cluster))) = inr meta' /\
               createService {| ServiceMeta := meta' |} w1 = (e, w')
        else e = Some err /\ w' = w1
    end.
Proof.
  unfold reconcileService. destruct (getService _ w) as [[err|service] w1].
  - intros Hstep. exists (inl err), w1. split; [done|].
    destruct (IsNotFound err); [|by inversion Hstep].
    unfold addService in Hstep.
    destruct (SetControllerReference cluster _) as [err'|meta'].
    + inversion Hstep; subst. by left.
    + right. by exists meta'.
  - intros [= <- <-]. by exists (inr service), w1.
Qed.

(** X5: a get-or-create step touches its own kind of object only, and
    only by adding: every object the server held is still there,
    unchanged, and when the step returns an error nothing was added.  The
    step reads once and issues at most one write, a create. *)
Theorem get_or_create_frame fuel cluster storage w :
  let name := (Namespace (ClusterMeta cluster), Name (ClusterMeta cluster)) in
  (forall e w',
     reconcileConfigMap fuel cluster storage w = Return (e, w') ->
     deployments w' = deployments w /\ services w' = services w /\
     partitions w' = partitions w /\ clusters w' = clusters w /\
     configMaps w ⊆ configMaps w' /\
     (e <> None -> configMaps w' = configMaps w) /\
     exists new, calls w' = new ++ calls w /\
       (new = [GetConfigMap name] \/
        exists cm, new = [CreateConfigMap cm; GetConfigMap name])) /\
  (forall e w',
     reconcileDeployment cluster storage w = (e, w') ->
     configMaps w' = configMaps w /\ services w' = services w /\
     partitions w' = partitions w /\ clusters w' = clusters w /\
     deployments w ⊆ deployments w' /\
     (e <> None -> deployments w' = deployments w) /\
     exists new, calls w' = new ++ calls w /\
       (new = [GetDeployment name] \/
        exists dep, new = [CreateDeployment dep; GetDeployment name])) /\
  (forall e w',
     reconcileService cluster storage w = (e, w') ->
     configMaps w' = configMaps w /\ deployments w' = deployments w /\
     partitions w' = partitions w /\ clusters w' = clusters w /\
     services w ⊆ services w' /\
     (e <> None -> services w' = services w) /\
     exists new, calls w' = new ++ calls w /\
       (new = [GetService name] \/
        exists service, new = [CreateService service; GetService name])).
Proof.
  intros name. split; [|split].
  - intros e w' Hstep.
    apply reconcileConfigMap_inv in Hstep as (g & w1 & Hget & Hcase). fold name in Hget.
    apply getConfigMap_inv in Hget as [(G1 & G2 & G3 & G4 & G5 & G6 & _) _].
    assert (Hread : w' = w1 ->
      deployments w' = deployments w /\ services w' = services w /\
      partitions w' = partitions w /\ clusters w' = clusters w /\
      configMaps w ⊆ configMaps w' /\
      (e <> None -> configMaps w' = configMaps w) /\
      exists new, calls w' = new ++ calls w /\
        (new = [GetConfigMap name] \/
         exists cm, new = [CreateConfigMap cm; GetConfigMap name])).
    { intros ->. rewrite G1. do 4 (split; [done|]). split; [done|]. split; [done|].
      exists [GetConfigMap name]. split; [done|by left]. }
    destruct g as [err|cm]; [|by destruct Hcase as [_ ->]; apply Hread].
    destruct (IsNotFound err); [|by destruct Hcase as [_ ->]; apply Hread].
    apply addConfigMap_inv in Hcase
      as [[-> _]|(config & data & meta' & _ & _ & _ & Hcreate)]; [by apply Hread|].
    apply createConfigMap_inv in Hcreate as (C1 & C2 & C3 & C4 & C5 & _ & Hres).
    rewrite C1, C2, C3, C4, C5, G6. do 4 (split; [done|]).
    destruct e as [err'|].
    + destruct Hres as [-> _]. rewrite G1. split; [done|]. split; [done|].
      eexists [_; _]. split; [done|]. right. by eexists.
    + destruct Hres as (_ & Hfree & ->). rewrite G1 in *.
      split; [by apply insert_subseteq|]. split; [done|].
      eexists [_; _]. split; [done|]. right. by eexists.
  - intros e w' Hstep.
    apply reconcileDeployment_inv in Hstep as (g & w1 & Hget & Hcase). fold name in Hget.
    apply getDeployment_inv in Hget as [(G1 & G2 & G3 & G4 & G5 & G6 & _) _].
    assert (Hread : w' = w1 ->
      configMaps w' = configMaps w /\ services w' = services w /\
      partitions w' = partitions w /\ clusters w' = clusters w /\
      deployments w ⊆ deployments w' /\
      (e <> None -> deployments w' = deployments w) /\
      exists new, calls w' = new ++ calls w /\
        (new = [GetDeployment name] \/
         exists dep, new = [CreateDeployment dep; GetDeployment name])).
    { intros ->. rewrite G2. do 4 (split; [done|]). split; [done|]. split; [done|].
      exists [GetDeployment name]. split; [done|by left]. }
    destruct g as [err|dep]; [|by destruct Hcase as [_ ->]; apply Hread].
    destruct (IsNotFound err); [|by destruct Hcase as [_ ->]; apply Hread].
    destruct Hcase as [[-> _]|(meta' & _ & Hcreate)]; [by apply Hread|].
    apply createDeployment_inv in Hcreate as (C1 & C2 & C3 & C4 & C5 & _ & Hres).
    rewrite C1, C2, C3, C4, C5, G6. do 4 (split; [done|]).
    destruct e as [err'|].
    + destruct Hres as [-> _]. rewrite G2. split; [done|]. split; [done|].
      eexists [_; _]. split; [done|]. right. by eexists.
    + destruct Hres as (_ & Hfree & ->). rewrite G2 in *.
      split; [by apply insert_subseteq|]. split; [done|].
      eexists [_; _]. split; [done|]. right. by eexists.
  - intros e w' Hstep.
    apply reconcileService_inv in Hstep as (g & w1 & Hget & Hcase). fold name in Hget.
    apply getService_inv in Hget as [(G1 & G2 & G3 & G4 & G5 & G6 & _) _].
    assert (Hread : w' = w1 ->
      configMaps w' = configMaps w /\ deployments w' = deployments w /\
      partitions w' = partitions w /\ clusters w' = clusters w /\
      services w ⊆ services w' /\
      (e <> None -> services w' = services w) /\
      exists new, calls w' = new ++ calls w /\
        (new = [GetService name] \/
         exists service, new = [CreateService service; GetService name])).
    { intros ->. rewrite G3. do 4 (split; [done|]). split; [done|]. split; [done|].
      exists [GetService name]. split; [done|by left]. }
    destruct g as [err|service]; [|by destruct Hcase as [_ ->]; apply Hread].
    destruct (IsNotFound err); [|by destruct Hcase as [_ ->]; apply Hread].
    destruct Hcase as [[-> _]|(meta' & _ & Hcreate)]; [by apply Hread|].
    apply createService_inv in Hcreate as (C1 & C2 & C3 & C4 & C5 & _ & Hres).
    rewrite C1, C2, C3, C4, C5, G6. do 4 (split; [done|]).
    destruct e as [err'|].
    + destruct Hres as [-> _]. rewrite G3. split; [done|]. split; [done|].
      eexists [_; _]. split; [done|]. right. by eexists.
    + destruct Hres as (_ & Hfree & ->). rewrite G3 in *.
      split; [by apply insert_subseteq|]. split; [done|].
      eexists [_; _]. split; [done|]. right. by eexists.
Qed.

End Steps.

Section Creation.
Context `{Externals}.

(** X6: on a server without the ConfigMap of the Cluster, and with no
    call failing, the ConfigMap step creates it under the namespace and
    name of the Cluster, owned by the Cluster, with the marshalled cluster
    configuration as its only entry, [cluster.json]; this create is the
    only write. *)
Theorem reconcileConfigMap_creates fuel cluster storage w config data meta' :
  let name := (Namespace (ClusterMeta cluster), Name (ClusterMeta cluster)) in
  ownerKeepsName ->
  faults w = [] ->
  Name (ClusterMeta cluster) <> EmptyString ->
  configMaps w !! name = None ->
  newClusterConfig fuel cluster = Return (inr config) ->
  MarshalToString config = inr data ->
  SetControllerReference cluster
    (namedMeta (Namespace (ClusterMeta cluster)) (Name (ClusterMeta cluster)))
    = inr meta' ->
  exists w',
    reconcileConfigMap fuel cluster storage w = Return (None, w') /\
    configMaps w' =
      <[name := {| ConfigMapMeta := meta';
                   Data := {[ clusterConfigFile := data ]} |}]> (configMaps w) /\
    metaKey meta' = name /\
    writes w' =
      CreateConfigMap {| ConfigMapMeta := meta';
                         Data := {[ clusterConfigFile := data ]} |} :: writes w.
Proof.
  intros name Hkeep Hfs Hname Hfree Hcfg Hdata Hown.
  destruct (Hkeep _ _ _ Hown) as [Hns Hnm]. simpl in Hns, Hnm.
  assert (Hkey : metaKey meta' = name) by (unfold metaKey; by rewrite Hns, Hnm).
  unfold reconcileConfigMap. fold name.
  unfold getConfigMap. rewrite (get_missing _ configMaps name w) by done.
  simpl. unfold addConfigMap. rewrite Hcfg, Hdata, Hown.
  unfold createConfigMap.
  rewrite (create_fresh _ configMaps setConfigMaps); simpl; try done.
  - eexists. split; [done|]. simpl. by rewrite Hkey.
  - by rewrite Hnm.
  - by rewrite Hkey.
Qed.

(** X7: on a server without the Deployment, respectively the Service, of
    the Cluster, and with no call failing, the step creates it under the
    namespace and name of the Cluster, owned by the Cluster and otherwise
    empty: the Deployment carries no spec and a zero status.  The create
    is the only write of the step. *)
Theorem reconcile_creates_deployment_and_service cluster storage w meta' :
  let name := (Namespace (ClusterMeta cluster), Name (ClusterMeta cluster)) in
  ownerKeepsName ->
  faults w = [] ->
  Name (ClusterMeta cluster) <> EmptyString ->
  SetControllerReference cluster
    (namedMeta (Namespace (ClusterMeta cluster)) (Name (ClusterMeta cluster)))
    = inr meta' ->
  (deployments w !! name = None ->
   exists w',
     reconcileDeployment cluster storage w = (None, w') /\
     deployments w' =
       <[name := {| DeploymentMeta := meta';
                    DStatus := {| Replicas := 0; ReadyReplicas := 0 |} |}]>
         (deployments w) /\
     writes w' =
       CreateDeployment {| DeploymentMeta := meta';
                           DStatus := {| Replicas := 0; ReadyReplicas := 0 |} |}
       :: writes w) /\
  (services w !! name = None ->
   exists w',
     reconcileService cluster storage w = (None, w') /\
     services w' = <[name := {| ServiceMeta := meta' |}]> (services w) /\
     writes w' = CreateService {| ServiceMeta := meta' |} :: writes w).
Proof.
  intros name Hkeep Hfs Hname Hown.
  destruct (Hkeep _ _ _ Hown) as [Hns Hnm]. simpl in Hns, Hnm.
  assert (Hkey : metaKey meta' = name) by (unfold metaKey; by rewrite Hns, Hnm).
  split; intros Hfree.
  - unfold reconcileDeployment. fold name.
    unfold getDeployment. rewrite (get_missing _ deployments name w) by done.
    simpl. unfold addDeployment. rewrite Hown. unfold createDeployment.
    rewrite (create_fresh _ deployments setDeployments); simpl; try done.
    + eexists. split; [done|]. simpl. by rewrite Hkey.
    + by rewrite Hnm.
    + by rewrite Hkey.
  - unfold reconcileService. fold name.
    unfold getService. rewrite (get_missing _ services name w) by done.
    simpl. unfold addService. rewrite Hown. unfold createService.
    rewrite (create_fresh _ services setServices); simpl; try done.
    + eexists. split; [done|]. simpl. by rewrite Hkey.
    + by rewrite Hnm.
    + by rewrite Hkey.
Qed.

(** X8: when the object is missing and building it fails (the cluster
    configuration cannot be built or marshalled, or the owner reference
    cannot be set), the step returns that error after its read and sends
    no create. *)
Theorem build_failure_sends_no_create fuel cluster storage w err :
  let name := (Namespace (ClusterMeta cluster), Name (ClusterMeta cluster)) in
  let meta := namedMeta (Namespace (ClusterMeta cluster)) (Name (ClusterMeta cluster)) in
  faults w = [] ->
  (configMaps w !! name = None ->
   newClusterConfig fuel cluster = Return (inl err) \/
   (exists config,
      newClusterConfig fuel cluster = Return (inr config) /\
      (MarshalToString config = inl err \/
       (exists data, MarshalToString config = inr data) /\
       SetControllerReference cluster meta = inl err)) ->
   reconcileConfigMap fuel cluster storage w
     = Return (Some err, record (GetConfigMap name) w)) /\
  (deployments w !! name = None ->
   SetControllerReference cluster meta = inl err ->
   reconcileDeployment cluster storage w
     = (Some err, record (GetDeployment name) w)) /\
  (services w !! name = None ->
   SetControllerReference cluster meta = inl err ->
   reconcileService cluster storage w
     = (Some err, record (GetService name) w)).
Proof.
  intros name meta Hfs. split; [|split].
  - intros Hfree Hfail. unfold reconcileConfigMap. fold name.
    unfold getConfigMap. rewrite (get_missing _ configMaps name w) by done.
    simpl. unfold addConfigMap. fold meta.
    destruct Hfail as [->|(config & -> & [->|[[data ->] ->]])]; done.
  - intros Hfree Hown. unfold reconcileDeployment. fold name.
    unfold getDeployment. rewrite (get_missing _ deployments name w) by done.
    simpl. unfold addDeployment. fold meta. by rewrite Hown.
  - intros Hfree Hown. unfold reconcileService. fold name.
    unfold getService. rewrite (get_missing _ services name w) by done.
    simpl. unfold addService. fold meta. by rewrite Hown.
Qed.

(** After a step that returned without error the object of the Cluster
    is on the server. *)
Lemma reconcileConfigMap_present fuel cluster storage w w' :
  ownerKeepsName ->
  reconcileConfigMap fuel cluster storage w = Return (None, w') ->
  is_Some (configMaps w' !! (Namespace (ClusterMeta cluster), Name (ClusterMeta cluster))).
Proof.
  intros Hkeep Hstep.
  apply reconcileConfigMap_inv in Hstep as (g & w1 & Hget & Hcase).
  apply getConfigMap_inv in Hget as [(G1 & _) Hres].
  destruct g as [err|cm].
  - destruct (IsNotFound err); [|by destruct Hcase].
    apply addConfigMap_inv in Hcase
      as [[_ ?]|(config & data & meta' & _ & _ & Hown & Hcreate)]; [done|].
    apply createConfigMap_inv in Hcreate as (_ & _ & _ & _ & _ & _ & _ & _ & ->).
    destruct (Hkeep _ _ _ Hown) as [Hns Hnm]. simpl in *.
    unfold metaKey. rewrite Hns, Hnm, lookup_insert_eq. by eexists.
  - destruct Hcase as [_ ->]. rewrite G1, Hres. by eexists.
Qed.

Lemma reconcileDeployment_present cluster storage w w' :
  ownerKeepsName ->
  reconcileDeployment cluster storage w = (None, w') ->
  is_Some (deployments w' !! (Namespace (ClusterMeta cluster), Name (ClusterMeta cluster))).
Proof.
  intros Hkeep Hstep.
  apply reconcileDeployment_inv in Hstep as (g & w1 & Hget & Hcase).
  apply getDeployment_inv in Hget as [(_ & G2 & _) Hres].
  destruct g as [err|dep].
  - destruct (IsNotFound err); [|by destruct Hcase].
    destruct Hcase as [[_ ?]|(meta' & Hown & Hcreate)]; [done|].
    apply createDeployment_inv in Hcreate as (_ & _ & _ & _ & _ & _ & _ & _ & ->).
    destruct (Hkeep _ _ _ Hown) as [Hns Hnm]. simpl in *.
    unfold metaKey. simpl. rewrite Hns, Hnm, lookup_insert_eq. by eexists.
  - destruct Hcase as [_ ->]. rewrite G2, Hres. by eexists.
Qed.

Lemma reconcileService_present cluster storage w w' :
  ownerKeepsName ->
  reconcileService cluster storage w = (None, w') ->
  is_Some (services w' !! (Namespace (ClusterMeta cluster), Name (ClusterMeta cluster))).
Proof.
  intros Hkeep Hstep.
  apply reconcileService_inv in Hstep as (g & w1 & Hget & Hcase).
  apply getService_inv in Hget as [(_ & _ & G3 & _) Hres].
  destruct g as [err|service].
  - destruct (IsNotFound err); [|by destruct Hcase].
    destruct Hcase as [[_ ?]|(meta' & Hown & Hcreate)]; [done|].
    apply createService_inv in Hcreate as (_ & _ & _ & _ & _ & _ & _ & _ & ->).
    destruct (Hkeep _ _ _ Hown) as [Hns Hnm]. simpl in *.
    unfold metaKey. simpl. rewrite Hns, Hnm, lookup_insert_eq. by eexists.
  - destruct Hcase as [_ ->]. rewrite G3, Hres. by eexists.
Qed.

(** A step that finds its object only reads, whatever the schedule of
    failures: it returns without error, or with the error of its read. *)
Lemma reconcileConfigMap_quiet fuel cluster storage w :
  is_Some (configMaps w !! (Namespace (ClusterMeta cluster), Name (ClusterMeta cluster))) ->
  exists e w',
    reconcileConfigMap fuel cluster storage w = Return (e, w') /\
    logged (GetConfigMap (Namespace (ClusterMeta cluster), Name (ClusterMeta cluster)))
           w w' /\
    (faults w = [] -> e = None).
Proof.
  intros [cm Hcm]. unfold reconcileConfigMap.
  destruct (getConfigMap _ w) as [g w1] eqn:Hget.
  pose proof (getConfigMap_inv _ _ _ _ Hget) as [Hlog Hres].
  destruct g as [err|cm'].
  - destruct Hres as [[_ Hnone]|[[code ->] Hfs]]; [by rewrite Hcm in Hnone|].
    by eexists _, _.
  - by eexists _, _.
Qed.

Lemma reconcileDeployment_quiet cluster storage w :
  is_Some (deployments w !! (Namespace (ClusterMeta cluster), Name (ClusterMeta cluster))) ->
  exists e w',
    reconcileDeployment cluster storage w = (e, w') /\
    logged (GetDeployment (Namespace (ClusterMeta cluster), Name (ClusterMeta cluster)))
           w w' /\
    (faults w = [] -> e = None).
Proof.
  intros [dep Hdep]. unfold reconcileDeployment.
  destruct (getDeployment _ w) as [g w1] eqn:Hget.
  pose proof (getDeployment_inv _ _ _ _ Hget) as [Hlog Hres].
  destruct g as [err|dep'].
  - destruct Hres as [[_ Hnone]|[[code ->] Hfs]]; [by rewrite Hdep in Hnone|].
    by eexists _, _.
  - by eexists _, _.
Qed.

Lemma reconcileService_quiet cluster storage w :
  is_Some (services w !! (Namespace (ClusterMeta cluster), Name (ClusterMeta cluster))) ->
  exists e w',
    reconcileService cluster storage w = (e, w') /\
    logged (GetService (Namespace (ClusterMeta cluster), Name (ClusterMeta cluster)))
           w w' /\
    (faults w = [] -> e = None).
Proof.
  intros [service Hsvc]. unfold reconcileService.
  destruct (getService _ w) as [g w1] eqn:Hget.
  pose proof (getService_inv _ _ _ _ Hget) as [Hlog Hres].
  destruct g as [err|service'].
  - destruct Hres as [[_ Hnone]|[[code ->] Hfs]]; [by rewrite Hsvc in Hnone|].
    by eexists _, _.
  - by eexists _, _.
Qed.

(** X9: a get-or-create step that returned without error need not be run
    again: on any server holding the objects it left, a further run of the
    step only reads, whatever calls fail, and returns without error when
    none does. *)
Theorem get_or_create_idempotent fuel cluster storage w :
  ownerKeepsName ->
  (forall w',
     reconcileConfigMap fuel cluster storage w = Return (None, w') ->
     forall fuel2 w2, configMaps w2 = configMaps w' ->
     exists e w3,
       reconcileConfigMap fuel2 cluster storage w2 = Return (e, w3) /\
       noWrite w2 w3 /\ (faults w2 = [] -> e = None)) /\
  (forall w',
     reconcileDeployment cluster storage w = (None, w') ->
     forall w2, deployments w2 = deployments w' ->
     exists e w3,
       reconcileDeployment cluster storage w2 = (e, w3) /\
       noWrite w2 w3 /\ (faults w2 = [] -> e = None)) /\
  (forall w',
     reconcileService cluster storage w = (None, w') ->
     forall w2, services w2 = services w' ->
     exists e w3,
       reconcileService cluster storage w2 = (e, w3) /\
       noWrite w2 w3 /\ (faults w2 = [] -> e = None)).
Proof.
  intros Hkeep. split; [|split].
  - intros w' Hstep fuel2 w2 Hsame.
    apply reconcileConfigMap_present in Hstep; [|done]. rewrite <- Hsame in Hstep.
    destruct (reconcileConfigMap_quiet fuel2 cluster storage w2 Hstep)
      as (e & w3 & Hrun & Hlog & Hok).
    exists e, w3. split; [done|]. split; [by eapply logged_noWrite|done].
  - intros w' Hstep w2 Hsame.
    apply reconcileDeployment_present in Hstep; [|done]. rewrite <- Hsame in Hstep.
    destruct (reconcileDeployment_quiet cluster storage w2 Hstep)
      as (e & w3 & Hrun & Hlog & Hok).
    exists e, w3. split; [done|]. split; [by eapply logged_noWrite|done].
  - intros w' Hstep w2 Hsame.
    apply reconcileService_present in Hstep; [|done]. rewrite <- Hsame in Hstep.
    destruct (reconcileService_quiet cluster storage w2 Hstep)
      as (e & w3 & Hrun & Hlog & Hok).
    exists e, w3. split; [done|]. split; [by eapply logged_noWrite|done].
Qed.

End Creation.

(** ** The readiness pass, beyond the all-ready case *)

Lemma traced_refl allowed w : traced allowed w w.
Proof. exists []. by split. Qed.

Lemma traced_trans allowed w1 w2 w3 :
  traced allowed w1 w2 -> traced allowed w2 w3 -> traced allowed w1 w3.
Proof.
  intros (new1 & H1 & A1) (new2 & H2 & A2). exists (new2 ++ new1).
  rewrite H2, H1, app_assoc. split; [done|]. by apply Forall_app.
Qed.

Lemma logged_traced (allowed : Call -> Prop) c w w1 :
  logged c w w1 -> allowed c -> traced allowed w w1.
Proof.
  intros (_ & _ & _ & _ & _ & Hcalls & _) Hc. exists [c]. split; [done|].
  by constructor.
Qed.

Lemma updatePartitionStatus_ok p w :
  faults w = [] ->
  Name (PartitionMeta p) <> EmptyString ->
  is_Some (partitions w !! metaKey (PartitionMeta p)) ->
  updatePartitionStatus p w =
    (None, setPartitions (<[metaKey (PartitionMeta p) := PStatus p]> (partitions w))
             (record (UpdatePartitionStatus p) w)).
Proof.
  intros Hfs Hname [st Hst]. unfold updatePartitionStatus, updateStatus, request.
  simpl. case_decide; [done|]. rewrite Hfs. simpl. by rewrite Hst.
Qed.

Section HappyPath.
Context `{Externals}.

(** With no failure scheduled, the body marks an existing Partition
    ready, or leaves it ready, and changes nothing else. *)
Lemma statusLoopBody_marks cluster partitionID w :
  faults w = [] ->
  (GetPartitionNamespacedName cluster partitionID).2 <> EmptyString ->
  is_Some (partitions w !! GetPartitionNamespacedName cluster partitionID) ->
  exists w',
    statusLoopBody cluster partitionID w = (None, w') /\
    faults w' = [] /\
    partitions w' =
      <[GetPartitionNamespacedName cluster partitionID := {| Ready := true |}]>
        (partitions w) /\
    clusters w' = clusters w.
Proof.
  intros Hfs Hname [[b] Hst]. unfold statusLoopBody.
  rewrite (getPartition_found _ w {| Ready := b |}) by done. simpl.
  destruct (GetPartitionNamespacedName cluster partitionID) as [ns nm] eqn:Hn.
  simpl in *. destruct b; simpl.
  - eexists. split; [done|]. simpl. split; [done|]. split; [|done].
    by rewrite insert_id.
  - rewrite updatePartitionStatus_ok; simpl; try done.
    by eexists.
Qed.

Lemma readiness_run_marks cluster hi i acc l acc' :
  loopRun collect hi i acc l None acc' ->
  forall w, faults w = [] ->
  (forall j, j ∈ l ->
     is_Some (partitions w !! GetPartitionNamespacedName cluster j) /\
     (GetPartitionNamespacedName cluster j).2 <> EmptyString) ->
  exists w',
    loopRun (statusLoopBody cluster) hi i w l None w' /\
    faults w' = [] /\
    clusters w' = clusters w /\
    forall n,
      partitions w' !! n =
        if decide (n ∈ GetPartitionNamespacedName cluster <$> l)
        then Some {| Ready := true |} else partitions w !! n.
Proof.
  remember None as r eqn:Hr.
  induction 1 as [i s Hgt|i s e s' Hle Hbody|i s s' l r s'' Hle Hbody Hrun IH];
    intros w Hfs Hexist; subst.
  - exists w. split; [by apply loopRun_exit|]. do 2 (split; [done|]).
    intros n. rewrite decide_False; [done|]. rewrite fmap_nil. apply not_elem_of_nil.
  - done.
  - destruct (Hexist i) as [Hsome Hname]; [by left|].
    destruct (statusLoopBody_marks cluster i w Hfs Hname Hsome)
      as (w1 & Hstep & Hfs1 & Hparts1 & Hcl1).
    destruct (IH eq_refl w1 Hfs1) as (w' & Hrun' & Hfs' & Hcl' & Hparts').
    { intros j Hj. destruct (Hexist j) as [[st Hst] Hnm]; [by right|].
      split; [|done]. rewrite Hparts1.
      destruct (decide (GetPartitionNamespacedName cluster i
                        = GetPartitionNamespacedName cluster j)) as [<-|Hne].
      - rewrite lookup_insert_eq. by eexists.
      - rewrite lookup_insert_ne by done. by eexists. }
    exists w'. split; [by eapply loopRun_next|]. split; [done|].
    split; [by rewrite Hcl'|]. intros n. rewrite Hparts', Hparts1.
    rewrite fmap_cons.
    destruct (decide (n ∈ GetPartitionNamespacedName cluster <$> l)) as [Hin|Hnin].
    + rewrite decide_True; [done|]. by right.
    + destruct (decide (GetPartitionNamespacedName cluster i = n)) as [<-|Hne].
      * rewrite lookup_insert_eq. rewrite decide_True; [done|]. by left.
      * rewrite lookup_insert_ne by done. rewrite decide_False; [done|].
        intros Hin. apply elem_of_cons in Hin as [->|Hin]; done.
Qed.

(** The pass on a server where the Partition of every ordinal the loop
    visits exists, no call fails and the guard holds. *)
Lemma reconcileStatus_marks_owned fuel cluster storage w dep clusterID l :
  faults w = [] ->
  deployments w !! (Namespace (ClusterMeta cluster), Name (ClusterMeta cluster))
    = Some dep ->
  trigger cluster dep = true ->
  GetClusterIDFromClusterAnnotations cluster = inr clusterID ->
  ownedOrdinals fuel (Partitions (Spec cluster)) clusterID = Return l ->
  (forall j, j ∈ l ->
     is_Some (partitions w !! GetPartitionNamespacedName cluster j) /\
     (GetPartitionNamespacedName cluster j).2 <> EmptyString) ->
  Name (ClusterMeta cluster) <> EmptyString ->
  is_Some (clusters w !! metaKey (ClusterMeta cluster)) ->
  exists w',
    reconcileStatus fuel cluster storage w =
      Return (None, setReadyPartitions (Partitions (Spec cluster)) cluster, w') /\
    (forall n,
       partitions w' !! n =
         if decide (n ∈ GetPartitionNamespacedName cluster <$> l)
         then Some {| Ready := true |} else partitions w !! n) /\
    clusters w' =
      <[metaKey (ClusterMeta cluster) :=
          {| ReadyPartitions := Partitions (Spec cluster) |}]> (clusters w) /\
    configMaps w' = configMaps w /\ deployments w' = deployments w /\
    services w' = services w.
Proof.
  intros Hfs Hdep Hguard Hid Howned Hexist Hname Hstored.
  set (name := (Namespace (ClusterMeta cluster), Name (ClusterMeta cluster))) in *.
  assert (Hget : getDeployment name w = (inr dep, record (GetDeployment name) w))
    by by apply get_found.
  apply ownedOrdinals_loopRun in Howned as [Hrun Hlen].
  destruct (readiness_run_marks cluster _ _ _ _ _ Hrun
              (record (GetDeployment name) w)) as (w2 & Hrun2 & Hfs2 & Hcl2 & Hparts2);
    [done|done|].
  pose proof (readiness_run_loopStep _ _ _ _ _ _ _ Hrun2)
    as (L1 & L2 & L3 & _).
  destruct (updateClusterStatus
              (setReadyPartitions (Partitions (Spec cluster)) cluster) w2)
    as [err w3] eqn:Hupd.
  pose proof (updateClusterStatus_inv _ _ _ _ Hupd)
    as (U1 & U2 & U3 & U4 & _ & _ & Hres).
  assert (Hpass : reconcileStatus fuel cluster storage w =
                  Return (err, setReadyPartitions (Partitions (Spec cluster)) cluster, w3)).
  { unfold reconcileStatus. fold name. rewrite Hget, Hguard, Hid.
    unfold readinessLoop.
    rewrite (loopRun_forLoop _ _ _ _ _ _ _ Hrun2 fuel Hlen). by rewrite Hupd. }
  destruct err as [err|].
  - destruct Hres as [_ [[_ Hempty]|[[_ Hfault]|[_ Hmissing]]]]; [done|done|].
    simpl in Hmissing. rewrite Hcl2 in Hmissing. simpl in Hmissing.
    rewrite Hmissing in Hstored. by destruct Hstored.
  - destruct Hres as (_ & _ & Hcl3). exists w3. split; [done|].
    split; [intros n; by rewrite U4, Hparts2|].
    split; [by rewrite Hcl3, Hcl2|].
    by rewrite U1, U2, U3, L1, L2, L3.
Qed.

(** X10: for a partition count P >= 1 and a shard identifier C >= 1
    with P * C below the largest [int32], when the guard holds, no call
    fails, the Cluster is on the server and every Partition with an
    ordinal in [(P * (C-1)) + 1, P * C] exists under a name that is not
    empty, the pass returns without error having made each of these
    Partitions ready and touched no other Partition, and it has persisted
    ReadyPartitions = Spec.Partitions; ConfigMaps, Deployments and
    Services are as before. *)
Theorem readiness_pass_marks_owned fuel cluster storage w dep clusterID :
  faults w = [] ->
  deployments w !! (Namespace (ClusterMeta cluster), Name (ClusterMeta cluster))
    = Some dep ->
  trigger cluster dep = true ->
  GetClusterIDFromClusterAnnotations cluster = inr clusterID ->
  1 <= Partitions (Spec cluster) -> 1 <= clusterID ->
  Partitions (Spec cluster) * clusterID < Int32.max_int ->
  (Z.to_nat (Partitions (Spec cluster)) < fuel)%nat ->
  (forall j,
     Partitions (Spec cluster) * (clusterID - 1) + 1 <= j
       <= Partitions (Spec cluster) * clusterID ->
     is_Some (partitions w !! GetPartitionNamespacedName cluster j) /\
     (GetPartitionNamespacedName cluster j).2 <> EmptyString) ->
  Name (ClusterMeta cluster) <> EmptyString ->
  is_Some (clusters w !! metaKey (ClusterMeta cluster)) ->
  exists w',
    reconcileStatus fuel cluster storage w =
      Return (None, setReadyPartitions (Partitions (Spec cluster)) cluster, w') /\
    (forall j,
       Partitions (Spec cluster) * (clusterID - 1) + 1 <= j
         <= Partitions (Spec cluster) * clusterID ->
       readyIn w' (GetPartitionNamespacedName cluster j)) /\
    (forall n,
       (forall j,
          Partitions (Spec cluster) * (clusterID - 1) + 1 <= j
            <= Partitions (Spec cluster) * clusterID ->
          n <> GetPartitionNamespacedName cluster j) ->
       partitions w' !! n = partitions w !! n) /\
    clusters w' !! metaKey (ClusterMeta cluster) =
      Some {| ReadyPartitions := Partitions (Spec cluster) |} /\
    (forall n, n <> metaKey (ClusterMeta cluster) ->
       clusters w' !! n = clusters w !! n) /\
    configMaps w' = configMaps w /\ deployments w' = deployments w /\
    services w' = services w.
Proof.
  intros Hfs Hdep Hguard Hid Hp Hc Hpc Hfuel Hexist Hname Hstored.
  destruct (reconcileStatus_marks_owned fuel cluster storage w dep clusterID
              (seqZ (Partitions (Spec cluster) * (clusterID - 1) + 1)
                    (Partitions (Spec cluster))))
    as (w' & Hpass & Hparts & Hcl & Hrest); try done.
  { by apply ownedOrdinals_exact. }
  { intros j Hj. apply Hexist. apply elem_of_seqZ in Hj. lia. }
  exists w'. split; [done|]. split; [|split; [|split; [|split]]].
  - intros j Hj. unfold readyIn. rewrite Hparts.
    rewrite decide_True; [done|]. apply list_elem_of_fmap_2.
    apply elem_of_seqZ. lia.
  - intros n Hn. rewrite Hparts. rewrite decide_False; [done|].
    intros Hin. apply list_elem_of_fmap in Hin as (j & -> & Hj).
    apply elem_of_seqZ in Hj. apply (Hn j); [lia|done].
  - rewrite Hcl. by rewrite lookup_insert_eq.
  - intros n Hn. rewrite Hcl. by rewrite lookup_insert_ne.
  - done.
Qed.

(** One step of the loop issues only calls a pass may issue, none of
    them a Cluster status update. *)
Lemma statusLoopBody_traced cluster partitionID w e w' :
  statusLoopBody cluster partitionID w = (e, w') ->
  traced (fun c => passCall cluster c /\ isClusterUpdate c = false) w w'.
Proof.
  intros Hbody. apply statusLoopBody_cases in Hbody as (g & w1 & Hget & Hcase).
  apply getPartition_inv in Hget as [Hlog _].
  apply (logged_traced (fun c => passCall cluster c /\ isClusterUpdate c = false))
    in Hlog; [|done].
  assert (Hupd : forall p, Ready (PStatus p) = true ->
    updatePartitionStatus p w1 = (e, w') ->
    traced (fun c => passCall cluster c /\ isClusterUpdate c = false) w w').
  { intros p Hready Hu. eapply traced_trans; [done|].
    apply updatePartitionStatus_inv in Hu as (_ & _ & _ & _ & Hcalls & _).
    exists [UpdatePartitionStatus p]. split; [done|]. by constructor. }
  destruct g as [err|p].
  - destruct (IsNotFound err); [|by destruct Hcase as [_ ->]].
    by apply (Hupd (setReady true zeroPartition)).
  - destruct (Ready (PStatus p)); [by destruct Hcase as [_ ->]|].
    by apply (Hupd (setReady true p)).
Qed.

(** X11: whatever a readiness pass that returns has met, it has left
    ConfigMaps, Deployments and Services alone and has created nothing.
    Each of its calls is a read of the Deployment or of a Partition, a
    status update that sets a Partition ready, or the status update that
    raises the Cluster's ReadyPartitions to Spec.Partitions, which can
    only be the last call of the pass. *)
Theorem readiness_pass_calls fuel cluster storage w r cluster' w' :
  reconcileStatus fuel cluster storage w = Return (r, cluster', w') ->
  configMaps w' = configMaps w /\ deployments w' = deployments w /\
  services w' = services w /\
  exists new,
    calls w' = new ++ calls w /\
    Forall (passCall cluster) new /\
    Forall (fun c => isClusterUpdate c = false) (tail new).
Proof.
  intros Hpass. apply reconcileStatus_inv in Hpass as (g & w1 & Hget & Hcase).
  apply getDeployment_inv in Hget as [Hlog _].
  pose proof Hlog as (G1 & G2 & G3 & _ & _ & G6 & _).
  assert (Hquiet : w' = w1 ->
    configMaps w' = configMaps w /\ deployments w' = deployments w /\
    services w' = services w /\
    exists new,
      calls w' = new ++ calls w /\
      Forall (passCall cluster) new /\
      Forall (fun c => isClusterUpdate c = false) (tail new)).
  { intros ->. do 3 (split; [done|]). eexists [_]. split; [done|].
    split; [by constructor|done]. }
  destruct g as [e|dep]; [by destruct Hcase as [_ ->]; apply Hquiet|].
  destruct (trigger cluster dep); [|by destruct Hcase as (_ & _ & ->); apply Hquiet].
  destruct (GetClusterIDFromClusterAnnotations cluster) as [e|clusterID];
    [by destruct Hcase as (_ & _ & ->); apply Hquiet|].
  assert (Hloop : forall r2 w2,
    readinessLoop fuel cluster clusterID w1 = Return (r2, w2) ->
    configMaps w2 = configMaps w /\ deployments w2 = deployments w /\
    services w2 = services w /\
    exists new,
      calls w2 = new ++ calls w /\
      Forall (fun c => passCall cluster c /\ isClusterUpdate c = false) new).
  { intros r2 w2 Hloop. unfold readinessLoop in Hloop.
    apply forLoop_loopRun in Hloop as (l & Hrun & _).
    pose proof (readiness_run_loopStep _ _ _ _ _ _ _ Hrun) as (L1 & L2 & L3 & _).
    rewrite L1, L2, L3. do 3 (split; [done|]).
    assert (Htr : traced (fun c => passCall cluster c /\ isClusterUpdate c = false)
                         w1 w2).
    { revert Hrun. apply loopRun_preserves.
      - apply traced_refl.
      - apply traced_trans.
      - intros j x e y. apply statusLoopBody_traced. }
    destruct Htr as (new & Hcalls & Hall).
    exists (new ++ [GetDeployment (Namespace (ClusterMeta cluster),
                                   Name (ClusterMeta cluster))]).
    rewrite Hcalls, G6, <- app_assoc. split; [done|].
    apply Forall_app. split; [done|]. by constructor. }
  destruct Hcase as [(e & Hrun & _ & _)|(w2 & Hrun & -> & Hupd)].
  - destruct (Hloop _ _ Hrun) as (? & ? & ? & new & Hcalls & Hall).
    do 3 (split; [done|]). exists new. split; [done|].
    split; [by eapply Forall_impl; [exact Hall|]; intros c [? _]|].
    destruct new as [|c new]; [done|]. simpl.
    apply Forall_cons in Hall as [_ Hall].
    by eapply Forall_impl; [exact Hall|]; intros c' [_ ?].
  - destruct (Hloop _ _ Hrun) as (L1 & L2 & L3 & new & Hcalls & Hall).
    apply updateClusterStatus_inv in Hupd as (U1 & U2 & U3 & _ & U5 & _).
    rewrite U1, U2, U3. do 3 (split; [done|]).
    eexists (_ :: new). rewrite U5, Hcalls. split; [done|]. split.
    + constructor; [done|]. by eapply Forall_impl; [exact Hall|]; intros c [? _].
    + simpl. by eapply Forall_impl; [exact Hall|]; intros c [_ ?].
Qed.

End HappyPath.

(** ** The entry point *)

Lemma noWrite_refl w : noWrite w w.
Proof. by unfold noWrite, sameObjects. Qed.

Lemma noWrite_trans w1 w2 w3 : noWrite w1 w2 -> noWrite w2 w3 -> noWrite w1 w3.
Proof.
  intros [(A1 & A2 & A3 & A4 & A5) A6] [(B1 & B2 & B3 & B4 & B5) B6].
  unfold noWrite, sameObjects.
  by rewrite B1, B2, B3, B4, B5, B6, A1, A2, A3, A4, A5, A6.
Qed.

Lemma request_noWrite w f w1 : request w = (f, w1) -> noWrite w w1.
Proof.
  intros Hreq. apply request_inv in Hreq as (H1 & H2 & H3 & H4 & H5 & H6 & _).
  unfold noWrite, sameObjects, writes. by rewrite H1, H2, H3, H4, H5, H6.
Qed.

Lemma setWorld_id s : setWorld (world s) s = s.
Proof. by destruct s. Qed.

(** The read of the Cluster: what it returns and what it leaves. *)
Lemma getCluster_inv n s g s1 :
  getCluster n s = (g, s1) ->
  clusterObjects s1 = clusterObjects s /\ storages s1 = storages s /\
  noWrite (world s) (world s1) /\ calls (world s1) = calls (world s) /\
  (faults (world s) = [] -> world s1 = world s) /\
  match g with
  | inr (cluster, name) =>
      exists o st,
        clusterObjects s !! n = Some o /\ clusters (world s) !! n = Some st /\
        name = SpecStorage o /\
        cluster =
          {| ClusterMeta :=
               {| Namespace := n.1; Name := n.2;
                  Annotations := Annotations (StoredMeta o);
                  OwnerReferences := OwnerReferences (StoredMeta o) |};
             Spec := StoredSpec o; Status := st |}
  | inl e =>
      (e = StatusNotFound /\
       (clusterObjects s !! n = None \/ clusters (world s) !! n = None)) \/
      ((exists code, e = ClientFailure code) /\ faults (world s) <> [])
  end.
Proof.
  unfold getCluster. destruct (request (world s)) as [f w1] eqn:Hreq.
  pose proof (request_noWrite _ _ _ Hreq) as Hnw.
  pose proof (request_inv _ _ _ Hreq) as (_ & _ & _ & _ & Hcl & Hcalls & Hok).
  assert (Hsame : faults (world s) = [] -> w1 = world s).
  { intros Hfs. unfold request in Hreq. rewrite Hfs in Hreq. by inversion Hreq. }
  destruct f as [e|].
  - intros [= <- <-]. simpl. do 5 (split; [done|]). right.
    split; [by eapply request_failure|]. intros Hfs. by specialize (Hok Hfs).
  - rewrite Hcl.
    destruct (clusterObjects s !! n) as [o|] eqn:Ho;
      [destruct (clusters (world s) !! n) as [st|] eqn:Hst|];
      intros [= <- <-]; simpl; do 5 (split; [done|]).
    + by exists o, st.
    + left. split; [done|by right].
    + left. split; [done|by left].
Qed.

Lemma getStorage_inv n s g s1 :
  getStorage n s = (g, s1) ->
  clusterObjects s1 = clusterObjects s /\ storages s1 = storages s /\
  noWrite (world s) (world s1) /\ calls (world s1) = calls (world s) /\
  (faults (world s) = [] -> world s1 = world s) /\
  match g with
  | inr storage => storages s !! n = Some storage
  | inl e =>
      (e = StatusNotFound /\ storages s !! n = None) \/
      ((exists code, e = ClientFailure code) /\ faults (world s) <> [])
  end.
Proof.
  unfold getStorage. destruct (request (world s)) as [f w1] eqn:Hreq.
  pose proof (request_noWrite _ _ _ Hreq) as Hnw.
  pose proof (request_inv _ _ _ Hreq) as (_ & _ & _ & _ & _ & Hcalls & Hok).
  assert (Hsame : faults (world s) = [] -> w1 = world s).
  { intros Hfs. unfold request in Hreq. rewrite Hfs in Hreq. by inversion Hreq. }
  destruct f as [e|].
  - intros [= <- <-]. simpl. do 5 (split; [done|]). right.
    split; [by eapply request_failure|]. intros Hfs. by specialize (Hok Hfs).
  - destruct (storages s !! n) as [o|] eqn:Ho;
      intros [= <- <-]; simpl; do 5 (split; [done|]); [done|by left].
Qed.

Section Entry.
Context `{Externals}.

(** Once both reads have succeeded, [Reconcile] is its four steps, and it
    never asks for a requeue. *)
Lemma Reconcile_steps fuel req s cluster name s1 storage s2 :
  getCluster req s = (inr (cluster, name), s1) ->
  getStorage name s1 = (inr storage, s2) ->
  Reconcile fuel req s =
  match reconcileSteps fuel cluster storage (world s2) with
  | Return (e, w) => Return ({| Requeue := false |}, e, setWorld w s2)
  | Panic m => Panic m
  | OutOfFuel => OutOfFuel
  end.
Proof.
  intros Hc Hs. unfold Reconcile, reconcileSteps. rewrite Hc, Hs.
  destruct (reconcileConfigMap _ _ _ _) as [[[e|] w3]| |]; try done.
  destruct (reconcileDeployment _ _ _) as [[e|] w4]; [done|].
  destruct (reconcileService _ _ _) as [[e|] w5]; [done|].
  by destruct (reconcileStatus _ _ _ _) as [[[[e|] c] w6]| |].
Qed.

(** X12: when the Cluster the request names is not on the server, or the
    storage it refers to is not, and the reads do not fail, [Reconcile]
    returns an empty result and no error and leaves the server exactly as
    it was: no step runs. *)
Theorem Reconcile_missing_is_noop fuel req s :
  faults (world s) = [] ->
  (clusterObjects s !! req = None \/ clusters (world s) !! req = None \/
   exists o, clusterObjects s !! req = Some o /\ storages s !! SpecStorage o = None) ->
  Reconcile fuel req s = Return ({| Requeue := false |}, None, s).
Proof.
  intros Hfs Hmissing. unfold Reconcile.
  destruct (getCluster req s) as [g s1] eqn:Hget.
  pose proof (getCluster_inv _ _ _ _ Hget) as (C1 & C2 & _ & _ & Hw & Hres).
  assert (Hs1 : s1 = s).
  { destruct s1 as [w1 co1 st1], s as [w0 co0 st0]. simpl in *.
    by rewrite C1, C2, (Hw Hfs). }
  subst s1. destruct g as [e|[cluster name]].
  - destruct Hres as [[-> _]|[_ ?]]; done.
  - destruct Hres as (o & st & Ho & Hst & -> & _).
    destruct Hmissing as [Hnone|[Hnone|(o' & Ho' & Hnone)]];
      [by rewrite Hnone in Ho|by rewrite Hnone in Hst|].
    rewrite Ho in Ho'. injection Ho' as <-.
    destruct (getStorage (SpecStorage o) s) as [g2 s2] eqn:Hget2.
    pose proof (getStorage_inv _ _ _ _ Hget2) as (S1 & S2 & _ & _ & Hw2 & Hres2).
    assert (Hs2 : s2 = s).
    { destruct s2 as [w1 co1 st1], s as [w0 co0 st0]. simpl in *.
      by rewrite S1, S2, (Hw2 Hfs). }
    subst s2. destruct g2 as [e|storage].
    + destruct Hres2 as [[-> _]|[_ ?]]; done.
    + by rewrite Hnone in Hres2.
Qed.

(** X13: [Reconcile] asks for a requeue only when the read of the Cluster
    or of its storage failed other than by not-found: its error is then
    that failure, and no step has run, so nothing was called or written.
    An error of one of the four steps is returned without a requeue, and
    so is success. *)
Theorem Reconcile_requeue_only_for_reads fuel req s res e s' :
  Reconcile fuel req s = Return (res, e, s') ->
  (Requeue res = true ->
   (exists code, e = Some (ClientFailure code)) /\
   calls (world s') = calls (world s) /\ noWrite (world s) (world s') /\
   faults (world s) <> []) /\
  (e = None -> Requeue res = false) /\
  clusterObjects s' = clusterObjects s /\ storages s' = storages s.
Proof.
  intros Hrun. unfold Reconcile in Hrun.
  destruct (getCluster req s) as [g s1] eqn:Hget.
  pose proof (getCluster_inv _ _ _ _ Hget) as (C1 & C2 & Cnw & Ccalls & Cw & Hres).
  destruct g as [err|[cluster name]].
  { destruct (IsNotFound err) eqn:Hnf; inversion Hrun; subst; simpl.
    - done.
    - split; [|done]. intros _.
      destruct Hres as [[-> _]|[[code ->] Hfs]]; [done|].
      split; [by exists code|done]. }
  destruct (getStorage name s1) as [g2 s2] eqn:Hget2.
  pose proof (getStorage_inv _ _ _ _ Hget2) as (S1 & S2 & Snw & Scalls & _ & Hres2).
  assert (Hkeep : clusterObjects s2 = clusterObjects s /\ storages s2 = storages s)
    by (by rewrite S1, S2).
  destruct g2 as [err|storage].
  { destruct (IsNotFound err) eqn:Hnf; inversion Hrun; subst; simpl.
    - done.
    - split; [|done]. intros _.
      destruct Hres2 as [[-> _]|[[code ->] Hfs]]; [done|].
      split; [by exists code|]. split; [by rewrite Scalls|].
      split; [by eapply noWrite_trans|].
      intros Hnil. apply Hfs. by rewrite (Cw Hnil). }
  destruct (reconcileConfigMap _ _ _ _) as [[[err|] w3]| |]; try done.
  { by inversion Hrun; subst. }
  destruct (reconcileDeployment _ _ _) as [[err|] w4]; [by inversion Hrun; subst|].
  destruct (reconcileService _ _ _) as [[err|] w5]; [by inversion Hrun; subst|].
  destruct (reconcileStatus _ _ _ _) as [[[[err|] c] w6]| |]; try done;
    by inversion Hrun; subst.
Qed.

End Entry.

Section Converged.
Context `{Externals}.

Lemma reconcileConfigMap_keeps fuel cluster storage w e w' :
  reconcileConfigMap fuel cluster storage w = Return (e, w') ->
  deployments w' = deployments w /\ services w' = services w /\
  clusters w' = clusters w.
Proof.
  intros Hstep. apply reconcileConfigMap_inv in Hstep as (g & w1 & Hget & Hcase).
  apply getConfigMap_inv in Hget as [(_ & G2 & G3 & _ & G5 & _) _].
  destruct g as [err|cm]; [|by destruct Hcase as [_ ->]].
  destruct (IsNotFound err); [|by destruct Hcase as [_ ->]].
  apply addConfigMap_inv in Hcase
    as [[-> _]|(config & data & meta' & _ & _ & _ & Hcreate)]; [done|].
  apply createConfigMap_inv in Hcreate as (C1 & C2 & _ & C4 & _).
  by rewrite C1, C2, C4.
Qed.

Lemma reconcileDeployment_keeps cluster storage w e w' :
  reconcileDeployment cluster storage w = (e, w') ->
  configMaps w' = configMaps w /\ services w' = services w /\
  clusters w' = clusters w.
Proof.
  intros Hstep. apply reconcileDeployment_inv in Hstep as (g & w1 & Hget & Hcase).
  apply getDeployment_inv in Hget as [(G1 & _ & G3 & _ & G5 & _) _].
  destruct g as [err|dep]; [|by destruct Hcase as [_ ->]].
  destruct (IsNotFound err); [|by destruct Hcase as [_ ->]].
  destruct Hcase as [[-> _]|(meta' & _ & Hcreate)]; [done|].
  apply createDeployment_inv in Hcreate as (C1 & C2 & _ & C4 & _).
  by rewrite C1, C2, C4.
Qed.

Lemma reconcileService_keeps cluster storage w e w' :
  reconcileService cluster storage w = (e, w') ->
  configMaps w' = configMaps w /\ deployments w' = deployments w /\
  clusters w' = clusters w.
Proof.
  intros Hstep. apply reconcileService_inv in Hstep as (g & w1 & Hget & Hcase).
  apply getService_inv in Hget as [(G1 & G2 & _ & _ & G5 & _) _].
  destruct g as [err|service]; [|by destruct Hcase as [_ ->]].
  destruct (IsNotFound err); [|by destruct Hcase as [_ ->]].
  destruct Hcase as [[-> _]|(meta' & _ & Hcreate)]; [done|].
  apply createService_inv in Hcreate as (C1 & C2 & _ & C4 & _).
  by rewrite C1, C2, C4.
Qed.

(** A pass that returned without error leaves nothing for a further pass:
    the guard is false for the Cluster object it returns, whose status is
    the one the server holds if it held the one the pass was given. *)
Lemma reconcileStatus_settles fuel cluster storage w cluster' w' :
  reconcileStatus fuel cluster storage w = Return (None, cluster', w') ->
  settled cluster' w' /\
  ClusterMeta cluster' = ClusterMeta cluster /\ Spec cluster' = Spec cluster /\
  configMaps w' = configMaps w /\ deployments w' = deployments w /\
  services w' = services w /\
  ((cluster' = cluster /\ clusters w' = clusters w) \/
   clusters w' = <[metaKey (ClusterMeta cluster) := Status cluster']> (clusters w)).
Proof.
  intros Hpass. unfold reconcileStatus in Hpass.
  destruct (getDeployment _ w) as [g w1] eqn:Hget.
  pose proof (getDeployment_inv _ _ _ _ Hget) as [Hlog Hres].
  pose proof Hlog as (G1 & G2 & G3 & _ & G5 & _).
  destruct g as [e|dep].
  - destruct (IsNotFound e) eqn:Hnf; [|done]. inversion Hpass; subst.
    split; [|by repeat split; try left].
    intros dep. rewrite G2.
    destruct Hres as [[_ ->]|[[code ->] _]]; done.
  - destruct (trigger cluster dep) eqn:Hguard.
    + destruct (GetClusterIDFromClusterAnnotations cluster) as [e|clusterID]; [done|].
      destruct (readinessLoop _ _ _ _) as [[[e|] w2]| |] eqn:Hloop; try done.
      destruct (updateClusterStatus _ w2) as [err w3] eqn:Hupd.
      inversion Hpass; subst.
      unfold readinessLoop in Hloop. apply forLoop_loopRun in Hloop as (l & Hrun & _).
      apply readiness_run_loopStep in Hrun as (L1 & L2 & L3 & L4 & _).
      apply updateClusterStatus_inv in Hupd as (U1 & U2 & U3 & _ & _ & _ & _ & _ & U7).
      split; [intros dep' _; unfold trigger; simpl; by rewrite Z.ltb_irrefl|].
      do 2 (split; [done|]).
      rewrite U1, U2, U3, L1, L2, L3. do 3 (split; [done|]).
      right. by rewrite U7, L4, G5.
    + inversion Hpass; subst.
      split; [|by repeat split; try left].
      intros dep'. rewrite G2, Hres. by intros [= <-].
Qed.

Lemma settled_quiet fuel cluster storage w :
  settled cluster w ->
  exists e w',
    reconcileStatus fuel cluster storage w = Return (e, cluster, w') /\
    logged (GetDeployment (Namespace (ClusterMeta cluster), Name (ClusterMeta cluster)))
           w w' /\
    (faults w = [] -> e = None).
Proof.
  intros Hsettled.
  destruct (getDeployment (Namespace (ClusterMeta cluster),
                           Name (ClusterMeta cluster)) w) as [g w1] eqn:Hget.
  pose proof (getDeployment_inv _ _ _ _ Hget) as [Hlog Hres].
  eexists _, w1. split; [|split; [exact Hlog|]].
  - apply reconcileStatus_not_triggered with (r := g); [exact Hget|].
    destruct g as [e|dep]; [done|]. by apply Hsettled.
  - intros Hfs. destruct g as [e|dep]; [|done].
    destruct Hres as [[-> _]|[_ ?]]; done.
Qed.

(** When the four steps have returned without error, the three objects
    are on the server and the pass is settled. *)
Lemma steps_converged fuel cluster storage w w' :
  ownerKeepsName ->
  reconcileSteps fuel cluster storage w = Return (None, w') ->
  let name := (Namespace (ClusterMeta cluster), Name (ClusterMeta cluster)) in
  exists cluster',
    ClusterMeta cluster' = ClusterMeta cluster /\ Spec cluster' = Spec cluster /\
    is_Some (configMaps w' !! name) /\ is_Some (deployments w' !! name) /\
    is_Some (services w' !! name) /\
    settled cluster' w' /\
    (clusters w !! metaKey (ClusterMeta cluster) = Some (Status cluster) ->
     clusters w' !! metaKey (ClusterMeta cluster) = Some (Status cluster')).
Proof.
  intros Hkeep Hsteps name. unfold reconcileSteps in Hsteps.
  destruct (reconcileConfigMap _ _ _ _) as [[[e|] w3]| |] eqn:Hcm; try done.
  destruct (reconcileDeployment _ _ w3) as [[e|] w4] eqn:Hdep; [done|].
  destruct (reconcileService _ _ w4) as [[e|] w5] eqn:Hsvc; [done|].
  destruct (reconcileStatus _ _ _ w5) as [[[r cluster'] w6]| |] eqn:Hst; try done.
  injection Hsteps as -> ->.
  pose proof (reconcileConfigMap_present _ _ _ _ _ Hkeep Hcm) as Pcm.
  pose proof (reconcileDeployment_present _ _ _ _ Hkeep Hdep) as Pdep.
  pose proof (reconcileService_present _ _ _ _ Hkeep Hsvc) as Psvc.
  apply reconcileConfigMap_keeps in Hcm as (_ & _ & K1).
  apply reconcileDeployment_keeps in Hdep as (D1 & _ & K2).
  apply reconcileService_keeps in Hsvc as (S1 & S2 & K3).
  apply reconcileStatus_settles in Hst as (Hset & Hmeta & Hspec & T1 & T2 & T3 & Hcl).
  exists cluster'. do 2 (split; [done|]). fold name in Pcm, Pdep, Psvc.
  split; [by rewrite T1, S1, D1|]. split; [by rewrite T2, S2|].
  split; [by rewrite T3|]. split; [done|].
  intros Hstored. destruct Hcl as [[-> ->]| ->].
  - by rewrite K3, K2, K1.
  - by rewrite lookup_insert_eq.
Qed.

(** On a server that holds the three objects and on which the pass is
    settled, the four steps only read. *)
Lemma steps_quiet fuel cluster storage w :
  let name := (Namespace (ClusterMeta cluster), Name (ClusterMeta cluster)) in
  is_Some (configMaps w !! name) -> is_Some (deployments w !! name) ->
  is_Some (services w !! name) -> settled cluster w ->
  exists e w',
    reconcileSteps fuel cluster storage w = Return (e, w') /\
    noWrite w w' /\ (faults w = [] -> e = None).
Proof.
  intros name Pcm Pdep Psvc Hset. unfold reconcileSteps.
  destruct (reconcileConfigMap_quiet fuel cluster storage w Pcm)
    as (e3 & w3 & -> & L3 & O3).
  pose proof (logged_noWrite _ _ _ L3 eq_refl) as N3.
  destruct L3 as (_ & A2 & A3 & _ & _ & _ & F3).
  destruct e3 as [e|]; [exists (Some e), w3; split; [done|]; split; [done|];
                        intros Hfs; by specialize (O3 Hfs)|].
  fold name in Pdep. rewrite <- A2 in Pdep.
  destruct (reconcileDeployment_quiet cluster storage w3 Pdep)
    as (e4 & w4 & -> & L4 & O4).
  pose proof (noWrite_trans _ _ _ N3 (logged_noWrite _ _ _ L4 eq_refl)) as N4.
  destruct L4 as (_ & B2 & B3 & _ & _ & _ & F4).
  destruct e4 as [e|]; [exists (Some e), w4; split; [done|]; split; [done|];
                        intros Hfs; by specialize (O4 (F3 Hfs))|].
  fold name in Psvc. rewrite <- A3, <- B3 in Psvc.
  destruct (reconcileService_quiet cluster storage w4 Psvc)
    as (e5 & w5 & -> & L5 & O5).
  pose proof (noWrite_trans _ _ _ N4 (logged_noWrite _ _ _ L5 eq_refl)) as N5.
  destruct L5 as (_ & C2 & _ & _ & _ & _ & F5).
  destruct e5 as [e|]; [exists (Some e), w5; split; [done|]; split; [done|];
                        intros Hfs; by specialize (O5 (F4 (F3 Hfs)))|].
  assert (Hset5 : settled cluster w5).
  { intros dep. rewrite C2, B2, A2. apply Hset. }
  destruct (settled_quiet fuel cluster storage w5 Hset5) as (e6 & w6 & -> & L6 & O6).
  exists e6, w6. split; [done|].
  split; [exact (noWrite_trans _ _ _ N5 (logged_noWrite _ _ _ L6 eq_refl))|].
  intros Hfs. apply O6. auto.
Qed.

End Converged.

Section Idempotent.
Context `{Externals}.

(** X14: [Reconcile] converges in one successful run.  After a run that
    returned no error, a further run for the same request on the server
    as it was left performs no write, whatever calls fail; when none
    fails it returns no error and asks for no requeue. *)
Theorem Reconcile_idempotent fuel req s res s' :
  ownerKeepsName ->
  Reconcile fuel req s = Return (res, None, s') ->
  forall fuel2 fs, exists res2 e2 s'',
    Reconcile fuel2 req (setWorld (setFaults fs (world s')) s')
      = Return (res2, e2, s'') /\
    noWrite (world s') (world s'') /\
    (fs = [] -> e2 = None /\ Requeue res2 = false).
Proof.
  intros Hkeep Hfirst fuel2 fs.
  set (s0 := setWorld (setFaults fs (world s')) s').
  assert (N0 : noWrite (world s') (world s0)) by done.
  destruct (getCluster req s0) as [g t1] eqn:Hget.
  pose proof (getCluster_inv _ _ _ _ Hget) as (C1 & C2 & Cnw & _ & Cw & Hres).
  destruct g as [e|[cluster2 name2]].
  { unfold Reconcile. rewrite Hget.
    destruct (IsNotFound e) eqn:Hnf; eexists _, _, t1;
      (split; [done|]); (split; [by eapply noWrite_trans|]).
    - done.
    - intros ->. destruct Hres as [[-> _]|[_ ?]]; done. }
  destruct (getStorage name2 t1) as [g2 t2] eqn:Hget2.
  pose proof (getStorage_inv _ _ _ _ Hget2) as (S1 & S2 & Snw & _ & Sw & Hres2).
  pose proof (noWrite_trans _ _ _ (noWrite_trans _ _ _ N0 Cnw) Snw) as N2.
  destruct g2 as [e|storage2].
  { unfold Reconcile. rewrite Hget, Hget2.
    destruct (IsNotFound e) eqn:Hnf; eexists _, _, t2;
      (split; [done|]); (split; [done|]).
    - done.
    - intros ->. destruct Hres2 as [[-> _]|[_ Hfs]]; [done|].
      destruct Hfs. by rewrite (Cw eq_refl). }
  (* The second run has read the Cluster and its storage: so had the first. *)
  destruct Hres as (o & st2 & Ho & Hst2 & -> & Hc2).
  pose proof Hfirst as Hrun. unfold Reconcile in Hrun.
  destruct (getCluster req s) as [g s1] eqn:Hget1.
  pose proof (getCluster_inv _ _ _ _ Hget1) as (D1 & D2 & Dnw & _ & _ & Hres1).
  destruct g as [e|[cluster name]].
  { exfalso. destruct (IsNotFound e) eqn:Hnf; [|done]. inversion Hrun; subst s1.
    destruct Hres1 as [[_ Hnone]|[[code ->] _]]; [|done].
    destruct Dnw as [(_ & _ & _ & _ & Dcl) _].
    simpl in Ho, Hst2. rewrite D1 in Ho. rewrite Dcl in Hst2.
    destruct Hnone as [Hnone|Hnone]; congruence. }
  destruct Hres1 as (o1 & st & Ho1 & Hst & -> & Hc).
  destruct (getStorage (SpecStorage o1) s1) as [g3 s2] eqn:Hget3.
  pose proof (getStorage_inv _ _ _ _ Hget3) as (E1 & E2 & Enw & _ & _ & Hres3).
  destruct g3 as [e|storage].
  { exfalso. destruct (IsNotFound e) eqn:Hnf; [|done]. inversion Hrun; subst s2.
    destruct Hres3 as [[_ Hnone]|[[code ->] _]]; [|done].
    simpl in Ho, Hres2. rewrite E1, D1 in Ho. rewrite Ho1 in Ho. injection Ho as <-.
    rewrite C2 in Hres2. simpl in Hres2. rewrite E2 in Hres2. congruence. }
  clear Hrun. rewrite (Reconcile_steps _ _ _ _ _ _ _ _ Hget1 Hget3) in Hfirst.
  destruct (reconcileSteps fuel cluster storage (world s2)) as [[e w6]| |] eqn:Hsteps;
    try done.
  injection Hfirst as _ -> <-. simpl in *.
  assert (Hkey : metaKey (ClusterMeta cluster) = req)
    by (rewrite Hc; by destruct req).
  assert (Hstored : clusters (world s2) !! metaKey (ClusterMeta cluster)
                    = Some (Status cluster)).
  { rewrite Hkey. destruct Enw as [(_ & _ & _ & _ & ->) _].
    destruct Dnw as [(_ & _ & _ & _ & ->) _]. by rewrite Hst, Hc. }
  destruct (steps_converged _ _ _ _ _ Hkeep Hsteps)
    as (cluster' & Hmeta & Hspec & Pcm & Pdep & Psvc & Hset & Hcl).
  specialize (Hcl Hstored). rewrite Hkey in Hcl.
  assert (Hsame : cluster2 = cluster').
  { rewrite E1, D1, Ho1 in Ho. injection Ho as <-.
    rewrite Hcl in Hst2. injection Hst2 as <-.
    rewrite Hc2. destruct cluster' as [m sp stt]. simpl in *.
    rewrite Hmeta, Hspec, Hc. done. }
  subst cluster2.
  destruct N2 as [(O1 & O2 & O3 & _ & _) Hwr].
  assert (Hname : (Namespace (ClusterMeta cluster'), Name (ClusterMeta cluster'))
                  = (Namespace (ClusterMeta cluster), Name (ClusterMeta cluster)))
    by by rewrite Hmeta.
  destruct (steps_quiet fuel2 cluster' storage2 (world t2))
    as (e7 & w7 & Hsteps2 & N7 & O7).
  - by rewrite Hname, O1.
  - by rewrite Hname, O2.
  - by rewrite Hname, O3.
  - intros dep. rewrite O2. apply Hset.
  - rewrite (Reconcile_steps _ _ _ _ _ _ _ _ Hget Hget2), Hsame, Hsteps2.
    eexists _, _, _. split; [done|]. simpl. split.
    + eapply noWrite_trans; [|exact N7].
      exact (noWrite_trans _ _ _ (noWrite_trans _ _ _ N0 Cnw) Snw).
    + intros ->. split; [|done]. apply O7.
      by rewrite (Sw ltac:(by rewrite (Cw eq_refl))), (Cw eq_refl).
Qed.

End Idempotent.

(** * The further properties at concrete inputs *)

Lemma fixture_ownerKeepsName : ownerKeepsName (H := Fixture.externals).
Proof. intros cluster m m' Hown. injection Hown as <-. by split. Qed.

Lemma get_or_create_frame_witness :
  exists e w',
    reconcileConfigMap (H := Fixture.externals) 4 Fixture.c32 Fixture.storage
      Scenario.wEmptyWorld = Return (e, w') /\
    deployments w' = deployments Scenario.wEmptyWorld /\
    configMaps Scenario.wEmptyWorld ⊆ configMaps w'.
Proof.
  set (w' := Fixture.finalWorld Scenario.wEmptyWorld
               (reconcileConfigMap (H := Fixture.externals) 4 Fixture.c32
                  Fixture.storage Scenario.wEmptyWorld)).
  assert (Hstep : reconcileConfigMap (H := Fixture.externals) 4 Fixture.c32
                    Fixture.storage Scenario.wEmptyWorld = Return (None, w'))
    by (vm_compute; reflexivity).
  destruct (proj1 (get_or_create_frame (H := Fixture.externals) 4 Fixture.c32
                     Fixture.storage Scenario.wEmptyWorld) None w' Hstep)
    as (Hdep & _ & _ & _ & Hsub & _).
  exists None, w'. split; [exact Hstep|]. split; [exact Hdep|exact Hsub].
Defined.

Lemma reconcileConfigMap_creates_witness :
  exists cm w',
    reconcileConfigMap (H := Fixture.externals) 4 Fixture.c32 Fixture.storage
      Scenario.wEmptyWorld = Return (None, w') /\
    configMaps w' = <[Fixture.name := cm]> (configMaps Scenario.wEmptyWorld) /\
    Data cm = {[ clusterConfigFile := "{}"%string ]}.
Proof.
  set (config :=
    match newClusterConfig (H := Fixture.externals) 4 Fixture.c32 with
    | Return (inr c) => c
    | _ => {| api.Members := []; api.Partitions := [] |}
    end).
  destruct (reconcileConfigMap_creates (H := Fixture.externals) 4 Fixture.c32
              Fixture.storage Scenario.wEmptyWorld config "{}"
              {| Namespace := "default"; Name := "raft"; Annotations := ∅;
                 OwnerReferences := [ {| OwnerName := "raft"; Controller := true |} ] |}
              fixture_ownerKeepsName)
    as (w' & Hstep & Hcm & _).
  - reflexivity.
  - discriminate.
  - reflexivity.
  - vm_compute. reflexivity.
  - reflexivity.
  - reflexivity.
  - eexists _, w'. split; [exact Hstep|]. split; [exact Hcm|reflexivity].
Defined.

Lemma reconcile_creates_deployment_and_service_witness :
  exists w',
    reconcileDeployment (H := Fixture.externals) Fixture.c32 Fixture.storage
      Scenario.wEmptyWorld = (None, w') /\
    is_Some (deployments w' !! Fixture.name).
Proof.
  destruct (proj1 (reconcile_creates_deployment_and_service (H := Fixture.externals)
                     Fixture.c32 Fixture.storage Scenario.wEmptyWorld
                     {| Namespace := "default"; Name := "raft"; Annotations := ∅;
                        OwnerReferences :=
                          [ {| OwnerName := "raft"; Controller := true |} ] |}
                     fixture_ownerKeepsName eq_refl ltac:(discriminate) eq_refl)
              eq_refl) as (w' & Hstep & Hdeps & _).
  exists w'. split; [exact Hstep|]. rewrite Hdeps.
  change (Namespace (ClusterMeta Fixture.c32), Name (ClusterMeta Fixture.c32))
    with Fixture.name.
  rewrite lookup_insert_eq. by eexists.
Defined.

Lemma build_failure_sends_no_create_witness :
  reconcileConfigMap (H := Fixture.externals) 4 Fixture.cNoShard Fixture.storage
    Scenario.wEmptyWorld
  = Return (Some MissingClusterAnnotation,
            record (GetConfigMap Fixture.name) Scenario.wEmptyWorld).
Proof.
  apply (proj1 (build_failure_sends_no_create (H := Fixture.externals) 4
                  Fixture.cNoShard Fixture.storage Scenario.wEmptyWorld
                  MissingClusterAnnotation eq_refl)).
  - reflexivity.
  - left. reflexivity.
Defined.

Lemma get_or_create_idempotent_witness :
  exists w' e w3,
    reconcileConfigMap (H := Fixture.externals) 4 Fixture.c32 Fixture.storage
      Scenario.wEmptyWorld = Return (None, w') /\
    reconcileConfigMap (H := Fixture.externals) 4 Fixture.c32 Fixture.storage w'
      = Return (e, w3) /\
    noWrite w' w3.
Proof.
  set (w' := Fixture.finalWorld Scenario.wEmptyWorld
               (reconcileConfigMap (H := Fixture.externals) 4 Fixture.c32
                  Fixture.storage Scenario.wEmptyWorld)).
  assert (Hstep : reconcileConfigMap (H := Fixture.externals) 4 Fixture.c32
                    Fixture.storage Scenario.wEmptyWorld = Return (None, w'))
    by (vm_compute; reflexivity).
  destruct (proj1 (get_or_create_idempotent (H := Fixture.externals) 4 Fixture.c32
                     Fixture.storage Scenario.wEmptyWorld fixture_ownerKeepsName)
              w' Hstep 4%nat w' eq_refl) as (e & w3 & Hagain & Hnw & _).
  exists w', e, w3. split; [exact Hstep|]. split; [exact Hagain|exact Hnw].
Defined.

Lemma readiness_pass_marks_owned_witness :
  exists w',
    reconcileStatus (H := Fixture.externals) 4 Fixture.c32 Fixture.storage
      Fixture.wFresh
      = Return (None, setReadyPartitions 3 Fixture.c32, w') /\
    partitions w' !! ("default", "raft-5")%string = Some {| Ready := true |}.
Proof.
  destruct (readiness_pass_marks_owned (H := Fixture.externals) 4 Fixture.c32
              Fixture.storage Fixture.wFresh (Fixture.deployment 1 1) 2)
    as (w' & Hpass & Hready & _).
  - reflexivity.
  - vm_compute. reflexivity.
  - reflexivity.
  - reflexivity.
  - simpl. lia.
  - lia.
  - reflexivity.
  - simpl. lia.
  - intros j Hj. simpl in Hj.
    assert (Hcases : j = 4 \/ j = 5 \/ j = 6) by lia.
    destruct Hcases as [->|[->| ->]];
      (split; [vm_compute; eexists; reflexivity|vm_compute; discriminate]).
  - discriminate.
  - vm_compute. eexists. reflexivity.
  - exists w'. split; [exact Hpass|]. apply (Hready 5). simpl. lia.
Defined.

Lemma readiness_pass_calls_witness :
  exists r cluster' w' new,
    reconcileStatus (H := Fixture.externals) 4 Fixture.c32 Fixture.storage
      Fixture.wFail = Return (r, cluster', w') /\
    calls w' = new ++ calls Fixture.wFail /\
    Forall (passCall Fixture.c32) new.
Proof.
  set (w' := Fixture.finalWorld Fixture.wFail
               (reconcileStatus (H := Fixture.externals) 4 Fixture.c32
                  Fixture.storage Fixture.wFail)).
  assert (Hpass : reconcileStatus (H := Fixture.externals) 4 Fixture.c32
                    Fixture.storage Fixture.wFail
                  = Return (Some (ClientFailure 7), Fixture.c32, w'))
    by (vm_compute; reflexivity).
  destruct (readiness_pass_calls (H := Fixture.externals) 4 Fixture.c32
              Fixture.storage Fixture.wFail _ _ _ Hpass)
    as (_ & _ & _ & new & Hcalls & Hall & _).
  exists (Some (ClientFailure 7)), Fixture.c32, w', new.
  split; [exact Hpass|]. split; [exact Hcalls|exact Hall].
Defined.

Lemma Reconcile_missing_is_noop_witness :
  Reconcile (H := Fixture.externals) 1 Fixture.name Scenario.sEmpty
  = Return ({| Requeue := false |}, None, Scenario.sEmpty).
Proof.
  apply Reconcile_missing_is_noop; [reflexivity|]. left. reflexivity.
Defined.

Lemma Reconcile_requeue_only_for_reads_witness :
  exists e s',
    Reconcile (H := Fixture.externals) 1 Fixture.name Scenario.sDown
      = Return ({| Requeue := true |}, e, s') /\
    (exists code, e = Some (ClientFailure code)) /\
    calls (world s') = calls (world Scenario.sDown).
Proof.
  set (s' := Scenario.serverOf Scenario.sDown
               (Reconcile (H := Fixture.externals) 1 Fixture.name Scenario.sDown)).
  assert (Hrun : Reconcile (H := Fixture.externals) 1 Fixture.name Scenario.sDown
                 = Return ({| Requeue := true |}, Some (ClientFailure 503), s'))
    by (vm_compute; reflexivity).
  destruct (Reconcile_requeue_only_for_reads (H := Fixture.externals) 1
              Fixture.name Scenario.sDown _ _ _ Hrun) as (Hreq & _).
  destruct (Hreq eq_refl) as (Hcode & Hcalls & _).
  exists (Some (ClientFailure 503)), s'.
  split; [exact Hrun|]. split; [exact Hcode|exact Hcalls].
Defined.

Lemma Reconcile_idempotent_witness :
  exists s' res2 e2 s'',
    Reconcile (H := Fixture.externals) 5 Fixture.name Scenario.sFresh
      = Return ({| Requeue := false |}, None, s') /\
    Reconcile (H := Fixture.externals) 5 Fixture.name
      (setWorld (setFaults [] (world s')) s') = Return (res2, e2, s'') /\
    noWrite (world s') (world s'') /\ e2 = None.
Proof.
  set (s' := Scenario.serverOf Scenario.sFresh
               (Reconcile (H := Fixture.externals) 5 Fixture.name Scenario.sFresh)).
  assert (Hrun : Reconcile (H := Fixture.externals) 5 Fixture.name Scenario.sFresh
                 = Return ({| Requeue := false |}, None, s'))
    by (vm_compute; reflexivity).
  destruct (Reconcile_idempotent (H := Fixture.externals) 5 Fixture.name
              Scenario.sFresh _ s' fixture_ownerKeepsName Hrun 5%nat [])
    as (res2 & e2 & s'' & Hagain & Hnw & Hok).
  exists s', res2, e2, s''. split; [exact Hrun|]. split; [exact Hagain|].
  split; [exact Hnw|]. exact (proj1 (Hok eq_refl)).
Defined.

(** ** Order and retry *)

Section Order.
Context `{Externals}.

Lemma steps_keep_partitions fuel cluster storage w :
  (forall e w', reconcileConfigMap fuel cluster storage w = Return (e, w') ->
     partitions w' = partitions w) /\
  (forall e w', reconcileDeployment cluster storage w = (e, w') ->
     partitions w' = partitions w) /\
  (forall e w', reconcileService cluster storage w = (e, w') ->
     partitions w' = partitions w).
Proof.
  split; [|split]; intros e w' Hstep.
  - apply reconcileConfigMap_inv in Hstep as (g & w1 & Hget & Hcase).
    apply getConfigMap_inv in Hget as [(_ & _ & _ & G4 & _) _].
    destruct g as [err|cm]; [|by destruct Hcase as [_ ->]].
    destruct (IsNotFound err); [|by destruct Hcase as [_ ->]].
    apply addConfigMap_inv in Hcase
      as [[-> _]|(config & data & meta' & _ & _ & _ & Hcreate)]; [done|].
    apply createConfigMap_inv in Hcreate as (_ & _ & C3 & _). by rewrite C3.
  - apply reconcileDeployment_inv in Hstep as (g & w1 & Hget & Hcase).
    apply getDeployment_inv in Hget as [(_ & _ & _ & G4 & _) _].
    destruct g as [err|dep]; [|by destruct Hcase as [_ ->]].
    destruct (IsNotFound err); [|by destruct Hcase as [_ ->]].
    destruct Hcase as [[-> _]|(meta' & _ & Hcreate)]; [done|].
    apply createDeployment_inv in Hcreate as (_ & _ & C3 & _). by rewrite C3.
  - apply reconcileService_inv in Hstep as (g & w1 & Hget & Hcase).
    apply getService_inv in Hget as [(_ & _ & _ & G4 & _) _].
    destruct g as [err|service]; [|by destruct Hcase as [_ ->]].
    destruct (IsNotFound err); [|by destruct Hcase as [_ ->]].
    destruct Hcase as [[-> _]|(meta' & _ & Hcreate)]; [done|].
    apply createService_inv in Hcreate as (_ & _ & C3 & _). by rewrite C3.
Qed.

(** What every pass that returns leaves as it was, and what a pass that
    returns an error leaves as it was. *)
Lemma reconcileStatus_keeps fuel cluster storage w r cluster' w' :
  reconcileStatus fuel cluster storage w = Return (r, cluster', w') ->
  configMaps w' = configMaps w /\ deployments w' = deployments w /\
  services w' = services w /\
  (forall n, is_Some (partitions w' !! n) <-> is_Some (partitions w !! n)) /\
  (r <> None -> clusters w' = clusters w).
Proof.
  intros Hpass. apply reconcileStatus_inv in Hpass as (g & w1 & Hget & Hcase).
  apply getDeployment_inv in Hget as [Hlog _].
  pose proof (logged_loopStep _ _ _ Hlog eq_refl) as Hstart.
  assert (Hstep : loopStep w w' ->
    configMaps w' = configMaps w /\ deployments w' = deployments w /\
    services w' = services w /\
    (forall n, is_Some (partitions w' !! n) <-> is_Some (partitions w !! n)) /\
    (r <> None -> clusters w' = clusters w)).
  { by intros (? & ? & ? & ? & ? & _). }
  destruct g as [e|dep]; [by destruct Hcase as [_ ->]; apply Hstep|].
  destruct (trigger cluster dep); [|by destruct Hcase as (_ & _ & ->); apply Hstep].
  destruct (GetClusterIDFromClusterAnnotations cluster) as [e|clusterID];
    [by destruct Hcase as (_ & _ & ->); apply Hstep|].
  destruct Hcase as [(e & Hloop & _ & _)|(w2 & Hloop & -> & Hupd)];
    unfold readinessLoop in Hloop; apply forLoop_loopRun in Hloop as (l & Hrun & _);
    apply readiness_run_loopStep in Hrun;
    pose proof (loopStep_trans _ _ _ Hstart Hrun) as Hall.
  - by apply Hstep.
  - destruct Hall as (L1 & L2 & L3 & L4 & L5 & _).
    apply updateClusterStatus_inv in Hupd as (U1 & U2 & U3 & U4 & _ & _ & Hres).
    rewrite U1, U2, U3, U4. do 4 (split; [done|]).
    destruct r as [err|]; [|done]. destruct Hres as [-> _]. done.
Qed.

(** X15: [Reconcile] builds in order.  Whatever a run that returns has
    met, it has added a Deployment only with the ConfigMap of the Cluster
    in place, a Service only with the ConfigMap and the Deployment in
    place, and it has changed the status of a Partition or of the Cluster
    only with all three in place. *)
Theorem Reconcile_creates_in_order fuel req s res e s' :
  ownerKeepsName ->
  Reconcile fuel req s = Return (res, e, s') ->
  (deployments (world s') <> deployments (world s) ->
   is_Some (configMaps (world s') !! req)) /\
  (services (world s') <> services (world s) ->
   is_Some (configMaps (world s') !! req) /\
   is_Some (deployments (world s') !! req)) /\
  (partitions (world s') <> partitions (world s) \/
   clusters (world s') <> clusters (world s) ->
   is_Some (configMaps (world s') !! req) /\
   is_Some (deployments (world s') !! req) /\
   is_Some (services (world s') !! req)).
Proof.
  intros Hkeep Hrun.
  assert (Hsame : forall w', sameObjects (world s) w' ->
    (deployments w' <> deployments (world s) -> is_Some (configMaps w' !! req)) /\
    (services w' <> services (world s) ->
     is_Some (configMaps w' !! req) /\ is_Some (deployments w' !! req)) /\
    (partitions w' <> partitions (world s) \/ clusters w' <> clusters (world s) ->
     is_Some (configMaps w' !! req) /\ is_Some (deployments w' !! req) /\
     is_Some (services w' !! req))).
  { intros w' (_ & ? & ? & ? & ?). split; [done|]. split; [done|].
    intros [?|?]; done. }
  destruct (getCluster req s) as [g s1] eqn:Hget.
  pose proof (getCluster_inv _ _ _ _ Hget) as (_ & _ & [Cobj _] & _ & _ & Hres).
  destruct g as [err|[cluster name]].
  { unfold Reconcile in Hrun. rewrite Hget in Hrun.
    destruct (IsNotFound err); inversion Hrun; subst; by apply Hsame. }
  destruct (getStorage name s1) as [g2 s2] eqn:Hget2.
  pose proof (getStorage_inv _ _ _ _ Hget2) as (_ & _ & [Sobj _] & _ & _ & _).
  assert (Hobj : sameObjects (world s) (world s2)).
  { destruct Cobj as (A1 & A2 & A3 & A4 & A5), Sobj as (B1 & B2 & B3 & B4 & B5).
    unfold sameObjects. by rewrite B1, B2, B3, B4, B5. }
  destruct g2 as [err|storage].
  { unfold Reconcile in Hrun. rewrite Hget, Hget2 in Hrun.
    destruct (IsNotFound err); inversion Hrun; subst; by apply Hsame. }
  rewrite (Reconcile_steps _ _ _ _ _ _ _ _ Hget Hget2) in Hrun.
  destruct (reconcileSteps fuel cluster storage (world s2)) as [[e' w']| |] eqn:Hsteps;
    try done.
  injection Hrun as _ -> <-. simpl.
  destruct Hres as (o & st & _ & _ & _ & Hc).
  assert (Hname : (Namespace (ClusterMeta cluster), Name (ClusterMeta cluster)) = req)
    by (rewrite Hc; by destruct req).
  destruct Hobj as (O1 & O2 & O3 & O4 & O5). rewrite <- O2, <- O3, <- O4, <- O5.
  unfold reconcileSteps in Hsteps.
  destruct (reconcileConfigMap _ _ _ _) as [[r3 w3]| |] eqn:Hcm; try done.
  pose proof (proj1 (steps_keep_partitions fuel cluster storage (world s2))
                _ _ Hcm) as Pcm.
  pose proof (reconcileConfigMap_keeps _ _ _ _ _ _ Hcm) as (K1 & K2 & K3).
  destruct r3 as [err|].
  { injection Hsteps as _ <-. rewrite K1, K2, K3, Pcm.
    split; [done|]. split; [done|]. intros [?|?]; done. }
  apply reconcileConfigMap_present in Hcm; [|done]. rewrite Hname in Hcm.
  destruct (reconcileDeployment _ _ w3) as [r4 w4] eqn:Hdep.
  pose proof (proj1 (proj2 (steps_keep_partitions fuel cluster storage w3))
                _ _ Hdep) as Pdep.
  pose proof (reconcileDeployment_keeps _ _ _ _ _ Hdep) as (D1 & D2 & D3).
  destruct r4 as [err|].
  { injection Hsteps as _ <-. rewrite D1, D2, D3, Pdep, K2, K3, Pcm.
    split; [done|]. split; [done|]. intros [?|?]; done. }
  apply reconcileDeployment_present in Hdep; [|done]. rewrite Hname in Hdep.
  destruct (reconcileService _ _ w4) as [r5 w5] eqn:Hsvc.
  pose proof (proj2 (proj2 (steps_keep_partitions fuel cluster storage w4))
                _ _ Hsvc) as Psvc.
  pose proof (reconcileService_keeps _ _ _ _ _ Hsvc) as (S1 & S2 & S3).
  destruct r5 as [err|].
  { injection Hsteps as _ <-. rewrite S1, S2, S3, Psvc, D1, D3, Pdep, K3, Pcm.
    split; [done|]. split; [done|]. intros [?|?]; done. }
  apply reconcileService_present in Hsvc; [|done]. rewrite Hname in Hsvc.
  destruct (reconcileStatus _ _ _ w5) as [[[r6 c6] w6]| |] eqn:Hst; try done.
  injection Hsteps as _ <-.
  apply reconcileStatus_keeps in Hst as (T1 & T2 & T3 & _).
  rewrite T1, T2, T3, S1, S2, D1. done.
Qed.

(** X16: a pass that failed can be retried.  For a partition count
    P >= 1 and a shard identifier C >= 1 with P * C below the largest
    [int32]: if the guard held and every Partition with an ordinal in
    [(P * (C-1)) + 1, P * C] existed when a pass returned an error, a
    further pass on the server as that pass left it, with the Cluster as
    it was read and no call failing, completes: each of these Partitions
    is ready and ReadyPartitions = Spec.Partitions is persisted. *)
Theorem readiness_pass_retry fuel cluster storage w e cluster1 w1 dep clusterID :
  reconcileStatus fuel cluster storage w = Return (Some e, cluster1, w1) ->
  deployments w !! (Namespace (ClusterMeta cluster), Name (ClusterMeta cluster))
    = Some dep ->
  trigger cluster dep = true ->
  GetClusterIDFromClusterAnnotations cluster = inr clusterID ->
  1 <= Partitions (Spec cluster) -> 1 <= clusterID ->
  Partitions (Spec cluster) * clusterID < Int32.max_int ->
  (Z.to_nat (Partitions (Spec cluster)) < fuel)%nat ->
  (forall j,
     Partitions (Spec cluster) * (clusterID - 1) + 1 <= j
       <= Partitions (Spec cluster) * clusterID ->
     is_Some (partitions w !! GetPartitionNamespacedName cluster j) /\
     (GetPartitionNamespacedName cluster j).2 <> EmptyString) ->
  Name (ClusterMeta cluster) <> EmptyString ->
  is_Some (clusters w !! metaKey (ClusterMeta cluster)) ->
  exists w2,
    reconcileStatus fuel cluster storage (setFaults [] w1) =
      Return (None, setReadyPartitions (Partitions (Spec cluster)) cluster, w2) /\
    (forall j,
       Partitions (Spec cluster) * (clusterID - 1) + 1 <= j
         <= Partitions (Spec cluster) * clusterID ->
       readyIn w2 (GetPartitionNamespacedName cluster j)) /\
    clusters w2 !! metaKey (ClusterMeta cluster) =
      Some {| ReadyPartitions := Partitions (Spec cluster) |}.
Proof.
  intros Hfailed Hdep Hguard Hid Hp Hc Hpc Hfuel Hexist Hname Hstored.
  apply reconcileStatus_keeps in Hfailed as (_ & F2 & _ & Fdom & Fcl).
  specialize (Fcl ltac:(done)).
  destruct (reconcileStatus_marks_owned fuel cluster storage (setFaults [] w1)
              dep clusterID
              (seqZ (Partitions (Spec cluster) * (clusterID - 1) + 1)
                    (Partitions (Spec cluster))))
    as (w2 & Hpass & Hparts & Hcl & _); simpl; try done.
  - by rewrite F2.
  - by apply ownedOrdinals_exact.
  - intros j Hj. apply elem_of_seqZ in Hj.
    destruct (Hexist j) as [Hsome Hnm]; [lia|]. split; [|done].
    by apply Fdom.
  - by rewrite Fcl.
  - exists w2. split; [done|]. split.
    + intros j Hj. unfold readyIn. rewrite Hparts.
      rewrite decide_True; [done|]. apply list_elem_of_fmap_2.
      apply elem_of_seqZ. lia.
    + rewrite Hcl. by rewrite lookup_insert_eq.
Qed.

End Order.

Lemma Reconcile_creates_in_order_witness :
  exists res e s',
    Reconcile (H := Fixture.externals) 5 Fixture.name Scenario.sFresh
      = Return (res, e, s') /\
    is_Some (configMaps (world s') !! Fixture.name) /\
    is_Some (deployments (world s') !! Fixture.name) /\
    is_Some (services (world s') !! Fixture.name).
Proof.
  set (s' := Scenario.serverOf Scenario.sFresh
               (Reconcile (H := Fixture.externals) 5 Fixture.name Scenario.sFresh)).
  assert (Hrun : Reconcile (H := Fixture.externals) 5 Fixture.name Scenario.sFresh
                 = Return ({| Requeue := false |}, None, s'))
    by (vm_compute; reflexivity).
  destruct (Reconcile_creates_in_order (H := Fixture.externals) 5 Fixture.name
              Scenario.sFresh _ _ s' fixture_ownerKeepsName Hrun) as (_ & _ & Hall).
  exists {| Requeue := false |}, None, s'. split; [exact Hrun|].
  apply Hall. right. intros Heq.
  apply (f_equal (fun m => m !! Fixture.name)) in Heq.
  vm_compute in Heq. discriminate Heq.
Defined.

Lemma readiness_pass_retry_witness :
  exists w1 w2,
    reconcileStatus (H := Fixture.externals) 4 Fixture.c32 Fixture.storage
      Fixture.wFail = Return (Some (ClientFailure 7), Fixture.c32, w1) /\
    reconcileStatus (H := Fixture.externals) 4 Fixture.c32 Fixture.storage
      (setFaults [] w1)
      = Return (None, setReadyPartitions 3 Fixture.c32, w2) /\
    clusters w2 !! Fixture.name = Some {| ReadyPartitions := 3 |}.
Proof.
  set (w1 := Fixture.finalWorld Fixture.wFail
               (reconcileStatus (H := Fixture.externals) 4 Fixture.c32
                  Fixture.storage Fixture.wFail)).
  assert (Hfailed : reconcileStatus (H := Fixture.externals) 4 Fixture.c32
                      Fixture.storage Fixture.wFail
                    = Return (Some (ClientFailure 7), Fixture.c32, w1))
    by (vm_compute; reflexivity).
  destruct (readiness_pass_retry (H := Fixture.externals) 4 Fixture.c32
              Fixture.storage Fixture.wFail _ _ w1 (Fixture.deployment 1 1) 2
              Hfailed) as (w2 & Hpass & _ & Hcl).
  - vm_compute. reflexivity.
  - reflexivity.
  - reflexivity.
  - simpl. lia.
  - lia.
  - reflexivity.
  - simpl. lia.
  - intros j Hj. simpl in Hj.
    assert (Hcases : j = 4 \/ j = 5 \/ j = 6) by lia.
    destruct Hcases as [->|[->| ->]];
      (split; [vm_compute; eexists; reflexivity|vm_compute; discriminate]).
  - discriminate.
  - vm_compute. eexists. reflexivity.
  - exists w1, w2. split; [exact Hfailed|]. split; [exact Hpass|exact Hcl].
Defined.
